(** * The Qdrant connector of mcp-server-qdrant-enhanced

    A shallow embedding of [src/mcp_server_qdrant/qdrant.py]: the class
    [QdrantConnector] with its operations [store], [search],
    [_ensure_collection_exists], [create_collection_with_config],
    [batch_store], [scroll_collection] and [hybrid_search], and the
    pydantic models [Entry] and [BatchEntry].

    The connector awaits two collaborators, the embedding provider and the
    Qdrant client.  Every awaited call is an event of a trace; a call may
    raise, and the connector's own [try]/[except] blocks and [assert]
    statements are modelled as the source has them.  One operation runs at a
    time: no other task is interleaved between two awaited calls.  The
    operations [get_collection_names], [get_detailed_collection_info] and
    [delete_collection] are not needed below and are left out. *)

From Stdlib Require Import ZArith NArith QArith String Ascii List.
From stdpp Require Import base option list gmap strings pretty sorting.

Local Open Scope string_scope.
Local Open Scope Z_scope.
Local Open Scope list_scope.

(** ** Python values *)

(** [Any] as far as it can sit in a payload: the JSON values.  Python's
    [None] is [JNull]. *)
#[warnings="-register-all"]
Inductive Json : Type :=
  | JNull
  | JBool (b : bool)
  | JInt (z : Z)
  | JFloat (q : Q)
  | JStr (s : string)
  | JList (l : list Json)
  | JDict (d : gmap string Json).

(** [Metadata = dict[str, Any]]. *)
Abbreviation Metadata := (gmap string Json).
(** The payload of a point is a dictionary with string keys as well. *)
Abbreviation Payload := (gmap string Json).

(** A value of type [Metadata | None] seen as [Any]. *)
Definition json_of_metadata (m : option Metadata) : Json :=
  match m with
  | Some d => JDict d
  | None => JNull
  end.

(** [d.get(key)]: the value, [None] when the key is absent. *)
Definition dict_get (d : gmap string Json) (key : string) : Json :=
  default JNull (d !! key).

(** [d.get(key, dflt)]. *)
Definition dict_get_default (d : gmap string Json) (key : string) (dflt : Json) : Json :=
  default dflt (d !! key).

(** Truth value of a [str | None]: [None] and the empty string are false. *)
Definition truthy_str (s : option string) : bool :=
  match s with
  | Some EmptyString => false
  | Some _ => true
  | None => false
  end.

(** [a or b] on values of type [str | None]. *)
Definition py_or (a b : option string) : option string :=
  if truthy_str a then a else b.

(** Truth value of a [dict | None]. *)
Definition truthy_dict (d : option (gmap string Json)) : bool :=
  match d with
  | Some m => negb (bool_decide (m = ∅))
  | None => false
  end.

(** ** [str.lower]

    Letters [A]..[Z] go to [a]..[z].  A string is its UTF-8 bytes; the bytes
    of other code points are kept.  Python lowers some of these too, but
    always to a code point outside ASCII, except U+212A (the Kelvin sign)
    which goes to [k]; either way the result still differs from every
    lower-case ASCII word without a [k]. *)
Definition lower_char (c : ascii) : ascii :=
  let n := N_of_ascii c in
  if ((65 <=? n) && (n <=? 90))%N then ascii_of_N (n + 32) else c.

Fixpoint lower (s : string) : string :=
  match s with
  | EmptyString => EmptyString
  | String c r => String (lower_char c) (lower r)
  end.

(** ** [uuid.uuid4().hex]

    [uuid4] reads 16 bytes of [os.urandom], as a 128-bit number, and
    [UUID.__init__] with [version=4] stamps the variant and version bits;
    [hex] is ['%032x' % int]. *)
Definition uuid4_int (random : N) : N :=
  let i := (random mod 2 ^ 128)%N in
  let i := N.lor (N.ldiff i (N.shiftl 0xc000 48)) (N.shiftl 0x8000 48) in
  N.lor (N.ldiff i (N.shiftl 0xf000 64)) (N.shiftl 4 76).

Definition hex_digit (d : N) : ascii :=
  if (d <? 10)%N then ascii_of_N (48 + d) else ascii_of_N (87 + d).

(** The [k] low hexadecimal digits of [n], most significant first. *)
Fixpoint hex_digits (k : nat) (n : N) : string :=
  match k with
  | O => EmptyString
  | S k' => String (hex_digit (N.land (N.shiftr n (4 * N.of_nat k')) 15)) (hex_digits k' n)
  end.

Definition uuid4_hex (random : N) : string := hex_digits 32 (uuid4_int random).

(** ** The pydantic models *)

Inductive Exn : Type :=
  | AssertionError
  | KeyError (key : string)
  | TypeError (msg : string)
  | IndexError
  | ValidationError (field : string)
  | ServiceError (msg : string).

Inductive Result (A : Type) : Type :=
  | Ok (a : A)
  | Raise (e : Exn).
Arguments Ok {A} a.
Arguments Raise {A} e.

Module Entry.
(** [class Entry(BaseModel)]: [content: str], [metadata: Metadata | None]. *)
Record t : Type := make { content : string; metadata : option Metadata }.

(** [Entry(content=c, metadata=m)] on arbitrary values: pydantic checks the
    declared types and raises a [ValidationError] otherwise. *)
Definition init (c m : Json) : Result t :=
  match c with
  | JStr s =>
      match m with
      | JNull => Ok (make s None)
      | JDict d => Ok (make s (Some d))
      | _ => Raise (ValidationError "metadata")
      end
  | _ => Raise (ValidationError "content")
  end.
End Entry.

Module BatchEntry.
(** [class BatchEntry(BaseModel)]: an [Entry] with an optional [id]. *)
Record t : Type := make {
  content : string;
  metadata : option Metadata;
  id : option string
}.
End BatchEntry.

(** ** The models of [qdrant_client.models] the connector builds and reads *)

Inductive PointId : Type :=
  | IdInt (n : Z)
  | IdStr (s : string).

(** [str(point.id)], as an f-string renders it. *)
Definition str_of_id (i : PointId) : string :=
  match i with
  | IdInt n => pretty n
  | IdStr s => s
  end.

Definition json_of_id (i : PointId) : Json :=
  match i with
  | IdInt n => JInt n
  | IdStr s => JStr s
  end.

(** The connector never computes with a vector or a score; their floats are
    carried as rationals. *)
Abbreviation Vector := (list Q).

Inductive Distance : Type := COSINE | EUCLID | DOT | MANHATTAN.

Inductive PayloadSchemaType : Type :=
  | KEYWORD | INTEGER | FLOAT | GEO | TEXT | BOOL | DATETIME | UUID.

Module VectorParams.
Record t : Type := make { size : Z; distance : Distance }.
End VectorParams.

Module PointStruct.
Record t : Type := make {
  id : PointId;
  vector : gmap string Vector;
  payload : option Payload
}.
End PointStruct.

(** What [query_points] answers with. *)
Module ScoredPoint.
Record t : Type := make {
  id : PointId;
  score : Q;
  payload : option Payload
}.
End ScoredPoint.

(** What [scroll] answers with. *)
Module Record_.
Record t : Type := make {
  id : PointId;
  payload : option Payload;
  vector : option (gmap string Vector)
}.
End Record_.

(** A [models.Filter] is a condition on the payload of a point, which the
    service evaluates. *)
Abbreviation Filter := (option Payload -> bool).

(** ** The embedding provider *)

(** Modelled from the spec: the abstract class [EmbeddingProvider] of
    [mcp_server_qdrant.embeddings.base], which is not among the sources at
    hand, by its capability set: [embed_documents(texts) -> vectors],
    [embed_query(text) -> vector], [get_vector_name() -> slot identifier],
    [get_vector_size() -> dimensionality]. *)
Record EmbeddingProvider : Type := {
  embed_documents : list string -> list Vector;
  embed_query : string -> Vector;
  get_vector_name : string;
  get_vector_size : Z
}.

(** ** Calls, events and the world *)

(** The awaited calls, with the arguments the connector passes. *)
Inductive Call : Type :=
  | EmbedDocuments (documents : list string)
  | EmbedQuery (query : string)
  | CollectionExists (collection_name : option string)
  | CreateCollection (collection_name : string) (vectors_config : gmap string VectorParams.t)
  | CreatePayloadIndex (collection_name field_name : string) (field_schema : PayloadSchemaType)
  | Upsert (collection_name : string) (points : list PointStruct.t)
  | QueryPoints (collection_name : option string) (query : Vector) (using_ : string)
      (limit : Z) (query_filter : option Filter) (score_threshold : option Q)
      (params : gmap string Json)
  | Scroll (collection_name : string) (limit : Z) (offset : option PointId)
      (scroll_filter : option Filter) (with_payload with_vectors : bool).

(** A call and the exception it raised, if it raised one. *)
Record Event : Type := { call : Call; raised : option Exn }.

(** A collection as the service holds it. *)
Record Collection : Type := {
  vectors_config : gmap string VectorParams.t;
  payload_schema : list (string * PayloadSchemaType);
  points : list PointStruct.t
}.

(** The world a connector runs in: the collections of the service, the calls
    made so far, and what the connector does not decide: which calls fail
    ([fault n] is the error of the call number [n], if it fails), the bytes
    [os.urandom] gives, and how the service scores a point. *)
#[projections(primitive)]
Record World : Type := {
  collections : gmap string Collection;
  trace : list Event;
  fault : nat -> option string;
  urandom : nat -> N;
  drawn : nat;
  similarity : Distance -> Vector -> Vector -> Q
}.

Definition set_collections (db : gmap string Collection) (w : World) : World :=
  {| collections := db; trace := trace w; fault := fault w;
     urandom := urandom w; drawn := drawn w; similarity := similarity w |}.

Definition log (ev : Event) (w : World) : World :=
  {| collections := collections w; trace := trace w ++ [ev]; fault := fault w;
     urandom := urandom w; drawn := drawn w; similarity := similarity w |}.

Definition draw (w : World) : World :=
  {| collections := collections w; trace := trace w; fault := fault w;
     urandom := urandom w; drawn := S (drawn w); similarity := similarity w |}.

(** The events of a run from [w] to [w']. *)
Definition since (w w' : World) : list Event := drop (length (trace w)) (trace w').

(** ** Computations: state and exceptions *)

Definition M (A : Type) : Type := World -> Result A * World.

Definition ret {A} (a : A) : M A := fun w => (Ok a, w).

Definition raise {A} (e : Exn) : M A := fun w => (Raise e, w).

Definition bind {A B} (m : M A) (k : A -> M B) : M B :=
  fun w =>
    match m w with
    | (Ok a, w') => k a w'
    | (Raise e, w') => (Raise e, w')
    end.

(** [try: m except Exception: h]. Every exception of the model is an
    [Exception]. *)
Definition try_except {A} (m : M A) (h : Exn -> M A) : M A :=
  fun w =>
    match m w with
    | (Ok a, w') => (Ok a, w')
    | (Raise e, w') => h e w'
    end.

Declare Scope py_scope.
Delimit Scope py_scope with py.
Notation "x <- m ;; k" := (bind m (fun x => k))
  (at level 63, m at next level, right associativity) : py_scope.
Notation "m ;;; k" := (bind m (fun _ => k))
  (at level 63, right associativity) : py_scope.
Local Open Scope py_scope.

(** A value computed without a call, which may raise. *)
Definition lift {A} (r : Result A) : M A := fun w => (r, w).

(** [[f(x) for x in l]]. *)
Fixpoint for_list {A B} (f : A -> M B) (l : list A) : M (list B) :=
  match l with
  | [] => ret []
  | x :: l' => y <- f x ;; ys <- for_list f l' ;; ret (y :: ys)
  end.

(** [for x in l: f(x)]. *)
Fixpoint for_each {A} (f : A -> M unit) (l : list A) : M unit :=
  match l with
  | [] => ret tt
  | x :: l' => f x ;;; for_each f l'
  end.

Definition exn_of {A} (r : Result A) : option Exn :=
  match r with
  | Ok _ => None
  | Raise e => Some e
  end.

(** An awaited call [c], answered by [answer] unless the world makes it fail.
    The call and its outcome are logged. *)
Definition await {A} (c : Call)
    (answer : World -> Result A * gmap string Collection) : M A :=
  fun w =>
    match fault w (length (trace w)) with
    | Some msg =>
        (Raise (ServiceError msg), log {| call := c; raised := Some (ServiceError msg) |} w)
    | None =>
        let '(r, db) := answer w in
        (r, log {| call := c; raised := exn_of r |} (set_collections db w))
    end.

(** [uuid.uuid4().hex] *)
Definition uuid4 : M string :=
  fun w => (Ok (uuid4_hex (urandom w (drawn w))), draw w).

(** ** What the collaborators answer

    The embedding provider answers with its vectors.  The service is modelled
    by its collections: a collection exists once created, creating it again
    is refused, points are written to and read from an existing collection,
    a query ranks the points that pass the filter by their score, best first,
    and answers with the [limit] best, a scroll pages through the points from
    [offset] on.  Any other failure is a [fault] of the world. *)

Global Instance PointId_eq_dec : EqDecision PointId.
Proof. solve_decision. Defined.

Definition provider_embed_documents (p : EmbeddingProvider) (documents : list string)
    : M (list Vector) :=
  await (EmbedDocuments documents) (fun w => (Ok (embed_documents p documents), collections w)).

Definition provider_embed_query (p : EmbeddingProvider) (query : string) : M Vector :=
  await (EmbedQuery query) (fun w => (Ok (embed_query p query), collections w)).

Definition client_collection_exists (collection_name : option string) : M bool :=
  await (CollectionExists collection_name) (fun w =>
    match collection_name with
    | Some name =>
        match collections w !! name with
        | Some _ => (Ok true, collections w)
        | None => (Ok false, collections w)
        end
    | None => (Ok false, collections w)
    end).

Definition client_create_collection (collection_name : string)
    (config : gmap string VectorParams.t) : M unit :=
  await (CreateCollection collection_name config) (fun w =>
    match collections w !! collection_name with
    | Some _ => (Raise (ServiceError "collection already exists"), collections w)
    | None =>
        (Ok tt, <[collection_name :=
                   {| vectors_config := config; payload_schema := []; points := [] |}]>
                (collections w))
    end).

Definition client_create_payload_index (collection_name field_name : string)
    (field_schema : PayloadSchemaType) : M unit :=
  await (CreatePayloadIndex collection_name field_name field_schema) (fun w =>
    match collections w !! collection_name with
    | Some c =>
        (Ok tt, <[collection_name :=
                   {| vectors_config := vectors_config c;
                      payload_schema := payload_schema c ++ [(field_name, field_schema)];
                      points := points c |}]>
                (collections w))
    | None => (Raise (ServiceError "collection not found"), collections w)
    end).

(** A point replaces the point of the same id, or is added. *)
Fixpoint upsert_point (p : PointStruct.t) (l : list PointStruct.t) : list PointStruct.t :=
  match l with
  | [] => [p]
  | q :: l' =>
      if decide (PointStruct.id q = PointStruct.id p) then p :: l'
      else q :: upsert_point p l'
  end.

Definition client_upsert (collection_name : string) (pts : list PointStruct.t) : M unit :=
  await (Upsert collection_name pts) (fun w =>
    match collections w !! collection_name with
    | Some c =>
        (Ok tt, <[collection_name :=
                   {| vectors_config := vectors_config c;
                      payload_schema := payload_schema c;
                      points := foldl (fun l p => upsert_point p l) (points c) pts |}]>
                (collections w))
    | None => (Raise (ServiceError "collection not found"), collections w)
    end).

Definition passes (f : option Filter) (p : PointStruct.t) : bool :=
  match f with
  | Some cond => cond (PointStruct.payload p)
  | None => true
  end.

(** The point [p] scored against [query] on the vector slot [slot], if it has
    that slot and passes the filter and the threshold. *)
Definition scored (w : World) (d : Distance) (query : Vector) (slot : string)
    (f : option Filter) (threshold : option Q) (p : PointStruct.t)
    : option ScoredPoint.t :=
  if passes f p then
    match PointStruct.vector p !! slot with
    | Some v =>
        let s := similarity w d query v in
        if match threshold with Some t => Qle_bool t s | None => true end
        then Some (ScoredPoint.make (PointStruct.id p) s (PointStruct.payload p))
        else None
    | None => None
    end
  else None.

Definition better (a b : ScoredPoint.t) : Prop :=
  Is_true (Qle_bool (ScoredPoint.score b) (ScoredPoint.score a)).

(** The answer of the service to [query_points]. *)
Definition query_answer (w : World) (collection_name : option string) (query : Vector)
    (slot : string) (limit : Z) (f : option Filter) (threshold : option Q)
    : Result (list ScoredPoint.t) :=
  match collection_name with
  | Some name =>
      match collections w !! name with
      | Some c =>
          match vectors_config c !! slot with
          | Some params =>
              Ok (take (Z.to_nat limit)
                    (merge_sort better
                       (omap (scored w (VectorParams.distance params) query slot f threshold)
                             (points c))))
          | None => Raise (ServiceError "not existing vector name")
          end
      | None => Raise (ServiceError "collection not found")
      end
  | None => Raise (ServiceError "collection not found")
  end.

Definition client_query_points (collection_name : option string) (query : Vector)
    (slot : string) (limit : Z) (f : option Filter) (threshold : option Q)
    (params : gmap string Json) : M (list ScoredPoint.t) :=
  await (QueryPoints collection_name query slot limit f threshold params) (fun w =>
    (query_answer w collection_name query slot limit f threshold, collections w)).

Fixpoint from_offset (i : PointId) (l : list PointStruct.t) : list PointStruct.t :=
  match l with
  | [] => []
  | p :: l' => if decide (PointStruct.id p = i) then l else from_offset i l'
  end.

Definition record_of (with_payload with_vectors : bool) (p : PointStruct.t) : Record_.t :=
  Record_.make (PointStruct.id p)
    (if with_payload then PointStruct.payload p else None)
    (if with_vectors then Some (PointStruct.vector p) else None).

(** The answer of the service to [scroll]: a page and the id to go on from. *)
Definition scroll_answer (w : World) (collection_name : string) (limit : Z)
    (offset : option PointId) (f : option Filter) (with_payload with_vectors : bool)
    : Result (list Record_.t * option PointId) :=
  match collections w !! collection_name with
  | Some c =>
      let rest := match offset with Some i => from_offset i (points c) | None => points c end in
      let found := List.filter (passes f) rest in
      Ok (map (record_of with_payload with_vectors) (take (Z.to_nat limit) found),
          PointStruct.id <$> (found !! Z.to_nat limit))
  | None => Raise (ServiceError "collection not found")
  end.

Definition client_scroll (collection_name : string) (limit : Z) (offset : option PointId)
    (f : option Filter) (with_payload with_vectors : bool)
    : M (list Record_.t * option PointId) :=
  await (Scroll collection_name limit offset f with_payload with_vectors) (fun w =>
    (scroll_answer w collection_name limit offset f with_payload with_vectors, collections w)).

(** ** The connector *)

(** The fields of [QdrantConnector] its operations read.  The client handle is
    the world. *)
Record QdrantConnector : Type := {
  _default_collection_name : option string;
  _embedding_provider : EmbeddingProvider;
  _field_indexes : option (list (string * PayloadSchemaType))
}.

(** [Entry(content=payload["document"], metadata=payload.get(key))] *)
Definition entry_of_payload (key : string) (payload : option Payload) : Result Entry.t :=
  match payload with
  | Some d =>
      match d !! "document" with
      | Some document => Entry.init document (dict_get d key)
      | None => Raise (KeyError "document")
      end
  | None => Raise (TypeError "'NoneType' object is not subscriptable")
  end.

(** [embeddings[0]] *)
Definition first_of (embeddings : list Vector) : Result Vector :=
  match embeddings with
  | v :: _ => Ok v
  | [] => Raise IndexError
  end.

(** The keywords [hybrid_search] passes to [query_points] itself: [**params]
    must not repeat one. *)
Definition query_keywords : list string :=
  ["collection_name"; "query"; "using"; "limit"; "query_filter"; "score_threshold"].

Section Connector.

(** [settings.METADATA_PATH], a constant of a module that is not part of
    the sources at hand. *)
Variable METADATA_PATH : string.

Variable self : QdrantConnector.

(** [{"document": entry.content, METADATA_PATH: entry.metadata}] *)
Definition payload_of (content : string) (metadata : option Metadata) : Payload :=
  <[METADATA_PATH := json_of_metadata metadata]> (<["document" := JStr content]> ∅).

(** The loop over [self._field_indexes.items()], when the mapping is
    neither [None] nor empty. *)
Definition create_payload_indexes (collection_name : string) : M unit :=
  match _field_indexes self with
  | Some ((_ :: _) as items) =>
      for_each (fun '(field_name, field_type) =>
                  client_create_payload_index collection_name field_name field_type)
               items
  | _ => ret tt
  end.

Definition _ensure_collection_exists (collection_name : string) : M unit :=
  collection_exists <- client_collection_exists (Some collection_name) ;;
  if negb collection_exists then
    let vector_size := get_vector_size (_embedding_provider self) in
    let vector_name := get_vector_name (_embedding_provider self) in
    client_create_collection collection_name
      {[ vector_name := VectorParams.make vector_size COSINE ]} ;;;
    create_payload_indexes collection_name
  else ret tt.

Definition store (entry : Entry.t) (collection_name : option string) : M unit :=
  match py_or collection_name (_default_collection_name self) with
  | None => raise AssertionError
  | Some collection_name =>
      _ensure_collection_exists collection_name ;;;
      embeddings <- provider_embed_documents (_embedding_provider self)
                      [Entry.content entry] ;;
      let vector_name := get_vector_name (_embedding_provider self) in
      let payload := payload_of (Entry.content entry) (Entry.metadata entry) in
      point_id <- uuid4 ;;
      embedding <- lift (first_of embeddings) ;;
      client_upsert collection_name
        [PointStruct.make (IdStr point_id) {[ vector_name := embedding ]} (Some payload)]
  end.

Definition search (query : string) (collection_name : option string) (limit : Z)
    (query_filter : option Filter) : M (list Entry.t) :=
  let collection_name := py_or collection_name (_default_collection_name self) in
  collection_exists <- client_collection_exists collection_name ;;
  if negb collection_exists then ret []
  else
    query_vector <- provider_embed_query (_embedding_provider self) query ;;
    let vector_name := get_vector_name (_embedding_provider self) in
    search_results <- client_query_points collection_name query_vector vector_name
                        limit query_filter None ∅ ;;
    for_list (fun result => lift (entry_of_payload "metadata" (ScoredPoint.payload result)))
             search_results.

Definition create_collection_with_config (collection_name : string) (vector_size : Z)
    (distance : string) (embedding_provider : option EmbeddingProvider) : M bool :=
  try_except
    (let distance_map : gmap string Distance :=
       <["manhattan" := MANHATTAN]> (<["euclidean" := EUCLID]>
         (<["dot" := DOT]> (<["cosine" := COSINE]> ∅))) in
     let distance_metric := default COSINE (distance_map !! lower distance) in
     let vector_name :=
       match embedding_provider with
       | Some p => get_vector_name p
       | None => get_vector_name (_embedding_provider self)
       end in
     client_create_collection collection_name
       {[ vector_name := VectorParams.make vector_size distance_metric ]} ;;;
     create_payload_indexes collection_name ;;;
     ret true)
    (fun _ => ret false).

(** The body of the loop of [batch_store]: one point per entry. *)
Definition batch_point (vector_name : string) (pair : BatchEntry.t * Vector)
    : M PointStruct.t :=
  let '(entry, embedding) := pair in
  point_id <- (if truthy_str (BatchEntry.id entry)
               then ret (default "" (BatchEntry.id entry))
               else uuid4) ;;
  let payload := payload_of (BatchEntry.content entry) (BatchEntry.metadata entry) in
  ret (PointStruct.make (IdStr point_id) {[ vector_name := embedding ]} (Some payload)).

(** The [try] block of [batch_store]. *)
Definition batch_store_try (entries : list BatchEntry.t) (collection_name : string)
    : M nat :=
  let documents := map BatchEntry.content entries in
  embeddings <- provider_embed_documents (_embedding_provider self) documents ;;
  let vector_name := get_vector_name (_embedding_provider self) in
  pts <- for_list (batch_point vector_name) (zip entries embeddings) ;;
  client_upsert collection_name pts ;;;
  ret (length pts).

Definition batch_store (entries : list BatchEntry.t) (collection_name : option string)
    : M nat :=
  match py_or collection_name (_default_collection_name self) with
  | None => raise AssertionError
  | Some collection_name =>
      _ensure_collection_exists collection_name ;;;
      try_except (batch_store_try entries collection_name) (fun _ => ret O)
  end.

(** The body of the loop of [scroll_collection]: one entry per point. *)
Definition scroll_entry (with_payload : bool) (point : Record_.t) : M Entry.t :=
  if with_payload && truthy_dict (Record_.payload point) then
    let payload := default ∅ (Record_.payload point) in
    let content := dict_get_default payload "document" (JStr "") in
    let metadata := dict_get payload METADATA_PATH in
    lift (Entry.init content metadata)
  else
    ret (Entry.make ("Point ID: " +:+ str_of_id (Record_.id point))
           (Some {[ "point_id" := json_of_id (Record_.id point) ]})).

(** The [try] block of [scroll_collection]. *)
Definition scroll_collection_try (collection_name : string) (limit : Z)
    (offset : option PointId) (query_filter : option Filter)
    (with_payload with_vectors : bool) : M (list Entry.t * option PointId) :=
  result <- client_scroll collection_name limit offset query_filter
              with_payload with_vectors ;;
  entries <- for_list (scroll_entry with_payload) (fst result) ;;
  ret (entries, snd result).

Definition scroll_collection (collection_name : option string) (limit : Z)
    (offset : option PointId) (query_filter : option Filter)
    (with_payload with_vectors : bool) : M (list Entry.t * option PointId) :=
  match py_or collection_name (_default_collection_name self) with
  | None => raise AssertionError
  | Some collection_name =>
      collection_exists <- client_collection_exists (Some collection_name) ;;
      if negb collection_exists then ret ([], None)
      else
        try_except
          (scroll_collection_try collection_name limit offset query_filter
             with_payload with_vectors)
          (fun _ => ret ([], None))
  end.

(** The [try] block of [hybrid_search]. *)
Definition hybrid_search_try (query : string) (collection_name : option string)
    (limit : Z) (query_filter : option Filter) (min_score : option Q)
    (search_params : option (gmap string Json)) : M (list (Entry.t * Q)) :=
  query_vector <- provider_embed_query (_embedding_provider self) query ;;
  let vector_name := get_vector_name (_embedding_provider self) in
  let params := if truthy_dict search_params then default ∅ search_params else ∅ in
  (if existsb (fun k => bool_decide (is_Some (params !! k))) query_keywords
   then raise (TypeError "got multiple values for keyword argument")
   else ret tt) ;;;
  search_results <- client_query_points collection_name query_vector vector_name
                      limit query_filter min_score params ;;
  for_list (fun result =>
              entry <- lift (entry_of_payload METADATA_PATH (ScoredPoint.payload result)) ;;
              ret (entry, ScoredPoint.score result))
           search_results.

Definition hybrid_search (query : string) (collection_name : option string)
    (limit : Z) (query_filter : option Filter) (min_score : option Q)
    (search_params : option (gmap string Json)) : M (list (Entry.t * Q)) :=
  let collection_name := py_or collection_name (_default_collection_name self) in
  collection_exists <- client_collection_exists collection_name ;;
  if negb collection_exists then ret []
  else
    try_except
      (hybrid_search_try query collection_name limit query_filter min_score search_params)
      (fun _ => ret []).

End Connector.

(** * The administrative reads and the deletion

    [get_detailed_collection_info] probes what the client answers with
    [hasattr] and [getattr]; the answer is modelled as a Python value with
    attributes. *)

(** A Python value as the client may hand it out: [None], a boolean, an
    integer, a string, a member of a string enumeration with its [name] and
    [value], a [dict], or an instance with attributes. *)
#[warnings="-register-all"]
Inductive PyVal : Type :=
  | PyNone
  | PyBool (b : bool)
  | PyInt (z : Z)
  | PyStr (s : string)
  | PyEnum (name value : string)
  | PyDict (d : gmap string PyVal)
  | PyObject (attrs : gmap string PyVal).

(** [getattr(v, a)] where it exists.  Of the attribute names read below,
    none is an attribute of [None], a number, a string or a [dict]. *)
Definition py_attr (v : PyVal) (a : string) : option PyVal :=
  match v with
  | PyObject attrs => attrs !! a
  | PyEnum name value =>
      if decide (a = "name") then Some (PyStr name)
      else if decide (a = "value") then Some (PyStr value)
      else None
  | _ => None
  end.

(** [hasattr(v, a)] *)
Definition hasattr (v : PyVal) (a : string) : bool :=
  match py_attr v a with
  | Some _ => true
  | None => false
  end.

(** [getattr(v, a, dflt)] *)
Definition getattr (v : PyVal) (a : string) (dflt : PyVal) : PyVal :=
  default dflt (py_attr v a).

(** The truth value of a Python value; an instance is true. *)
Definition py_truthy (v : PyVal) : bool :=
  match v with
  | PyNone => false
  | PyBool b => b
  | PyInt z => negb (z =? 0)
  | PyStr s => negb (bool_decide (s = ""))
  | PyEnum _ value => negb (bool_decide (value = ""))
  | PyDict d => negb (bool_decide (d = ∅))
  | PyObject _ => true
  end.

(** [a or b] *)
Definition py_val_or (a b : PyVal) : PyVal := if py_truthy a then a else b.

Module CollectionInfo.
(** [class CollectionInfo(BaseModel)] *)
Record t : Type := make {
  name : string;
  vectors_count : Z;
  indexed_vectors_count : Z;
  points_count : Z;
  segments_count : Z;
  status : string;
  optimizer_status : string;
  vector_size : option Z;
  distance_metric : option string
}.
End CollectionInfo.

Section Admin.

(** How pydantic reads an [int] field and a [str] field from a value it is
    given, [None] when it refuses the value; and [str(v)]. *)
Variable validate_int : PyVal -> option Z.
Variable validate_str : PyVal -> option string.
Variable py_str : PyVal -> string.

(** The calls of the client the operations below await, whatever they do. *)
Variable client_get_collection : string -> M PyVal.
Variable client_delete_collection : string -> M bool.

(** A field of type [int | None] or [str | None]. *)
Definition validate_optional {A} (validate : PyVal -> option A) (field : string)
    (v : PyVal) : Result (option A) :=
  match v with
  | PyNone => Ok None
  | _ =>
      match validate v with
      | Some a => Ok (Some a)
      | None => Raise (ValidationError field)
      end
  end.

Definition validate_field {A} (validate : PyVal -> option A) (field : string)
    (v : PyVal) : Result A :=
  match validate v with
  | Some a => Ok a
  | None => Raise (ValidationError field)
  end.

(** The vector size and the distance metric [get_detailed_collection_info]
    finds in the answer of the client, [None] where it finds none. *)
Definition vector_configuration (info : PyVal) : PyVal * PyVal :=
  match py_attr info "config" with
  | Some config =>
      if py_truthy config then
        match py_attr config "params" with
        | Some params =>
            match py_attr params "vectors" with
            | Some vectors_config =>
                let vector_size := getattr vectors_config "size" PyNone in
                let distance_metric :=
                  match py_attr vectors_config "distance" with
                  | Some distance =>
                      match py_attr distance "name" with
                      | Some name => name
                      | None => PyStr (py_str distance)
                      end
                  | None => PyNone
                  end in
                (vector_size, distance_metric)
            | None => (PyNone, PyNone)
            end
        | None => (PyNone, PyNone)
        end
      else (PyNone, PyNone)
  | None => (PyNone, PyNone)
  end.

(** [CollectionInfo(name=..., vectors_count=getattr(info, 'vectors_count', 0) or 0, ...)] *)
Definition collection_info_of (collection_name : string) (info : PyVal)
    : Result CollectionInfo.t :=
  let '(vector_size, distance_metric) := vector_configuration info in
  let count a := py_val_or (getattr info a (PyInt 0)) (PyInt 0) in
  let text a := py_val_or (getattr info a (PyStr "unknown")) (PyStr "unknown") in
  match validate_field validate_int "vectors_count" (count "vectors_count"),
        validate_field validate_int "indexed_vectors_count" (count "indexed_vectors_count"),
        validate_field validate_int "points_count" (count "points_count"),
        validate_field validate_int "segments_count" (count "segments_count"),
        validate_field validate_str "status" (text "status"),
        validate_field validate_str "optimizer_status" (text "optimizer_status"),
        validate_optional validate_int "vector_size" vector_size,
        validate_optional validate_str "distance_metric" distance_metric
  with
  | Ok vectors, Ok indexed, Ok pts, Ok segments, Ok status, Ok optimizer, Ok size, Ok metric =>
      Ok (CollectionInfo.make collection_name vectors indexed pts segments status
            optimizer size metric)
  | Raise x, _, _, _, _, _, _, _ => Raise x
  | _, Raise x, _, _, _, _, _, _ => Raise x
  | _, _, Raise x, _, _, _, _, _ => Raise x
  | _, _, _, Raise x, _, _, _, _ => Raise x
  | _, _, _, _, Raise x, _, _, _ => Raise x
  | _, _, _, _, _, Raise x, _, _ => Raise x
  | _, _, _, _, _, _, Raise x, _ => Raise x
  | _, _, _, _, _, _, _, Raise x => Raise x
  end.

Definition get_detailed_collection_info (collection_name : string)
    : M (option CollectionInfo.t) :=
  try_except
    (collection_exists <- client_collection_exists (Some collection_name) ;;
     if negb collection_exists then ret None
     else
       info <- client_get_collection collection_name ;;
       collection_info <- lift (collection_info_of collection_name info) ;;
       ret (Some collection_info))
    (fun _ => ret None).

Definition delete_collection (collection_name : string) : M bool :=
  try_except
    (client_delete_collection collection_name ;;; ret true)
    (fun _ => ret false).

End Admin.

(** * The server: [mcp_server.py]

    The method [_create_secure_qdrant_connector], [format_entry] and the
    tools [find], [qdrant_store], [delete_collection] and
    [qdrant_store_batch] of [QdrantMCPServer]. *)

(** The fields of [QdrantSettings] read here. *)
Record QdrantSettings : Type := {
  location : option string;
  api_key : option string;
  collection_name : option string;
  local_path : option string;
  search_limit : Z
}.

(** The arguments [_create_secure_qdrant_connector] builds the connector
    with. *)
Record ConnectorArguments : Type := {
  qdrant_url : option string;
  qdrant_api_key : option string;
  qdrant_local_path : option string;
  connector : QdrantConnector
}.

(** [location.startswith(prefix)] for one of the prefixes a key may be sent
    to. *)
Definition secure_location (location : string) : bool :=
  String.prefix "https://" location
  || String.prefix "localhost" location
  || String.prefix "127.0.0.1" location
  || String.prefix "http://localhost" location
  || String.prefix "http://127.0.0.1" location.

(** The result of [make_indexes(...)] is given as [field_indexes]. *)
Definition _create_secure_qdrant_connector (qdrant_settings : QdrantSettings)
    (embedding_provider : EmbeddingProvider)
    (field_indexes : option (list (string * PayloadSchemaType))) : ConnectorArguments :=
  let api_key0 := api_key qdrant_settings in
  let location0 := location qdrant_settings in
  let api_key1 :=
    if truthy_str api_key0 && truthy_str location0 then
      if negb (secure_location (default "" location0)) then None else api_key0
    else api_key0 in
  {| qdrant_url := location0;
     qdrant_api_key := api_key1;
     qdrant_local_path := local_path qdrant_settings;
     connector :=
       {| _default_collection_name := collection_name qdrant_settings;
          _embedding_provider := embedding_provider;
          _field_indexes := field_indexes |} |}.

(** The truth value of a JSON value. *)
Definition json_truthy (v : Json) : bool :=
  match v with
  | JNull => false
  | JBool b => b
  | JInt z => negb (z =? 0)
  | JFloat q => negb (Qeq_bool q 0)
  | JStr s => negb (bool_decide (s = ""))
  | JList l => match l with [] => false | _ => true end
  | JDict d => negb (bool_decide (d = ∅))
  end.

(** [BatchEntry(content=c, metadata=m, id=i)] on arbitrary values. *)
Definition batch_entry_init (c m i : Json) : Result BatchEntry.t :=
  match c with
  | JStr content =>
      match m with
      | JNull | JDict _ =>
          let metadata := match m with JDict d => Some d | _ => None end in
          match i with
          | JNull => Ok (BatchEntry.make content metadata None)
          | JStr id => Ok (BatchEntry.make content metadata (Some id))
          | _ => Raise (ValidationError "id")
          end
      | _ => Raise (ValidationError "metadata")
      end
  | _ => Raise (ValidationError "content")
  end.

Module Tools.
Section Server.

Variable METADATA_PATH : string.

(** What the tools get from their host and from the libraries: [ctx.debug],
    [str(e)], [json.loads] ([None] when it raises [JSONDecodeError]) and
    [json.dumps]. *)
Variable debug : string -> M unit.
Variable str_exn : Exn -> string.
Variable json_loads : string -> option Json.
Variable json_dumps : Metadata -> string.

(** The [models.Filter] built from the items of [query_filter], which raises
    on a mapping that is no filter. *)
Variable make_filter : gmap string Json -> Result Filter.

(** The call of the client [delete_collection] awaits. *)
Variable client_delete_collection : string -> M bool.

Variable qdrant_connector : QdrantConnector.
Variable qdrant_settings : QdrantSettings.

Definition format_entry (entry : Entry.t) : string :=
  let entry_metadata :=
    if truthy_dict (Entry.metadata entry)
    then json_dumps (default ∅ (Entry.metadata entry))
    else "" in
  "<entry><content>" +:+ Entry.content entry +:+ "</content><metadata>"
    +:+ entry_metadata +:+ "</metadata></entry>".

(** The tool [find]. *)
Definition find (query : string) (collection_name : string)
    (query_filter : option (gmap string Json)) : M (list string) :=
  try_except
    (filter_obj <- (if truthy_dict query_filter
                    then f <- lift (make_filter (default ∅ query_filter)) ;; ret (Some f)
                    else ret None) ;;
     entries <- search qdrant_connector query (Some collection_name)
                  (search_limit qdrant_settings) filter_obj ;;
     match entries with
     | [] => ret ["No information found for the query '" +:+ query +:+ "'"]
     | _ => ret (("Results for the query '" +:+ query +:+ "'") :: map format_entry entries)
     end)
    (fun e =>
       debug ("Error in find: " +:+ str_exn e) ;;;
       ret ["Error searching: " +:+ str_exn e]).

(** What the tool [qdrant_store] does with its metadata: the parsed value,
    or the answer it returns at once. *)
Definition parse_metadata (metadata : option string) : string + Json :=
  if truthy_str metadata then
    match json_loads (default "" metadata) with
    | Some parsed => inr parsed
    | None => inl ("Invalid metadata JSON: " +:+ default "" metadata)
    end
  else inr JNull.

Definition json_of_id_option (i : option string) : Json :=
  match i with
  | Some id => JStr id
  | None => JNull
  end.

(** The tool [qdrant_store]; [model_name] stands for
    [self.embedding_provider.get_model_name()]. *)
Definition qdrant_store (model_name : string) (content collection_name : string)
    (metadata entry_id : option string) : M string :=
  try_except
    (debug ("Storing content in collection '" +:+ collection_name +:+ "'") ;;;
     match parse_metadata metadata with
     | inl answer => ret answer
     | inr parsed_metadata =>
         batch_entry <- lift (batch_entry_init (JStr content) parsed_metadata
                                (json_of_id_option entry_id)) ;;
         stored_count <- batch_store METADATA_PATH qdrant_connector [batch_entry]
                           (Some collection_name) ;;
         if (0 <? stored_count)%nat then
           let vector_size := get_vector_size (_embedding_provider qdrant_connector) in
           debug ("Recorded model mapping: " +:+ collection_name +:+ " -> "
                  +:+ model_name +:+ " (" +:+ pretty vector_size +:+ "D)") ;;;
           ret ("Successfully stored entry in collection '" +:+ collection_name +:+ "'")
         else ret ("Failed to store entry in collection '" +:+ collection_name +:+ "'")
     end)
    (fun e =>
       debug ("Error storing content: " +:+ str_exn e) ;;;
       ret ("Error storing content: " +:+ str_exn e)).

(** The tool [delete_collection]. *)
Definition delete_collection (collection_name : string) (confirm : bool) : M string :=
  if negb confirm then
    ret ("Please set confirm=True to delete collection '" +:+ collection_name
         +:+ "'. This action cannot be undone.")
  else
    try_except
      (success <- delete_collection client_delete_collection collection_name ;;
       if success
       then ret ("Successfully deleted collection '" +:+ collection_name +:+ "'")
       else ret ("Failed to delete collection '" +:+ collection_name +:+ "'"))
      (fun e =>
         debug ("Error deleting collection: " +:+ str_exn e) ;;;
         ret ("Error deleting collection: " +:+ str_exn e)).

(** The loop of [qdrant_store_batch] over the entries from the index [i] on:
    the answer it returns at once, or the batch entries. *)
Fixpoint convert_entries (i : nat) (entries : list (gmap string Json))
    : Result (string + list BatchEntry.t) :=
  match entries with
  | [] => Ok (inr [])
  | entry_dict :: rest =>
      match entry_dict !! "content" with
      | None => Ok (inl ("Entry " +:+ pretty i +:+ " missing required 'content' field"))
      | Some content =>
          let metadata := dict_get entry_dict "metadata" in
          let parsed :=
            if json_truthy metadata then
              match metadata with
              | JStr text =>
                  match json_loads text with
                  | Some parsed_metadata => inr parsed_metadata
                  | None =>
                      inl ("Entry " +:+ pretty i +:+ ": Invalid metadata JSON: " +:+ text)
                  end
              | _ => inr metadata
              end
            else inr JNull in
          match parsed with
          | inl answer => Ok (inl answer)
          | inr parsed_metadata =>
              match batch_entry_init content parsed_metadata (dict_get entry_dict "id") with
              | Ok batch_entry =>
                  match convert_entries (S i) rest with
                  | Ok (inr batch_entries) => Ok (inr (batch_entry :: batch_entries))
                  | other => other
                  end
              | Raise x => Raise x
              end
          end
      end
  end.

(** The tool [qdrant_store_batch]. *)
Definition qdrant_store_batch (entries : list (gmap string Json))
    (collection_name : string) : M string :=
  try_except
    (converted <- lift (convert_entries 0 entries) ;;
     match converted with
     | inl answer => ret answer
     | inr batch_entries =>
         stored_count <- batch_store METADATA_PATH qdrant_connector batch_entries
                           (Some collection_name) ;;
         if (0 <? stored_count)%nat then
           ret ("Successfully stored " +:+ pretty stored_count
                +:+ " entries in collection '" +:+ collection_name +:+ "'")
         else ret ("No entries were stored in collection '" +:+ collection_name +:+ "'")
     end)
    (fun e =>
       debug ("Error in batch store: " +:+ str_exn e) ;;;
       ret ("Error in batch store: " +:+ str_exn e)).

End Server.
End Tools.

(** * The vocabulary of the properties *)

(** The world answers every call. *)
Definition reliable (w : World) : Prop := forall n, fault w n = None.

(** The event of a call that was answered. *)
Definition answered (c : Call) : Event := {| call := c; raised := None |}.

(** The configured indexes, none when the mapping is [None]. *)
Definition indexes_of (self : QdrantConnector) : list (string * PayloadSchemaType) :=
  default [] (_field_indexes self).

(** The call that creates the index of one item of the mapping. *)
Definition index_call (collection_name : string) (item : string * PayloadSchemaType) : Call :=
  CreatePayloadIndex collection_name (fst item) (snd item).

(** The vector slots of a collection created on demand. *)
Definition default_config (self : QdrantConnector) : gmap string VectorParams.t :=
  {[ get_vector_name (_embedding_provider self) :=
       VectorParams.make (get_vector_size (_embedding_provider self)) COSINE ]}.

Definition is_create_collection (c : Call) : bool :=
  match c with
  | CreateCollection _ _ => true
  | _ => false
  end.

Definition is_create_payload_index (c : Call) : bool :=
  match c with
  | CreatePayloadIndex _ _ _ => true
  | _ => false
  end.

(** The calls that set a collection up. *)
Definition is_setup (c : Call) : bool :=
  is_create_collection c || is_create_payload_index c.

(** Every run of [m] adds events to the trace, all of calls in [P]. *)
Definition emits {A} (P : Call -> Prop) (m : M A) : Prop :=
  forall w, exists evs,
    trace (snd (m w)) = trace w ++ evs /\ Forall (fun ev => P (call ev)) evs.

(** The calls that set up a collection of name [name] in the world [w]: none
    if it is there, its creation and then its indexes if it is not. *)
Definition setup_calls (self : QdrantConnector) (name : string) (w : World) : list Call :=
  match collections w !! name with
  | Some _ => []
  | None =>
      CreateCollection name (default_config self)
      :: map (index_call name) (indexes_of self)
  end.

(** The metric the four names stand for, whatever their case, and the cosine
    metric for every other string. *)
Definition named_distance (distance : string) : Distance :=
  let name := lower distance in
  if decide (name = "cosine") then COSINE
  else if decide (name = "dot") then DOT
  else if decide (name = "euclidean") then EUCLID
  else if decide (name = "manhattan") then MANHATTAN
  else COSINE.

Definition is_embed_documents (c : Call) : bool :=
  match c with
  | EmbedDocuments _ => true
  | _ => false
  end.

Definition is_upsert (c : Call) : bool :=
  match c with
  | Upsert _ _ => true
  | _ => false
  end.

(** The embedding call and the upsert call of a write. *)
Definition is_write (c : Call) : bool := is_embed_documents c || is_upsert c.

(** The entry with its id taken away when it is the empty string. *)
Definition without_empty_id (entry : BatchEntry.t) : BatchEntry.t :=
  match BatchEntry.id entry with
  | Some EmptyString =>
      BatchEntry.make (BatchEntry.content entry) (BatchEntry.metadata entry) None
  | _ => entry
  end.

(** Every run of [m] raises what one of its calls raised: nothing is caught.
    In particular a failed call is the last one. *)
Definition propagates {A} (m : M A) : Prop :=
  forall w, exists evs,
    trace (snd (m w)) = trace w ++ evs
    /\ forall ev x, ev ∈ evs -> raised ev = Some x -> fst (m w) = Raise x.

(** The entry [scroll_collection] makes of a point it reads no payload of. *)
Definition synthetic_entry (point : Record_.t) : Entry.t :=
  Entry.make ("Point ID: " +:+ str_of_id (Record_.id point))
    (Some {[ "point_id" := json_of_id (Record_.id point) ]}).

(** A payload an [Entry] can be made of: the document, if there is one, is a
    string, and the metadata under [key], if there is any, is a mapping or
    [None]. *)
Definition entry_typed (key : string) (payload : option Payload) : bool :=
  match payload with
  | Some d =>
      match d !! "document" with
      | None | Some (JStr _) => true
      | _ => false
      end
      && match d !! key with
         | None | Some JNull | Some (JDict _) => true
         | _ => false
         end
  | None => true
  end.

(** A provider that embeds a text as its length, in one dimension. *)
Definition length_provider : EmbeddingProvider :=
  {| embed_documents := map (fun text => [inject_Z (Z.of_nat (String.length text))]);
     embed_query := fun text => [inject_Z (Z.of_nat (String.length text))];
     get_vector_name := "fast-all-minilm-l6-v2";
     get_vector_size := 1 |}.

(** A connector with no default collection and one configured index. *)
Definition notes_connector : QdrantConnector :=
  {| _default_collection_name := None;
     _embedding_provider := length_provider;
     _field_indexes := Some [("topic", KEYWORD)] |}.

(** An empty service that answers every call. *)
Definition empty_world : World :=
  {| collections := ∅; trace := []; fault := fun _ => None;
     urandom := fun n => N.of_nat n; drawn := O;
     similarity := fun _ _ _ => 1%Q |}.

(** The same, where the call number [n] fails. *)
Definition failing_world (n : nat) (msg : string) : World :=
  {| collections := ∅; trace := [];
     fault := fun k => if Nat.eqb k n then Some msg else None;
     urandom := fun n => N.of_nat n; drawn := O;
     similarity := fun _ _ _ => 1%Q |}.

(** An entry with metadata, and a batch with an empty and a given id. *)
Definition hello : Entry.t := Entry.make "hello" (Some {[ "topic" := JStr "greeting" ]}).

Definition batch_of_two : list BatchEntry.t :=
  [BatchEntry.make "first" None (Some ""); BatchEntry.make "second" None (Some "7")].

(** A service with one collection of the given points. *)
Definition world_with (name : string) (pts : list PointStruct.t) : World :=
  {| collections :=
       {[ name := {| vectors_config := default_config notes_connector;
                     payload_schema := []; points := pts |} ]};
     trace := []; fault := fun _ => None;
     urandom := fun n => N.of_nat n; drawn := O;
     similarity := fun _ _ _ => 1%Q |}.

(** A point without a payload, and one with a document only. *)
Definition bare_point : PointStruct.t := PointStruct.make (IdInt 1) ∅ None.

Definition typed_point : PointStruct.t :=
  PointStruct.make (IdInt 2) ∅ (Some {[ "document" := JStr "kept" ]}).

(** A point written by another client, with a text for metadata. *)
Definition untyped_point : PointStruct.t :=
  PointStruct.make (IdInt 2) ∅
    (Some (<[ "metadata" := JStr "plain text" ]> {[ "document" := JStr "kept" ]})).

(** Every run of [m] raises exactly when its last call raised, and then
    raises that exception: [m] raises nothing of its own. *)
Definition raises_by_call {A} (m : M A) : Prop :=
  forall w, exists evs,
    trace (snd (m w)) = trace w ++ evs
    /\ match fst (m w) with
       | Ok _ => Forall (fun ev => raised ev = None) evs
       | Raise x =>
           exists before ev,
             evs = before ++ [ev] /\ raised ev = Some x
             /\ Forall (fun ev => raised ev = None) before
       end.

(** The results of [g] on the elements of [l], or the first exception. *)
Fixpoint collect {A B} (g : A -> Result B) (l : list A) : Result (list B) :=
  match l with
  | [] => Ok []
  | a :: l' =>
      match g a with
      | Ok b =>
          match collect g l' with
          | Ok bs => Ok (b :: bs)
          | Raise x => Raise x
          end
      | Raise x => Raise x
      end
  end.

(** What [hybrid_search] makes of a match: the entry, read under [key], and
    the score. *)
Definition scored_entry (key : string) (m : ScoredPoint.t) : Result (Entry.t * Q) :=
  match entry_of_payload key (ScoredPoint.payload m) with
  | Ok entry => Ok (entry, ScoredPoint.score m)
  | Raise x => Raise x
  end.

(** What [scroll_collection] makes of a point: the entry of its payload
    when the payload is read and not empty, the entry that names its id
    otherwise. *)
Definition entry_of_point (key : string) (with_payload : bool) (point : Record_.t)
    : Result Entry.t :=
  if with_payload && truthy_dict (Record_.payload point) then
    Entry.init (dict_get_default (default ∅ (Record_.payload point)) "document" (JStr ""))
      (dict_get (default ∅ (Record_.payload point)) key)
  else Ok (synthetic_entry point).

(** A provider that gives a vector for the first document only, and one that
    gives none. *)
Definition short_provider : EmbeddingProvider :=
  {| embed_documents := fun texts => take 1 (embed_documents length_provider texts);
     embed_query := embed_query length_provider;
     get_vector_name := "fast-all-minilm-l6-v2";
     get_vector_size := 1 |}.

Definition silent_provider : EmbeddingProvider :=
  {| embed_documents := fun _ => [];
     embed_query := embed_query length_provider;
     get_vector_name := "fast-all-minilm-l6-v2";
     get_vector_size := 1 |}.

Definition connector_of (provider : EmbeddingProvider) : QdrantConnector :=
  {| _default_collection_name := None;
     _embedding_provider := provider;
     _field_indexes := Some [("topic", KEYWORD)] |}.

(** A point with a vector and a payload that has a title and no document. *)
Definition untitled_point : PointStruct.t :=
  PointStruct.make (IdInt 3) {[ "fast-all-minilm-l6-v2" := [1%Q] ]}
    (Some {[ "title" := JStr "atlas" ]}).

(** Validators that take an integer for an integer and a string, or the
    value of an enumeration, for a string. *)
Definition int_only (v : PyVal) : option Z :=
  match v with
  | PyInt z => Some z
  | _ => None
  end.

Definition str_only (v : PyVal) : option string :=
  match v with
  | PyStr s => Some s
  | PyEnum _ value => Some value
  | _ => None
  end.

Definition no_str (v : PyVal) : string := "".

(** A client that answers [get_collection] with [info] and [delete_collection]
    with [False]. *)
Definition collection_answer (info : PyVal) (name : string) : M PyVal := ret info.

Definition deletion_answer (name : string) : M bool := ret false.

(** The answer for a collection with one named slot, and with a single
    unnamed configuration. *)
Definition vector_params : PyVal :=
  PyObject (<[ "distance" := PyEnum "COSINE" "Cosine" ]> {[ "size" := PyInt 384 ]}).

Definition info_with (vectors : PyVal) : PyVal :=
  PyObject
    (<[ "points_count" := PyInt 2 ]>
       (<[ "status" := PyEnum "GREEN" "green" ]>
          {[ "config" := PyObject {[ "params" := PyObject {[ "vectors" := vectors ]} ]} ]})).

Definition named_info : PyVal :=
  info_with (PyDict {[ "fast-all-minilm-l6-v2" := vector_params ]}).

Definition single_info : PyVal := info_with vector_params.

(** A host whose debug log does nothing, and a parser that knows two texts. *)
Definition no_debug (message : string) : M unit := ret tt.

Definition two_texts (text : string) : option Json :=
  if decide (text = "{}") then Some (JDict ∅)
  else if decide (text = "[]") then Some (JList [])
  else None.

Definition no_dumps (metadata : Metadata) : string := "{}".

Definition no_filter (query_filter : gmap string Json) : Result Filter :=
  Raise (ValidationError "filter").

Definition plain_settings (location : string) : QdrantSettings :=
  {| location := Some location; api_key := Some "secret"; collection_name := None;
     local_path := None; search_limit := 10 |}.

(** The number of ids [batch_store] generates for the entries before the
    position [i]: one for each entry whose id is missing or empty. *)
Fixpoint generated_before (i : nat) (entries : list BatchEntry.t) : nat :=
  match i, entries with
  | S i', entry :: entries' =>
      ((if truthy_str (BatchEntry.id entry) then 0 else 1)
       + generated_before i' entries')%nat
  | _, _ => O
  end.

(** Every run of [m] leaves the random bytes as they are and draws none. *)
Definition draws_nothing {A} (m : M A) : Prop :=
  forall w, drawn (snd (m w)) = drawn w /\ urandom (snd (m w)) = urandom w.

(** Every run of [m] either has all its calls answered, and then raises
    nothing but an exception of [own], or ends with the one call that
    raised, and raises the exception of that call. *)
Definition raises_last {A} (own : Exn -> Prop) (m : M A) : Prop :=
  forall w, exists evs,
    trace (snd (m w)) = trace w ++ evs
    /\ ((Forall (fun ev => raised ev = None) evs
         /\ forall x, fst (m w) = Raise x -> own x)
        \/ exists before ev x,
             evs = before ++ [ev] /\ raised ev = Some x
             /\ Forall (fun ev => raised ev = None) before
             /\ fst (m w) = Raise x).

(** * Properties *)

(** ** Runs and their events *)

Lemma since_app (w w' : World) (evs : list Event) :
  trace w' = trace w ++ evs -> since w w' = evs.
Proof. intros E. unfold since. rewrite E. apply drop_app_length. Qed.

Lemma since_log (w : World) (ev : Event) : since w (log ev w) = [ev].
Proof. now apply since_app. Qed.

(** A call the world lets through is answered. *)
Lemma await_answered {A} (c : Call) (answer : World -> Result A * gmap string Collection)
    (w : World) :
  fault w (length (trace w)) = None ->
  await c answer w =
    (fst (answer w),
     log {| call := c; raised := exn_of (fst (answer w)) |}
         (set_collections (snd (answer w)) w)).
Proof. intros F. unfold await. rewrite F. now destruct (answer w). Qed.

(** A call the world makes fail raises, and nothing is written. *)
Lemma await_failed {A} (c : Call) (answer : World -> Result A * gmap string Collection)
    (w : World) (msg : string) :
  fault w (length (trace w)) = Some msg ->
  await c answer w =
    (Raise (ServiceError msg), log {| call := c; raised := Some (ServiceError msg) |} w).
Proof. intros F. unfold await. now rewrite F. Qed.

(** Whatever the world does, an awaited call leaves exactly its own event. *)
Lemma await_event {A} (c : Call) (answer : World -> Result A * gmap string Collection)
    (w : World) :
  exists x, trace (snd (await c answer w)) = trace w ++ [{| call := c; raised := x |}]
            /\ x = exn_of (fst (await c answer w))
            /\ fault (snd (await c answer w)) = fault w.
Proof.
  unfold await. destruct (fault w (length (trace w))) as [msg|].
  - now exists (Some (ServiceError msg)).
  - destruct (answer w) as [r db]. now exists (exn_of r).
Qed.

(** Rewrites the next awaited call of the goal, in a world that answers. *)
Ltac answer_with Rel :=
  match goal with
  | |- context [await ?c ?a ?w] =>
      rewrite (await_answered c a w (Rel (length (trace w))))
  end.

(** ** The precondition on the collection name *)

(** [store], [batch_store] and [scroll_collection] assert a resolved name
    before anything else. *)
Lemma store_asserts_name (mp : string) (self : QdrantConnector) (entry : Entry.t)
    (collection_name : option string) (w : World) :
  py_or collection_name (_default_collection_name self) = None ->
  store mp self entry collection_name w = (Raise AssertionError, w).
Proof. intros E. unfold store. now rewrite E. Qed.

Lemma batch_store_asserts_name (mp : string) (self : QdrantConnector)
    (entries : list BatchEntry.t) (collection_name : option string) (w : World) :
  py_or collection_name (_default_collection_name self) = None ->
  batch_store mp self entries collection_name w = (Raise AssertionError, w).
Proof. intros E. unfold batch_store. now rewrite E. Qed.

Lemma scroll_collection_asserts_name (mp : string) (self : QdrantConnector)
    (collection_name : option string) (limit : Z) (offset : option PointId)
    (f : option Filter) (with_payload with_vectors : bool) (w : World) :
  py_or collection_name (_default_collection_name self) = None ->
  scroll_collection mp self collection_name limit offset f with_payload with_vectors w
  = (Raise AssertionError, w).
Proof. intros E. unfold scroll_collection. now rewrite E. Qed.

(** C2. With no collection name given and no default one, [search] and
    [hybrid_search] do not fail on an assertion before any call: each of them
    awaits [collection_exists(None)] of the client, and returns the empty
    list unless that call raises. *)
Theorem search_without_name_calls_client (mp : string) (provider : EmbeddingProvider)
    (indexes : option (list (string * PayloadSchemaType))) (query : string) (limit : Z)
    (f : option Filter) (min_score : option Q) (params : option (gmap string Json))
    (w : World) :
  let self := {| _default_collection_name := None; _embedding_provider := provider;
                 _field_indexes := indexes |} in
  (exists x,
     since w (snd (search self query None limit f w))
       = [{| call := CollectionExists None; raised := x |}]
     /\ (fst (search self query None limit f w) = Ok []
         \/ exists msg, fst (search self query None limit f w) = Raise (ServiceError msg)))
  /\
  (exists x,
     since w (snd (hybrid_search mp self query None limit f min_score params w))
       = [{| call := CollectionExists None; raised := x |}]
     /\ (fst (hybrid_search mp self query None limit f min_score params w) = Ok []
         \/ exists msg,
              fst (hybrid_search mp self query None limit f min_score params w)
              = Raise (ServiceError msg))).
Proof.
  intros self.
  unfold search, hybrid_search, client_collection_exists, bind; simpl.
  destruct (fault w (length (trace w))) as [msg|] eqn:F.
  - rewrite (await_failed _ _ _ msg F).
    split; exists (Some (ServiceError msg)); (split; [apply since_log | right; now exists msg]).
  - rewrite (await_answered _ _ _ F). simpl.
    split; exists None; (split; [apply since_log | now left]).
Qed.

(** ** Reads of a collection that does not exist *)

(** C4. When the resolved collection does not exist and the service answers
    the existence check, [search] and [hybrid_search] return the empty list
    and [scroll_collection] returns the empty list with no cursor; the
    existence check is the only call made. *)
Theorem reads_of_absent_collection_are_empty (mp : string) (self : QdrantConnector)
    (query : string) (collection_name : option string) (name : string) (limit : Z)
    (offset : option PointId) (f : option Filter) (min_score : option Q)
    (params : option (gmap string Json)) (with_payload with_vectors : bool) (w : World) :
  py_or collection_name (_default_collection_name self) = Some name ->
  collections w !! name = None ->
  fault w (length (trace w)) = None ->
  search self query collection_name limit f w
    = (Ok [], log (answered (CollectionExists (Some name))) w)
  /\ hybrid_search mp self query collection_name limit f min_score params w
    = (Ok [], log (answered (CollectionExists (Some name))) w)
  /\ scroll_collection mp self collection_name limit offset f with_payload with_vectors w
    = (Ok ([], None), log (answered (CollectionExists (Some name))) w).
Proof.
  intros R Abs F.
  unfold search, hybrid_search, scroll_collection, client_collection_exists, bind.
  rewrite R, (await_answered _ _ _ F). simpl. rewrite Abs. simpl.
  repeat split.
Qed.

(** ** Creation on demand *)

Lemma create_payload_index_loop (name : string) (items : list (string * PayloadSchemaType)) :
  forall (w : World) (c : Collection),
    reliable w ->
    collections w !! name = Some c ->
    exists w',
      for_each (fun '(field_name, field_type) =>
                  client_create_payload_index name field_name field_type) items w
        = (Ok tt, w')
      /\ fault w' = fault w
      /\ trace w' = trace w ++ map (fun item => answered (index_call name item)) items
      /\ collections w' !! name
         = Some {| vectors_config := vectors_config c;
                   payload_schema := payload_schema c ++ items;
                   points := points c |}.
Proof.
  induction items as [|[field_name field_type] items IH]; intros w c Rel Lk.
  - exists w. simpl. rewrite !app_nil_r. repeat split; trivial.
    rewrite Lk. now destruct c.
  - simpl. unfold bind at 1. unfold client_create_payload_index at 1.
    answer_with Rel. rewrite Lk. simpl.
    match goal with |- context [for_each _ items ?w1] => set (w1' := w1) end.
    destruct (IH w1' {| vectors_config := vectors_config c;
                        payload_schema := payload_schema c ++ [(field_name, field_type)];
                        points := points c |}) as (w' & E & Fw & Tw & Cw).
    + exact Rel.
    + subst w1'. simpl. apply lookup_insert_eq.
    + exists w'. rewrite E. repeat split.
      * exact Fw.
      * rewrite Tw. subst w1'. simpl. now rewrite <- app_assoc.
      * rewrite Cw. simpl. now rewrite <- app_assoc.
Qed.

Lemma create_payload_indexes_reliable (self : QdrantConnector) (name : string)
    (w : World) (c : Collection) :
  reliable w ->
  collections w !! name = Some c ->
  exists w',
    create_payload_indexes self name w = (Ok tt, w')
    /\ fault w' = fault w
    /\ trace w' = trace w ++ map (fun item => answered (index_call name item)) (indexes_of self)
    /\ collections w' !! name
       = Some {| vectors_config := vectors_config c;
                 payload_schema := payload_schema c ++ indexes_of self;
                 points := points c |}.
Proof.
  intros Rel Lk. unfold create_payload_indexes, indexes_of.
  destruct (_field_indexes self) as [[|item items]|]; simpl.
  - exact (create_payload_index_loop name [] w c Rel Lk).
  - exact (create_payload_index_loop name (item :: items) w c Rel Lk).
  - exact (create_payload_index_loop name [] w c Rel Lk).
Qed.

(** An absent collection is created, with the slot of the provider, and the
    configured indexes follow. *)
Lemma ensure_creates (self : QdrantConnector) (name : string) (w : World) :
  reliable w ->
  collections w !! name = None ->
  exists w',
    _ensure_collection_exists self name w = (Ok tt, w')
    /\ fault w' = fault w
    /\ trace w' = trace w
         ++ answered (CollectionExists (Some name))
         :: answered (CreateCollection name (default_config self))
         :: map (fun item => answered (index_call name item)) (indexes_of self)
    /\ collections w' !! name
       = Some {| vectors_config := default_config self;
                 payload_schema := indexes_of self;
                 points := [] |}.
Proof.
  intros Rel Abs. unfold _ensure_collection_exists, client_collection_exists, bind at 1.
  answer_with Rel. rewrite Abs. simpl.
  unfold bind at 1, client_create_collection.
  answer_with Rel. simpl. rewrite Abs. simpl.
  match goal with |- context [create_payload_indexes self name ?w1] => set (w1' := w1) end.
  destruct (create_payload_indexes_reliable self name w1'
              {| vectors_config := default_config self; payload_schema := [];
                 points := [] |}) as (w' & E & Fw & Tw & Cw).
  - exact Rel.
  - subst w1'. simpl. apply lookup_insert_eq.
  - exists w'. rewrite E. repeat split; trivial.
    rewrite Tw. subst w1'. simpl. rewrite <- !app_assoc. reflexivity.
Qed.

(** A collection that exists is left as it is. *)
Lemma ensure_keeps (self : QdrantConnector) (name : string) (w : World) (c : Collection) :
  fault w (length (trace w)) = None ->
  collections w !! name = Some c ->
  _ensure_collection_exists self name w
  = (Ok tt, log (answered (CollectionExists (Some name))) w).
Proof.
  intros F Lk. unfold _ensure_collection_exists, client_collection_exists, bind.
  rewrite (await_answered _ _ _ F). rewrite Lk. reflexivity.
Qed.

Lemma index_calls_are_not_creations (name : string) (items : list (string * PayloadSchemaType)) :
  List.filter is_create_collection (map (index_call name) items) = [].
Proof. induction items as [|item items IH]; simpl; trivial. Qed.

(** C5. On a service that answers, ensuring twice in a row a collection that
    did not exist creates it once: both calls return, the first run holds
    the one creation call, and the second run is the existence check alone. *)
Theorem ensure_twice_creates_once (self : QdrantConnector) (name : string) (w : World) :
  reliable w ->
  collections w !! name = None ->
  let first := _ensure_collection_exists self name w in
  let second := _ensure_collection_exists self name (snd first) in
  fst first = Ok tt
  /\ fst second = Ok tt
  /\ since (snd first) (snd second) = [answered (CollectionExists (Some name))]
  /\ List.filter is_create_collection (map call (since w (snd second)))
     = [CreateCollection name (default_config self)].
Proof.
  intros Rel Abs first second.
  destruct (ensure_creates self name w Rel Abs) as (w1 & E1 & F1 & T1 & C1).
  assert (E2 : second = (Ok tt, log (answered (CollectionExists (Some name))) w1)).
  { subst second first. rewrite E1. simpl.
    eapply ensure_keeps; [rewrite F1; apply Rel | exact C1]. }
  subst first. rewrite E1, E2. simpl. repeat split.
  - apply since_log.
  - erewrite since_app.
    2:{ simpl. rewrite T1. rewrite <- app_assoc. reflexivity. }
    simpl. rewrite map_app, !map_map. simpl.
    rewrite List.filter_app. simpl. rewrite app_nil_r.
    change (fun x : string * PayloadSchemaType => index_call name x) with (index_call name).
    now rewrite index_calls_are_not_creations.
Qed.

(** ** The calls of a computation *)

Section Emits.
Context (P : Call -> Prop).

Lemma emits_silent {A} (m : M A) :
  (forall w, trace (snd (m w)) = trace w) -> emits P m.
Proof. intros H w. exists []. rewrite app_nil_r. split; [apply H | constructor]. Qed.

Lemma emits_ret {A} (a : A) : emits P (ret a).
Proof. now apply emits_silent. Qed.

Lemma emits_raise {A} (e : Exn) : emits P (@raise A e).
Proof. now apply emits_silent. Qed.

Lemma emits_lift {A} (r : Result A) : emits P (lift r).
Proof. now apply emits_silent. Qed.

Lemma emits_uuid4 : emits P uuid4.
Proof. now apply emits_silent. Qed.

Lemma emits_await {A} (c : Call) (answer : World -> Result A * gmap string Collection) :
  P c -> emits P (await c answer).
Proof.
  intros Pc w. destruct (await_event c answer w) as (x & T & _).
  eexists. split; [exact T |]. now repeat constructor.
Qed.

Lemma emits_bind {A B} (m : M A) (k : A -> M B) :
  emits P m -> (forall a, emits P (k a)) -> emits P (bind m k).
Proof.
  intros Hm Hk w. unfold bind.
  destruct (Hm w) as (evs1 & T1 & F1). destruct (m w) as [[a|e] w1]; simpl in *.
  - destruct (Hk a w1) as (evs2 & T2 & F2). exists (evs1 ++ evs2).
    rewrite T2, T1, app_assoc. split; trivial. now apply Forall_app.
  - now exists evs1.
Qed.

Lemma emits_try_except {A} (m : M A) (h : Exn -> M A) :
  emits P m -> (forall e, emits P (h e)) -> emits P (try_except m h).
Proof.
  intros Hm Hh w. unfold try_except.
  destruct (Hm w) as (evs1 & T1 & F1). destruct (m w) as [[a|e] w1]; simpl in *.
  - now exists evs1.
  - destruct (Hh e w1) as (evs2 & T2 & F2). exists (evs1 ++ evs2).
    rewrite T2, T1, app_assoc. split; trivial. now apply Forall_app.
Qed.

Lemma emits_for_list {A B} (f : A -> M B) (l : list A) :
  (forall a, emits P (f a)) -> emits P (for_list f l).
Proof.
  intros Hf. induction l as [|a l IH]; simpl.
  - apply emits_ret.
  - apply emits_bind; [apply Hf | intros b].
    apply emits_bind; [apply IH | intros bs]. apply emits_ret.
Qed.

Lemma emits_for_each {A} (f : A -> M unit) (l : list A) :
  (forall a, emits P (f a)) -> emits P (for_each f l).
Proof.
  intros Hf. induction l as [|a l IH]; simpl.
  - apply emits_ret.
  - apply emits_bind; [apply Hf | intros _; apply IH].
Qed.
End Emits.

(** Goes through a computation made of the constructs above. *)
Ltac emits_steps :=
  repeat first
    [ apply emits_ret | apply emits_raise | apply emits_lift | apply emits_uuid4
    | apply emits_await; simpl; trivial
    | apply emits_bind; [| intros ?]
    | apply emits_try_except; [| intros ?]
    | apply emits_for_list; intros ?
    | apply emits_for_each; intros ?
    | match goal with
      | |- emits _ (if ?b then _ else _) => destruct b
      | |- emits _ (match ?x with _ => _ end) => destruct x
      | |- emits _ (let '(_, _) := ?x in _) => destruct x
      end ].

(** What [store] does once the collection is there sets nothing up. *)
Lemma store_point_emits (mp : string) (self : QdrantConnector) (entry : Entry.t)
    (name : string) :
  emits (fun c => is_setup c = false)
    (embeddings <- provider_embed_documents (_embedding_provider self)
                     [Entry.content entry] ;;
     point_id <- uuid4 ;;
     embedding <- lift (first_of embeddings) ;;
     client_upsert name
       [PointStruct.make (IdStr point_id)
          {[ get_vector_name (_embedding_provider self) := embedding ]}
          (Some (payload_of mp (Entry.content entry) (Entry.metadata entry)))]).
Proof. unfold provider_embed_documents, client_upsert. emits_steps. Qed.

Lemma batch_store_try_emits (mp : string) (self : QdrantConnector)
    (entries : list BatchEntry.t) (name : string) :
  emits (fun c => is_setup c = false)
    (try_except (batch_store_try mp self entries name) (fun _ => ret O)).
Proof.
  unfold batch_store_try, batch_point, provider_embed_documents, client_upsert.
  emits_steps.
Qed.

Lemma ensure_then {A} (self : QdrantConnector) (name : string) (k : M A) (w : World) :
  reliable w ->
  emits (fun c => is_setup c = false) k ->
  exists rest,
    map call (since w (snd ((_ensure_collection_exists self name ;;; k) w)))
    = CollectionExists (Some name) :: setup_calls self name w ++ rest
    /\ Forall (fun c => is_setup c = false) rest.
Proof.
  intros Rel Hk. unfold bind, setup_calls.
  destruct (collections w !! name) as [c|] eqn:Lk.
  - rewrite (ensure_keeps self name w c (Rel _) Lk).
    destruct (Hk (log (answered (CollectionExists (Some name))) w)) as (evs & T & F).
    exists (map call evs). split.
    + erewrite since_app by (rewrite T; simpl; rewrite <- app_assoc; reflexivity).
      reflexivity.
    + now apply Forall_map.
  - destruct (ensure_creates self name w Rel Lk) as (w1 & E & _ & T1 & _).
    rewrite E. destruct (Hk w1) as (evs & T & F).
    exists (map call evs). split.
    + erewrite since_app by (rewrite T, T1, <- app_assoc; reflexivity).
      simpl. rewrite map_app, map_map. reflexivity.
    + now apply Forall_map.
Qed.

(** C6. On a service that answers, a write to a collection that does not
    exist creates it with one vector slot, named and sized by the provider,
    with the cosine distance, and creates the configured indexes right after;
    a write to a collection that exists creates no collection and no index.
    Neither [store] nor [batch_store] makes any other such call. *)
Theorem write_sets_up_absent_collection_only (mp : string) (self : QdrantConnector)
    (entry : Entry.t) (entries : list BatchEntry.t) (collection_name : option string)
    (name : string) (w : World) :
  reliable w ->
  py_or collection_name (_default_collection_name self) = Some name ->
  default_config self
    = {[ get_vector_name (_embedding_provider self) :=
           VectorParams.make (get_vector_size (_embedding_provider self)) COSINE ]}
  /\ (exists rest,
        map call (since w (snd (store mp self entry collection_name w)))
        = CollectionExists (Some name) :: setup_calls self name w ++ rest
        /\ Forall (fun c => is_setup c = false) rest)
  /\ (exists rest,
        map call (since w (snd (batch_store mp self entries collection_name w)))
        = CollectionExists (Some name) :: setup_calls self name w ++ rest
        /\ Forall (fun c => is_setup c = false) rest).
Proof.
  intros Rel R. split; [reflexivity |]. unfold store, batch_store. rewrite R. split.
  - apply ensure_then; [exact Rel | apply store_point_emits].
  - apply ensure_then; [exact Rel | apply batch_store_try_emits].
Qed.

(** ** The distance of an administrative creation *)

Lemma distance_map_get (name : string) :
  default COSINE
    ((<["manhattan" := MANHATTAN]> (<["euclidean" := EUCLID]>
        (<["dot" := DOT]> (<["cosine" := COSINE]> (∅ : gmap string Distance))))) !! name)
  = if decide (name = "cosine") then COSINE
    else if decide (name = "dot") then DOT
    else if decide (name = "euclidean") then EUCLID
    else if decide (name = "manhattan") then MANHATTAN
    else COSINE.
Proof.
  destruct (decide (name = "cosine")) as [->|N0]; [reflexivity |].
  destruct (decide (name = "dot")) as [->|N1]; [reflexivity |].
  destruct (decide (name = "euclidean")) as [->|N2]; [reflexivity |].
  destruct (decide (name = "manhattan")) as [->|N3]; [reflexivity |].
  now rewrite !lookup_insert_ne by congruence.
Qed.

Lemma lower_lower (s : string) : lower (lower s) = lower s.
Proof.
  induction s as [|c s IH]; simpl; [reflexivity |]. rewrite IH. f_equal.
  unfold lower_char.
  destruct ((65 <=? N_of_ascii c) && (N_of_ascii c <=? 90))%N eqn:U; [| now rewrite U].
  apply andb_true_iff in U. destruct U as [L H].
  apply N.leb_le in L. apply N.leb_le in H.
  rewrite N_ascii_embedding by lia.
  replace ((65 <=? N_of_ascii c + 32) && (N_of_ascii c + 32 <=? 90))%N with false; trivial.
  symmetry. apply andb_false_iff. right. apply N.leb_gt. lia.
Qed.

(** C8. A creation that succeeds returns true and gives the collection the
    metric named by the distance string: the four names are read whatever
    their case, every other string gives the cosine metric. *)
Theorem create_collection_with_config_distance (self : QdrantConnector) (name : string)
    (vector_size : Z) (distance : string) (provider : option EmbeddingProvider)
    (w : World) :
  reliable w ->
  collections w !! name = None ->
  let slot := get_vector_name (default (_embedding_provider self) provider) in
  let config := {[ slot := VectorParams.make vector_size (named_distance distance) ]} in
  let run := create_collection_with_config self name vector_size distance provider w in
  fst run = Ok true
  /\ since w (snd run)
     = answered (CreateCollection name config)
       :: map (fun item => answered (index_call name item)) (indexes_of self)
  /\ collections (snd run) !! name
     = Some {| vectors_config := config; payload_schema := indexes_of self; points := [] |}
  /\ (lower distance = "cosine" -> named_distance distance = COSINE)
  /\ (lower distance = "dot" -> named_distance distance = DOT)
  /\ (lower distance = "euclidean" -> named_distance distance = EUCLID)
  /\ (lower distance = "manhattan" -> named_distance distance = MANHATTAN)
  /\ (lower distance <> "cosine" -> lower distance <> "dot" ->
      lower distance <> "euclidean" -> lower distance <> "manhattan" ->
      named_distance distance = COSINE).
Proof.
  intros Rel Abs slot config run.
  assert (Hrun : exists w',
             run = (Ok true, w')
             /\ trace w' = trace w ++ answered (CreateCollection name config)
                  :: map (fun item => answered (index_call name item)) (indexes_of self)
             /\ collections w' !! name
                = Some {| vectors_config := config; payload_schema := indexes_of self;
                          points := [] |}).
  { subst run. unfold create_collection_with_config, try_except, bind at 1.
    unfold client_create_collection. answer_with Rel. rewrite Abs. simpl.
    rewrite distance_map_get. fold (named_distance distance).
    replace (match provider with
             | Some p => get_vector_name p
             | None => get_vector_name (_embedding_provider self)
             end) with slot by (subst slot; now destruct provider).
    fold config. unfold bind.
    match goal with |- context [create_payload_indexes self name ?w1] => set (w1' := w1) end.
    destruct (create_payload_indexes_reliable self name w1'
                {| vectors_config := config; payload_schema := []; points := [] |})
      as (w' & E & _ & T & C).
    - exact Rel.
    - subst w1'. simpl. apply lookup_insert_eq.
    - exists w'. rewrite E. simpl. repeat split; trivial.
      rewrite T. subst w1'. simpl. now rewrite <- app_assoc. }
  destruct Hrun as (w' & E & T & C). rewrite E. simpl. repeat split; trivial.
  - now apply since_app.
  - intros L. unfold named_distance. now rewrite L.
  - intros L. unfold named_distance. now rewrite L.
  - intros L. unfold named_distance. now rewrite L.
  - intros L. unfold named_distance. now rewrite L.
  - intros N0 N1 N2 N3. unfold named_distance.
    repeat (destruct (decide _); [congruence |]). reflexivity.
Qed.

(** On a service that answers, [_ensure_collection_exists] returns, after
    the existence check and the calls that set an absent collection up, and
    the collection is there. *)
Lemma ensure_reliable (self : QdrantConnector) (name : string) (w : World) :
  reliable w ->
  exists wa ca,
    _ensure_collection_exists self name w = (Ok tt, wa)
    /\ fault wa = fault w
    /\ map call (since w wa) = CollectionExists (Some name) :: setup_calls self name w
    /\ collections wa !! name = Some ca
    /\ (collections w !! name = None ->
        ca = {| vectors_config := default_config self;
                payload_schema := indexes_of self; points := [] |})
    /\ (forall c, collections w !! name = Some c -> ca = c).
Proof.
  intros Rel. unfold setup_calls. destruct (collections w !! name) as [c|] eqn:Lk.
  - exists (log (answered (CollectionExists (Some name))) w), c.
    split; [exact (ensure_keeps self name w c (Rel _) Lk) |].
    repeat split; trivial.
    + now rewrite since_log.
    + discriminate.
    + now intros c' [= <-].
  - destruct (ensure_creates self name w Rel Lk) as (wa & E & Fa & Ta & Ca).
    exists wa. eexists. repeat split; eauto.
    + rewrite (since_app _ _ _ Ta). cbn [map]. now rewrite map_map.
    + discriminate.
Qed.

(** ** Batch store *)

Lemma uuid4_hex_not_empty (random : N) : uuid4_hex random <> "".
Proof. unfold uuid4_hex. change 32%nat with (S 31). simpl. discriminate. Qed.

Lemma uuid4_hex_length (random : N) : String.length (uuid4_hex random) = 32%nat.
Proof.
  unfold uuid4_hex. generalize (uuid4_int random) as n. generalize 32%nat as k.
  induction k as [|k IH]; intros n; simpl; [reflexivity | now rewrite IH].
Qed.

Lemma truthy_str_not_empty (s : option string) :
  truthy_str s = true -> default "" s <> "".
Proof. destruct s as [[|c s]|]; simpl; discriminate. Qed.

(** One turn of the loop of [batch_store] makes no call and does not raise:
    it builds a point, never under the empty string. *)
Lemma batch_point_run (mp slot : string) (entry : BatchEntry.t) (embedding : Vector)
    (w : World) :
  exists p w',
    batch_point mp slot (entry, embedding) w = (Ok p, w')
    /\ trace w' = trace w /\ fault w' = fault w /\ collections w' = collections w
    /\ PointStruct.id p <> IdStr "".
Proof.
  unfold batch_point, bind.
  destruct (truthy_str (BatchEntry.id entry)) eqn:Tr; simpl.
  - eexists _, w. split; [reflexivity |]. repeat split. simpl. intros [= H].
    now apply (truthy_str_not_empty _ Tr).
  - eexists _, (draw w). split; [reflexivity |]. repeat split.
    intros H. cbn [PointStruct.id] in H. injection H as H.
    exact (uuid4_hex_not_empty _ H).
Qed.

(** So does the whole loop, with one point for each pair. *)
Lemma batch_points_run (mp slot : string) (pairs : list (BatchEntry.t * Vector)) :
  forall w, exists pts w',
    for_list (batch_point mp slot) pairs w = (Ok pts, w')
    /\ trace w' = trace w /\ fault w' = fault w /\ collections w' = collections w
    /\ length pts = length pairs
    /\ Forall (fun p => PointStruct.id p <> IdStr "") pts.
Proof.
  induction pairs as [|[entry embedding] pairs IH]; intros w; cbn [for_list].
  - exists [], w. repeat split; constructor.
  - unfold bind at 1.
    destruct (batch_point_run mp slot entry embedding w) as (p & w1 & E1 & T1 & F1 & C1 & N1).
    rewrite E1. unfold bind at 1.
    destruct (IH w1) as (pts & w' & E & T & F & C & L & N).
    rewrite E. simpl. exists (p :: pts), w'. repeat split; simpl; try congruence.
    now constructor.
Qed.

(** The three ways the [try] block of [batch_store] can go: the embedding
    raises, the upsert raises, or both are answered. *)
Lemma batch_store_try_cases (mp : string) (self : QdrantConnector)
    (entries : list BatchEntry.t) (name : string) (w : World) :
  let documents := map BatchEntry.content entries in
  exists r w' evs,
    batch_store_try mp self entries name w = (r, w')
    /\ trace w' = trace w ++ evs
    /\ ((exists x,
           evs = [{| call := EmbedDocuments documents; raised := Some x |}]
           /\ r = Raise x)
        \/ (exists pts x,
              evs = [answered (EmbedDocuments documents);
                     {| call := Upsert name pts; raised := Some x |}]
              /\ r = Raise x
              /\ Forall (fun p => PointStruct.id p <> IdStr "") pts)
        \/ (exists pts,
              evs = [answered (EmbedDocuments documents); answered (Upsert name pts)]
              /\ r = Ok (length pts)
              /\ length pts
                 = length (zip entries
                             (embed_documents (_embedding_provider self) documents))
              /\ Forall (fun p => PointStruct.id p <> IdStr "") pts)).
Proof.
  intros documents.
  unfold batch_store_try, bind at 1, provider_embed_documents. fold documents.
  destruct (fault w (length (trace w))) as [msg|] eqn:F.
  { rewrite (await_failed _ _ _ msg F). eexists _, _, _.
    split; [reflexivity |]. split; [reflexivity |].
    left. now exists (ServiceError msg). }
  rewrite (await_answered _ _ _ F). cbn [fst snd exn_of]. unfold bind at 1.
  match goal with |- context [for_list _ ?ps ?w1] =>
    destruct (batch_points_run mp (get_vector_name (_embedding_provider self)) ps w1)
      as (pts & w2 & E & T & Fw & C & L & N)
  end.
  rewrite E. unfold bind at 1, client_upsert. cbn [trace log set_collections] in T.
  destruct (fault w2 (length (trace w2))) as [msg|] eqn:F2.
  { rewrite (await_failed _ _ _ msg F2). eexists _, _, _.
    split; [reflexivity |]. split.
    - cbn [trace log]. rewrite T, <- app_assoc. reflexivity.
    - right. left. now exists pts, (ServiceError msg). }
  rewrite (await_answered _ _ _ F2).
  destruct (collections w2 !! name) as [c|]; cbn [fst snd exn_of].
  - eexists _, _, _. split; [reflexivity |]. split.
    + cbn [trace log set_collections]. rewrite T, <- app_assoc. reflexivity.
    + right. right. now exists pts.
  - eexists _, _, _. split; [reflexivity |]. split.
    + cbn [trace log set_collections]. rewrite T, <- app_assoc. reflexivity.
    + right. left. now eexists pts, _.
Qed.

Lemma ensure_emits_no_write (self : QdrantConnector) (name : string) :
  emits (fun c => is_write c = false) (_ensure_collection_exists self name).
Proof.
  unfold _ensure_collection_exists, create_payload_indexes, client_collection_exists,
    client_create_collection, client_create_payload_index.
  emits_steps.
Qed.

(** Takes memberships in appended and explicit lists of events apart. *)
Ltac members :=
  repeat match goal with
    | H : _ ∈ _ ++ _ |- _ => apply elem_of_app in H; destruct H as [H|H]
    | H : _ ∈ _ :: _ |- _ => apply elem_of_cons in H; destruct H as [->|H]
    | H : _ ∈ [] |- _ => now apply elem_of_nil in H
    end.

(** The ways [batch_store] can go once the name is resolved: the events before
    the [try] block are not those of a write; either they end with an
    exception, which is raised, or the [try] block runs, and then the count
    is 0 as soon as the embedding or the upsert raises. *)
Lemma batch_store_cases (mp : string) (self : QdrantConnector)
    (entries : list BatchEntry.t) (collection_name : option string) (name : string)
    (w : World) :
  py_or collection_name (_default_collection_name self) = Some name ->
  let documents := map BatchEntry.content entries in
  exists r w' before evs,
    batch_store mp self entries collection_name w = (r, w')
    /\ trace w' = trace w ++ before ++ evs
    /\ Forall (fun ev => is_write (call ev) = false) before
    /\ ((exists x, r = Raise x /\ evs = [])
        \/ (exists x,
              r = Ok O
              /\ evs = [{| call := EmbedDocuments documents; raised := Some x |}])
        \/ (exists pts x,
              r = Ok O
              /\ evs = [answered (EmbedDocuments documents);
                        {| call := Upsert name pts; raised := Some x |}]
              /\ Forall (fun p => PointStruct.id p <> IdStr "") pts)
        \/ (exists pts,
              r = Ok (length pts)
              /\ evs = [answered (EmbedDocuments documents); answered (Upsert name pts)]
              /\ length pts
                 = length (zip entries
                             (embed_documents (_embedding_provider self) documents))
              /\ Forall (fun p => PointStruct.id p <> IdStr "") pts)).
Proof.
  intros R documents. unfold batch_store. rewrite R. unfold bind.
  destruct (ensure_emits_no_write self name w) as (before & T1 & F1).
  destruct (_ensure_collection_exists self name w) as [[[]|x] w1]; cbn [snd] in T1.
  - unfold try_except.
    destruct (batch_store_try_cases mp self entries name w1)
      as (r & w' & evs & E & T & Cases).
    rewrite E. fold documents in Cases.
    destruct Cases as [(x & -> & ->) | [(pts & x & -> & -> & N) | (pts & -> & -> & L & N)]].
    + eexists _, _, before, _. split; [reflexivity |].
      split; [cbn [ret snd trace]; now rewrite T, T1, <- app_assoc |].
      split; [exact F1 |]. right. left. now exists x.
    + eexists _, _, before, _. split; [reflexivity |].
      split; [cbn [ret snd trace]; now rewrite T, T1, <- app_assoc |].
      split; [exact F1 |]. right. right. left. now exists pts, x.
    + eexists _, _, before, _. split; [reflexivity |].
      split; [now rewrite T, T1, <- app_assoc |].
      split; [exact F1 |]. right. right. right. now exists pts.
  - eexists _, _, before, []. split; [reflexivity |].
    split; [now rewrite app_nil_r |]. split; [exact F1 |]. left. now exists x.
Qed.

(** C3. With a provider that gives one vector for each document,
    [batch_store] returns the number of entries when the embedding call and
    the upsert call are both answered, and returns 0, raising nothing, when
    one of them raises; it returns no other count. *)
Theorem batch_store_all_or_nothing (mp : string) (self : QdrantConnector)
    (entries : list BatchEntry.t) (collection_name : option string) (name : string)
    (w : World) :
  py_or collection_name (_default_collection_name self) = Some name ->
  length (embed_documents (_embedding_provider self) (map BatchEntry.content entries))
  = length entries ->
  let run := batch_store mp self entries collection_name w in
  let evs := since w (snd run) in
  (forall e u,
     e ∈ evs -> is_embed_documents (call e) = true -> raised e = None ->
     u ∈ evs -> is_upsert (call u) = true -> raised u = None ->
     fst run = Ok (length entries))
  /\ (forall ev,
        ev ∈ evs -> is_write (call ev) = true -> raised ev <> None ->
        fst run = Ok O)
  /\ (forall n, fst run = Ok n -> n = O \/ n = length entries).
Proof.
  intros R Len run evs.
  destruct (batch_store_cases mp self entries collection_name name w R)
    as (r & w' & before & rest & E & T & F & Cases).
  subst evs run. rewrite E. cbn [fst snd]. rewrite (since_app _ _ _ T).
  rewrite Forall_forall in F.
  assert (NW : forall ev, ev ∈ before -> is_embed_documents (call ev) = true -> False).
  { intros ev I H. specialize (F ev I). unfold is_write in F. rewrite H in F. discriminate. }
  assert (NU : forall ev, ev ∈ before -> is_upsert (call ev) = true -> False).
  { intros ev I H. specialize (F ev I). unfold is_write in F. rewrite H in F.
    now rewrite orb_true_r in F. }
  assert (NB : forall ev, ev ∈ before -> is_write (call ev) = true -> False).
  { intros ev I H. specialize (F ev I). congruence. }
  destruct Cases as [(x & -> & ->) | [(x & -> & ->) | [(pts & x & -> & -> & N)
                    | (pts & -> & -> & L & N)]]].
  - repeat split.
    + intros e u Ie He Re Iu Hu Ru. members. now destruct (NW e Ie).
    + intros ev I H Rv. members. now destruct (NB ev I).
    + discriminate.
  - repeat split.
    + intros e u Ie He Re Iu Hu Ru. members; try (now destruct (NW e Ie));
        try (now destruct (NU u Iu)); try discriminate.
    + intros n [= <-]. now left.
  - repeat split.
    + intros e u Ie He Re Iu Hu Ru. members; try (now destruct (NW e Ie));
        try (now destruct (NU u Iu)); try discriminate.
    + intros n [= <-]. now left.
  - rewrite length_zip, Len, Nat.min_id in L. rewrite L. repeat split.
    + intros ev I H Rv. members; try (now destruct (NB ev I)); now destruct Rv.
    + intros n [= <-]. now right.
Qed.

Lemma batch_point_without_empty_id (mp slot : string) (entry : BatchEntry.t)
    (embedding : Vector) :
  batch_point mp slot (without_empty_id entry, embedding)
  = batch_point mp slot (entry, embedding).
Proof. now destruct entry as [content metadata [[|c s]|]]. Qed.

Lemma batch_points_without_empty_id (mp slot : string) (entries : list BatchEntry.t) :
  forall embeddings : list Vector,
    for_list (batch_point mp slot) (zip (map without_empty_id entries) embeddings)
    = for_list (batch_point mp slot) (zip entries embeddings).
Proof.
  induction entries as [|entry entries IH]; intros [|embedding embeddings];
    cbn [map zip_with for_list]; trivial.
  now rewrite IH, batch_point_without_empty_id.
Qed.

Lemma contents_without_empty_id (entries : list BatchEntry.t) :
  map BatchEntry.content (map without_empty_id entries) = map BatchEntry.content entries.
Proof.
  rewrite map_map. apply map_ext. now intros [content metadata [[|c s]|]].
Qed.

Lemma bind_ext {A B} (m : M A) (k k' : A -> M B) (w : World) :
  (forall a w', k a w' = k' a w') -> bind m k w = bind m k' w.
Proof. intros H. unfold bind. destruct (m w) as [[a|x] w']; trivial. Qed.

Lemma batch_store_try_without_empty_id (mp : string) (self : QdrantConnector)
    (entries : list BatchEntry.t) (name : string) (w : World) :
  batch_store_try mp self (map without_empty_id entries) name w
  = batch_store_try mp self entries name w.
Proof.
  unfold batch_store_try. rewrite contents_without_empty_id.
  apply bind_ext. intros embeddings w'. now rewrite batch_points_without_empty_id.
Qed.

(** The set-up of a collection draws no random bytes. *)
Lemma draws_nothing_ret {A} (a : A) : draws_nothing (ret a).
Proof. now intros w. Qed.

Lemma draws_nothing_await {A} (c : Call)
    (answer : World -> Result A * gmap string Collection) :
  draws_nothing (await c answer).
Proof.
  intros w. unfold await. destruct (fault w (length (trace w))); [now split |].
  now destruct (answer w).
Qed.

Lemma draws_nothing_bind {A B} (m : M A) (k : A -> M B) :
  draws_nothing m -> (forall a, draws_nothing (k a)) -> draws_nothing (bind m k).
Proof.
  intros Hm Hk w. unfold bind. destruct (Hm w) as [D U].
  destruct (m w) as [[a|e] w1]; cbn [snd] in *; [| now split].
  destruct (Hk a w1) as [D2 U2]. split; congruence.
Qed.

Lemma draws_nothing_for_each {A} (f : A -> M unit) (l : list A) :
  (forall a, draws_nothing (f a)) -> draws_nothing (for_each f l).
Proof.
  intros Hf. induction l as [|a l IH]; cbn [for_each].
  - apply draws_nothing_ret.
  - apply draws_nothing_bind; [apply Hf | intros _; apply IH].
Qed.

Lemma ensure_draws_nothing (self : QdrantConnector) (name : string) :
  draws_nothing (_ensure_collection_exists self name).
Proof.
  unfold _ensure_collection_exists, create_payload_indexes, client_collection_exists,
    client_create_collection, client_create_payload_index.
  apply draws_nothing_bind; [apply draws_nothing_await | intros b].
  destruct (negb b); [| apply draws_nothing_ret].
  apply draws_nothing_bind; [apply draws_nothing_await | intros _].
  destruct (_field_indexes self) as [[|item items]|]; try apply draws_nothing_ret.
  apply draws_nothing_for_each. intros [field_name field_type].
  apply draws_nothing_await.
Qed.

(** The point the loop of [batch_store] builds for an entry without an id, or
    with the empty one: its id is the [uuid4] of the next draw, after the
    draws for the entries before it. *)
Lemma generated_ids_of_batch (mp slot : string) :
  forall (entries : list BatchEntry.t) (embeddings : list Vector) (w : World)
         (pts : list PointStruct.t) (i : nat) (entry : BatchEntry.t) (embedding : Vector),
    fst (for_list (batch_point mp slot) (zip entries embeddings) w) = Ok pts ->
    entries !! i = Some entry ->
    embeddings !! i = Some embedding ->
    truthy_str (BatchEntry.id entry) = false ->
    pts !! i
    = Some (PointStruct.make
              (IdStr (uuid4_hex (urandom w (drawn w + generated_before i entries))))
              {[ slot := embedding ]}
              (Some (payload_of mp (BatchEntry.content entry)
                       (BatchEntry.metadata entry)))).
Proof.
  induction entries as [|e entries IH];
    intros [|v embeddings] w pts i entry embedding E Le Lv Tr;
    try (now destruct i).
  cbn [zip_with for_list] in E. unfold bind at 1 in E.
  destruct i as [|i]; cbn in Le, Lv.
  - injection Le as ->. injection Lv as ->.
    unfold batch_point at 1 in E. rewrite Tr in E.
    unfold bind at 1, uuid4 in E. cbn [ret] in E. unfold bind at 1 in E.
    destruct (for_list _ _ _) as [[rest|x] w2]; cbn [fst ret] in E; [| discriminate].
    injection E as <-. cbn [generated_before]. now rewrite Nat.add_0_r.
  - unfold batch_point at 1 in E.
    destruct (truthy_str (BatchEntry.id e)) eqn:Te;
      unfold bind at 1, uuid4 in E; cbn [ret] in E; unfold bind at 1 in E;
      match type of E with context [for_list ?f ?ps ?w1] =>
        destruct (for_list f ps w1) as [[rest|x] w2] eqn:E2
      end; cbn [fst ret] in E; try discriminate; injection E as <-;
      cbn [generated_before]; rewrite Te.
    + apply (IH embeddings w rest i entry embedding); trivial. now rewrite E2.
    + pose proof (IH embeddings (draw w) rest i entry embedding
                    ltac:(now rewrite E2) Le Lv Tr) as H.
      cbn [drawn urandom draw] in H. rewrite Nat.add_succ_l, <- Nat.add_succ_r in H.
      exact H.
Qed.

(** Each entry without an id has a draw of its own. *)
Lemma generated_before_increases :
  forall (entries : list BatchEntry.t) (i j : nat) (entry : BatchEntry.t),
    (i < j)%nat ->
    entries !! i = Some entry ->
    truthy_str (BatchEntry.id entry) = false ->
    (generated_before i entries < generated_before j entries)%nat.
Proof.
  induction entries as [|e entries IH]; intros i j entry Lt Le Tr; [now destruct i |].
  destruct j as [|j]; [lia |]. destruct i as [|i]; cbn in Le.
  - injection Le as ->. cbn [generated_before]. rewrite Tr. lia.
  - cbn [generated_before]. specialize (IH i j entry ltac:(lia) Le Tr). lia.
Qed.

(** An upsert of the [try] block of [batch_store] sends the points of its
    loop, to the collection of the call. *)
Lemma batch_store_try_upsert (mp : string) (self : QdrantConnector)
    (entries : list BatchEntry.t) (name : string) (w : World) (ev : Event)
    (sent_to : string) (pts : list PointStruct.t) :
  ev ∈ since w (snd (batch_store_try mp self entries name w)) ->
  call ev = Upsert sent_to pts ->
  sent_to = name
  /\ fst (for_list (batch_point mp (get_vector_name (_embedding_provider self)))
            (zip entries
               (embed_documents (_embedding_provider self)
                  (map BatchEntry.content entries)))
            (log (answered (EmbedDocuments (map BatchEntry.content entries))) w))
     = Ok pts.
Proof.
  unfold batch_store_try, bind at 1, provider_embed_documents.
  destruct (fault w (length (trace w))) as [msg|] eqn:F.
  { rewrite (await_failed _ _ _ msg F). cbn [snd]. rewrite since_log.
    intros I C. members. discriminate. }
  rewrite (await_answered _ _ _ F). cbn [fst snd exn_of]. unfold bind at 1.
  match goal with |- context [for_list ?f ?ps ?w1] =>
    destruct (batch_points_run mp (get_vector_name (_embedding_provider self)) ps w1)
      as (pts' & w2 & E & T & _)
  end.
  rewrite E. unfold bind at 1, client_upsert.
  match goal with |- context [await ?c ?a w2] =>
    destruct (await_event c a w2) as (x & Tu & _);
    destruct (await c a w2) as [[u|x'] w3]
  end; cbn [snd ret] in *; cbn [trace log set_collections] in T;
    rewrite (since_app w w3 [answered (EmbedDocuments (map BatchEntry.content entries));
                              {| call := Upsert name pts'; raised := x |}])
      by (rewrite Tu, T, <- app_assoc; reflexivity);
    intros I C; members; try discriminate;
    cbn [call] in C; injection C as <- <-; (split; [reflexivity |]);
    exact (f_equal fst E).
Qed.

(** So does every upsert of [batch_store], and the loop starts from the
    random bytes [batch_store] started from. *)
Lemma batch_store_upsert (mp : string) (self : QdrantConnector)
    (entries : list BatchEntry.t) (collection_name : option string) (w : World)
    (ev : Event) (sent_to : string) (pts : list PointStruct.t) :
  ev ∈ since w (snd (batch_store mp self entries collection_name w)) ->
  call ev = Upsert sent_to pts ->
  exists w1,
    drawn w1 = drawn w /\ urandom w1 = urandom w
    /\ fst (for_list (batch_point mp (get_vector_name (_embedding_provider self)))
              (zip entries
                 (embed_documents (_embedding_provider self)
                    (map BatchEntry.content entries)))
              w1)
       = Ok pts.
Proof.
  intros I C. unfold batch_store in I.
  destruct (py_or collection_name (_default_collection_name self)) as [name|].
  2:{ unfold since in I. cbn [snd raise] in I. rewrite drop_all in I.
      now apply elem_of_nil in I. }
  unfold bind in I.
  destruct (ensure_emits_no_write self name w) as (before & T1 & F1).
  destruct (ensure_draws_nothing self name w) as [D U].
  rewrite Forall_forall in F1.
  assert (NB : ev ∈ before -> False).
  { intros I'. specialize (F1 ev I'). rewrite C in F1. discriminate. }
  destruct (_ensure_collection_exists self name w) as [[[]|x] w1]; cbn [snd] in *.
  - unfold try_except in I.
    destruct (batch_store_try_cases mp self entries name w1)
      as (r & w' & evs & E & T & _).
    assert (S2 : since w1 (snd (batch_store_try mp self entries name w1)) = evs)
      by (rewrite E; now apply since_app).
    rewrite E in I.
    assert (I2 : ev ∈ before ++ evs).
    { destruct r; cbn [snd ret] in I;
        rewrite (since_app w w' (before ++ evs)) in I; trivial;
        now rewrite T, T1, <- app_assoc. }
    apply elem_of_app in I2 as [I2|I2]; [now destruct NB |].
    rewrite <- S2 in I2.
    destruct (batch_store_try_upsert mp self entries name w1 ev sent_to pts I2 C)
      as [_ P].
    eexists. split; [| split; [| exact P]]; cbn [drawn urandom log]; trivial.
  - rewrite (since_app _ _ _ T1) in I. now destruct NB.
Qed.

(** On a service that answers, [batch_store] ends with the embedding call
    and the upsert, both answered, and counts the points of the upsert. *)
Lemma batch_store_reliable (mp : string) (self : QdrantConnector)
    (entries : list BatchEntry.t) (collection_name : option string) (name : string)
    (w : World) :
  reliable w ->
  py_or collection_name (_default_collection_name self) = Some name ->
  exists before pts,
    since w (snd (batch_store mp self entries collection_name w))
    = before ++ [answered (EmbedDocuments (map BatchEntry.content entries));
                 answered (Upsert name pts)]
    /\ fst (batch_store mp self entries collection_name w) = Ok (length pts).
Proof.
  intros Rel R.
  destruct (ensure_emits_no_write self name w) as (before & T1 & _).
  destruct (ensure_reliable self name w Rel) as (wa & ca & E & Fa & _ & Ca & _).
  rewrite E in T1. cbn [snd] in T1.
  assert (Rela : reliable wa) by (intros n; rewrite Fa; apply Rel).
  assert (Run : exists pts w',
             batch_store mp self entries collection_name w = (Ok (length pts), w')
             /\ trace w'
                = trace w ++ before
                  ++ [answered (EmbedDocuments (map BatchEntry.content entries));
                      answered (Upsert name pts)]).
  { unfold batch_store. rewrite R. unfold bind at 1. rewrite E.
    unfold try_except, batch_store_try.
    unfold bind at 1, provider_embed_documents. answer_with Rela. cbn [fst snd exn_of].
    unfold bind at 1.
    match goal with |- context [for_list ?f ?ps ?wb] =>
      destruct (batch_points_run mp (get_vector_name (_embedding_provider self)) ps wb)
        as (pts & wc & Ep & Tp & Fp & Cp & _)
    end.
    rewrite Ep. unfold bind at 1, client_upsert.
    assert (Relc : reliable wc) by (intros n; rewrite Fp; apply Rela).
    answer_with Relc. rewrite Cp. cbn [collections log set_collections].
    rewrite Ca. cbn [fst snd exn_of ret].
    eexists pts, _. split; [reflexivity |].
    cbn [trace log set_collections] in *. rewrite Tp, T1, <- !app_assoc. reflexivity. }
  destruct Run as (pts & w' & Run & T). exists before, pts. rewrite Run. cbn [fst snd].
  split; [| reflexivity]. now apply since_app.
Qed.

(** C10. An entry of a batch whose id is the empty string is stored as the
    same entry without an id.  [batch_store] on the entries with the empty
    ids taken away is the same run; the loop gives such an entry the next
    [uuid4] as its id; no point of an upsert of [batch_store] has the empty
    string as its id; in every upsert of [batch_store] the point of such an
    entry has the [uuid4] of a draw not made before, the draw after those
    for the entries before it; on a service that answers that upsert is
    made and answered; and two such entries get different draws. *)
Theorem batch_store_empty_id_is_no_id (mp : string) (self : QdrantConnector)
    (entries : list BatchEntry.t) (collection_name : option string) (w : World) :
  let run := batch_store mp self entries collection_name w in
  let documents := map BatchEntry.content entries in
  let embeddings := embed_documents (_embedding_provider self) documents in
  batch_store mp self (map without_empty_id entries) collection_name w = run
  /\ (forall slot entry embedding,
        BatchEntry.id entry = Some "" \/ BatchEntry.id entry = None ->
        batch_point mp slot (entry, embedding) w
        = (Ok (PointStruct.make (IdStr (uuid4_hex (urandom w (drawn w))))
                 {[ slot := embedding ]}
                 (Some (payload_of mp (BatchEntry.content entry)
                          (BatchEntry.metadata entry)))),
           draw w))
  /\ (forall ev name pts p,
        ev ∈ since w (snd run) ->
        call ev = Upsert name pts -> p ∈ pts -> PointStruct.id p <> IdStr "")
  /\ (forall ev name pts i entry embedding,
        ev ∈ since w (snd run) ->
        call ev = Upsert name pts ->
        entries !! i = Some entry ->
        embeddings !! i = Some embedding ->
        BatchEntry.id entry = Some "" \/ BatchEntry.id entry = None ->
        pts !! i
        = Some (PointStruct.make
                  (IdStr (uuid4_hex (urandom w (drawn w + generated_before i entries))))
                  {[ get_vector_name (_embedding_provider self) := embedding ]}
                  (Some (payload_of mp (BatchEntry.content entry)
                           (BatchEntry.metadata entry)))))
  /\ (forall name,
        reliable w ->
        py_or collection_name (_default_collection_name self) = Some name ->
        exists before pts,
          since w (snd run)
          = before ++ [answered (EmbedDocuments documents); answered (Upsert name pts)]
          /\ fst run = Ok (length pts))
  /\ (forall i j entry,
        (i < j)%nat ->
        entries !! i = Some entry ->
        BatchEntry.id entry = Some "" \/ BatchEntry.id entry = None ->
        (generated_before i entries < generated_before j entries)%nat).
Proof.
  intros run documents embeddings. subst run documents embeddings.
  assert (Falsy : forall entry,
             BatchEntry.id entry = Some "" \/ BatchEntry.id entry = None ->
             truthy_str (BatchEntry.id entry) = false)
    by (intros entry [E|E]; now rewrite E).
  split; [| split; [| split; [| split; [| split]]]].
  - unfold batch_store.
    destruct (py_or collection_name (_default_collection_name self)) as [name|]; trivial.
    unfold bind. destruct (_ensure_collection_exists self name w) as [[[]|x] w1]; trivial.
    unfold try_except. now rewrite batch_store_try_without_empty_id.
  - intros slot entry embedding [E|E]; unfold batch_point, bind; now rewrite E.
  - intros ev name pts p I C Ip.
    destruct (py_or collection_name (_default_collection_name self)) as [resolved|] eqn:R.
    + destruct (batch_store_cases mp self entries collection_name resolved w R)
        as (r & w' & before & rest & E & T & F & Cases).
      rewrite E in I. cbn [snd] in I. rewrite (since_app _ _ _ T) in I.
      rewrite Forall_forall in F.
      assert (NB : forall ev, ev ∈ before -> is_upsert (call ev) = true -> False).
      { intros ev' I' H. specialize (F ev' I'). unfold is_write in F. rewrite H in F.
        now rewrite orb_true_r in F. }
      assert (U : is_upsert (call ev) = true) by now rewrite C.
      destruct Cases as [(x & -> & ->) | [(x & -> & ->) | [(pts' & x & -> & -> & N)
                        | (pts' & -> & -> & L & N)]]];
        members; try (now destruct (NB ev I)); try discriminate;
        cbn [call answered] in C; injection C as -> ->;
        rewrite Forall_forall in N; now apply N.
    + rewrite (batch_store_asserts_name mp self entries collection_name w R) in I.
      unfold since in I. cbn [snd] in I. rewrite drop_all in I. now apply elem_of_nil in I.
  - intros ev name pts i entry embedding I C Le Lv Id.
    destruct (batch_store_upsert mp self entries collection_name w ev name pts I C)
      as (w1 & D & U & P).
    rewrite (generated_ids_of_batch mp _ entries _ w1 pts i entry embedding P Le Lv
               (Falsy entry Id)).
    now rewrite D, U.
  - intros name Rel R.
    exact (batch_store_reliable mp self entries collection_name name w Rel R).
  - intros i j entry Lt Le Id.
    exact (generated_before_increases entries i j entry Lt Le (Falsy entry Id)).
Qed.

(** ** Exceptions of a single store *)

Lemma propagates_silent {A} (m : M A) :
  (forall w, trace (snd (m w)) = trace w) -> propagates m.
Proof.
  intros H w. exists []. rewrite app_nil_r. split; [apply H |].
  intros ev x I. now apply elem_of_nil in I.
Qed.

Lemma propagates_await {A} (c : Call) (answer : World -> Result A * gmap string Collection) :
  propagates (await c answer).
Proof.
  intros w. destruct (await_event c answer w) as (x & T & X & _).
  eexists. split; [exact T |]. intros ev e I Re. members. cbn [raised] in Re.
  rewrite Re in X. destruct (fst (await c answer w)); now inversion X.
Qed.

Lemma propagates_bind {A B} (m : M A) (k : A -> M B) :
  propagates m -> (forall a, propagates (k a)) -> propagates (bind m k).
Proof.
  intros Hm Hk w. unfold bind.
  destruct (Hm w) as (evs1 & T1 & P1). destruct (m w) as [[a|e] w1]; cbn [fst snd] in *.
  - destruct (Hk a w1) as (evs2 & T2 & P2). exists (evs1 ++ evs2).
    rewrite T2, T1, app_assoc. split; trivial.
    intros ev x I Re. members; [| now apply (P2 ev)].
    specialize (P1 ev x I Re). discriminate.
  - exists evs1. split; trivial. intros ev x I Re.
    specialize (P1 ev x I Re). now injection P1 as ->.
Qed.

Lemma propagates_for_each {A} (f : A -> M unit) (l : list A) :
  (forall a, propagates (f a)) -> propagates (for_each f l).
Proof.
  intros Hf. induction l as [|a l IH]; cbn [for_each].
  - now apply propagates_silent.
  - apply propagates_bind; [apply Hf | intros _; apply IH].
Qed.

Ltac propagates_steps :=
  repeat first
    [ apply propagates_await
    | apply propagates_bind; [| intros ?]
    | apply propagates_for_each; intros ?
    | apply propagates_silent; reflexivity
    | match goal with
      | |- propagates (if ?b then _ else _) => destruct b
      | |- propagates (match ?x with _ => _ end) => destruct x
      | |- propagates (let '(_, _) := ?x in _) => destruct x
      end ].

Lemma store_propagates (mp : string) (self : QdrantConnector) (entry : Entry.t)
    (collection_name : option string) :
  propagates (store mp self entry collection_name).
Proof.
  unfold store, _ensure_collection_exists, create_payload_indexes,
    client_collection_exists, client_create_collection, client_create_payload_index,
    provider_embed_documents, client_upsert.
  propagates_steps.
Qed.

(** C7. Whatever a call of the provider or of the client raises during
    [store] is what [store] raises, and [store] returns only when every call
    it made was answered. *)
Theorem store_raises_what_its_calls_raise (mp : string) (self : QdrantConnector)
    (entry : Entry.t) (collection_name : option string) (w : World) :
  let run := store mp self entry collection_name w in
  (forall ev x, ev ∈ since w (snd run) -> raised ev = Some x -> fst run = Raise x)
  /\ (fst run = Ok tt -> Forall (fun ev => raised ev = None) (since w (snd run))).
Proof.
  intros run. subst run.
  destruct (store_propagates mp self entry collection_name w) as (evs & T & P).
  rewrite (since_app _ _ _ T). split; [exact P |].
  intros E. apply Forall_forall. intros ev I.
  destruct (raised ev) as [x|] eqn:Re; trivial.
  specialize (P ev x I Re). congruence.
Qed.

(** ** Points without a payload in a scroll *)

Lemma scroll_entry_run (mp : string) (with_payload : bool) (point : Record_.t) (w : World) :
  entry_typed mp (Record_.payload point) = true ->
  exists entry,
    scroll_entry mp with_payload point w = (Ok entry, w)
    /\ (with_payload && truthy_dict (Record_.payload point) = false ->
        entry = synthetic_entry point).
Proof.
  intros Ty. unfold scroll_entry.
  destruct (with_payload && truthy_dict (Record_.payload point)) eqn:B.
  - destruct (Record_.payload point) as [d|];
      [| now rewrite andb_false_r in B].
    unfold entry_typed in Ty. apply andb_true_iff in Ty as [Td Tm].
    unfold dict_get_default, dict_get, lift. cbn [default from_option id].
    destruct (d !! "document") as [[]|]; try discriminate;
      destruct (d !! mp) as [[]|]; try discriminate;
      cbn [default from_option id Entry.init];
      eexists; (split; [reflexivity | discriminate]).
  - eexists. split; [reflexivity | reflexivity].
Qed.

Lemma scroll_entries_run (mp : string) (with_payload : bool) (page : list Record_.t)
    (w : World) :
  Forall (fun point => entry_typed mp (Record_.payload point) = true) page ->
  exists entries,
    for_list (scroll_entry mp with_payload) page w = (Ok entries, w)
    /\ length entries = length page
    /\ forall i point,
         page !! i = Some point ->
         with_payload && truthy_dict (Record_.payload point) = false ->
         entries !! i = Some (synthetic_entry point).
Proof.
  induction 1 as [|point page Ty _ IH]; cbn [for_list].
  - exists []. repeat split. intros i point H. now rewrite lookup_nil in H.
  - destruct (scroll_entry_run mp with_payload point w Ty) as (entry & E & S).
    destruct IH as (entries & Es & L & Syn).
    unfold bind. rewrite E, Es. exists (entry :: entries).
    split; [reflexivity |]. split; [simpl; now rewrite L |].
    intros [|i] p H B.
    + injection H as <-. simpl. now rewrite (S B).
    + simpl. now apply Syn.
Qed.

(** C9, as the code has it.  On a service that answers, when every payload
    of the page is one an [Entry] can be made of, [scroll_collection]
    returns one entry for each point of the page, in order, and the cursor
    of the service; a point whose payload is not read, or is missing or
    empty, gives the entry that names its id. *)
Theorem scroll_keeps_points_of_typed_page (mp : string) (self : QdrantConnector)
    (collection_name : option string) (name : string) (limit : Z)
    (offset : option PointId) (f : option Filter) (with_payload with_vectors : bool)
    (w : World) (page : list Record_.t) (next : option PointId) :
  reliable w ->
  py_or collection_name (_default_collection_name self) = Some name ->
  scroll_answer w name limit offset f with_payload with_vectors = Ok (page, next) ->
  Forall (fun point => entry_typed mp (Record_.payload point) = true) page ->
  exists entries,
    fst (scroll_collection mp self collection_name limit offset f
           with_payload with_vectors w)
    = Ok (entries, next)
    /\ length entries = length page
    /\ forall i point,
         page !! i = Some point ->
         with_payload && truthy_dict (Record_.payload point) = false ->
         entries !! i = Some (synthetic_entry point).
Proof.
  intros Rel R Ans Ty.
  unfold scroll_collection. rewrite R. unfold bind at 1, client_collection_exists.
  answer_with Rel.
  assert (Lk : exists c, collections w !! name = Some c).
  { unfold scroll_answer in Ans. destruct (collections w !! name) as [c|]; [eauto | discriminate]. }
  destruct Lk as (c & Lk). rewrite Lk. cbn [fst snd negb exn_of].
  unfold try_except, scroll_collection_try, bind at 1, client_scroll.
  answer_with Rel.
  match goal with |- context [scroll_answer ?w1 _ _ _ _ _ _] =>
    change (scroll_answer w1 name limit offset f with_payload with_vectors)
      with (scroll_answer w name limit offset f with_payload with_vectors)
  end.
  rewrite Ans. cbn [fst snd exn_of]. unfold bind at 1.
  match goal with |- context [for_list _ page ?w2] =>
    destruct (scroll_entries_run mp with_payload page w2 Ty) as (entries & E & L & Syn)
  end.
  rewrite E. exists entries. repeat split; trivial.
Qed.

(** ** Store, then search *)

(** What reading a stored payload back under the key [key] gives: the
    content, and the metadata when [key] is the key it was written under. *)
Lemma entry_of_stored_payload (mp key content : string) (metadata : option Metadata) :
  mp <> "document" ->
  key <> "document" ->
  entry_of_payload key (Some (payload_of mp content metadata))
  = Ok (Entry.make content (if decide (key = mp) then metadata else None)).
Proof.
  intros N Nd. unfold entry_of_payload, payload_of, dict_get.
  rewrite lookup_insert_ne by exact N. rewrite lookup_insert_eq.
  destruct (decide (key = mp)) as [->|Nk].
  - rewrite lookup_insert_eq. now destruct metadata.
  - rewrite lookup_insert_ne by congruence.
    now rewrite lookup_insert_ne, lookup_empty by congruence.
Qed.

(** [search] reads the literal key ["metadata"], [hybrid_search] reads
    [METADATA_PATH]: were the constant another key, [search] would lose the
    metadata that [hybrid_search] still finds. *)
Lemma metadata_read_under_other_key (mp content : string) (metadata : option Metadata) :
  mp <> "document" ->
  mp <> "metadata" ->
  entry_of_payload "metadata" (Some (payload_of mp content metadata))
  = Ok (Entry.make content None)
  /\ entry_of_payload mp (Some (payload_of mp content metadata))
     = Ok (Entry.make content metadata).
Proof.
  intros Nd Nm. split.
  - rewrite entry_of_stored_payload by (trivial; discriminate).
    now rewrite decide_False by congruence.
  - rewrite entry_of_stored_payload by trivial.
    now rewrite decide_True by reflexivity.
Qed.

Lemma for_list_lift {A B} (g : A -> Result B) (l : list A) :
  forall (w w' : World) (ys : list B),
    for_list (fun a => lift (g a)) l w = (Ok ys, w') ->
    w' = w /\ Forall2 (fun a y => g a = Ok y) l ys.
Proof.
  induction l as [|a l IH]; intros w w' ys; cbn [for_list].
  - intros [= <- <-]. split; [reflexivity | constructor].
  - unfold bind at 1, lift at 1. destruct (g a) as [y|x] eqn:G; [| discriminate].
    unfold bind at 1. destruct (for_list _ l w) as [[ys'|x] w1] eqn:E; [| discriminate].
    intros [= <- <-]. destruct (IH w w1 ys' E) as [-> F]. split; trivial.
    now constructor.
Qed.

Lemma upsert_point_elem (p : PointStruct.t) (l : list PointStruct.t) :
  p ∈ upsert_point p l.
Proof.
  induction l as [|q l IH]; simpl; [apply list_elem_of_here |].
  destruct (decide _); [apply list_elem_of_here | now apply list_elem_of_further].
Qed.

(** A [store] that returns has written a point with the payload of the
    entry into the collection. *)
Lemma store_writes_point (mp : string) (self : QdrantConnector) (entry : Entry.t)
    (collection_name : option string) (name : string) (w w1 : World) :
  py_or collection_name (_default_collection_name self) = Some name ->
  store mp self entry collection_name w = (Ok tt, w1) ->
  exists c p,
    collections w1 !! name = Some c
    /\ p ∈ points c
    /\ PointStruct.payload p
       = Some (payload_of mp (Entry.content entry) (Entry.metadata entry)).
Proof.
  intros R. unfold store. rewrite R. unfold bind at 1.
  destruct (_ensure_collection_exists self name w) as [[[]|x] wa]; [| discriminate].
  unfold bind at 1, provider_embed_documents.
  destruct (fault wa (length (trace wa))) as [msg|] eqn:F1;
    [now rewrite (await_failed _ _ _ msg F1) |].
  rewrite (await_answered _ _ _ F1). cbn [fst snd exn_of].
  unfold bind at 1, uuid4 at 1. unfold bind at 1, lift at 1.
  destruct (embed_documents _ _) as [|embedding embeddings]; [discriminate |].
  cbn [first_of]. unfold client_upsert.
  match goal with |- await _ _ ?wb = _ -> _ =>
    destruct (fault wb (length (trace wb))) as [msg|] eqn:F2;
      [now rewrite (await_failed _ _ _ msg F2) | rewrite (await_answered _ _ _ F2)]
  end.
  cbn [collections draw log set_collections].
  destruct (collections wa !! name) as [c|]; [| discriminate].
  cbn [fst snd exn_of]. intros [= <-]. cbn [collections log set_collections].
  eexists _, _. split; [apply lookup_insert_eq |]. cbn [points foldl].
  split; [apply upsert_point_elem | reflexivity].
Qed.

(** A [search] that returns has mapped the matches of the service, one by
    one, reading the metadata under the key ["metadata"]. *)
Lemma search_maps_matches (self : QdrantConnector) (query : string)
    (collection_name : option string) (name : string) (limit : Z) (f : option Filter)
    (w1 w2 : World) (entries : list Entry.t) (c : Collection) :
  py_or collection_name (_default_collection_name self) = Some name ->
  collections w1 !! name = Some c ->
  search self query collection_name limit f w1 = (Ok entries, w2) ->
  exists matches,
    query_answer w1 (Some name) (embed_query (_embedding_provider self) query)
      (get_vector_name (_embedding_provider self)) limit f None
    = Ok matches
    /\ Forall2 (fun m e => entry_of_payload "metadata" (ScoredPoint.payload m) = Ok e)
         matches entries.
Proof.
  intros R Lk. unfold search. rewrite R. cbn zeta.
  unfold bind at 1, client_collection_exists.
  destruct (fault w1 (length (trace w1))) as [msg|] eqn:F1;
    [now rewrite (await_failed _ _ _ msg F1) |].
  rewrite (await_answered _ _ _ F1). rewrite Lk. cbn [fst snd exn_of negb].
  unfold bind at 1, provider_embed_query.
  match goal with |- (let (_, _) := await _ _ ?wa in _) = _ -> _ =>
    destruct (fault wa (length (trace wa))) as [msg|] eqn:F2;
      [now rewrite (await_failed _ _ _ msg F2) | rewrite (await_answered _ _ _ F2)]
  end.
  cbn [fst snd exn_of]. unfold bind at 1, client_query_points.
  match goal with |- (let (_, _) := await _ _ ?wb in _) = _ -> _ =>
    destruct (fault wb (length (trace wb))) as [msg|] eqn:F3;
      [now rewrite (await_failed _ _ _ msg F3) | rewrite (await_answered _ _ _ F3)]
  end.
  cbn [fst snd].
  match goal with |- context [query_answer ?wb ?n ?q ?s ?l ?g ?t] =>
    change (query_answer wb n q s l g t) with (query_answer w1 n q s l g t)
  end.
  destruct (query_answer w1 _ _ _ _ _ _) as [matches|x]; [| discriminate].
  intros H. apply for_list_lift in H as [_ H]. now exists matches.
Qed.

(** After a [store] that returned, a search for the content of the entry
    that returns gives one entry for each match of the service, in order,
    and every match that carries the payload of the entry gives the entry
    back. *)
Lemma search_gives_stored_entry_back (self : QdrantConnector) (entry : Entry.t)
    (collection_name : option string) (name : string) (limit : Z) (f : option Filter)
    (w1 w2 : World) (entries : list Entry.t) (c : Collection) :
  py_or collection_name (_default_collection_name self) = Some name ->
  collections w1 !! name = Some c ->
  search self (Entry.content entry) collection_name limit f w1 = (Ok entries, w2) ->
  exists matches,
    query_answer w1 (Some name)
      (embed_query (_embedding_provider self) (Entry.content entry))
      (get_vector_name (_embedding_provider self)) limit f None
    = Ok matches
    /\ length entries = length matches
    /\ forall i m,
         matches !! i = Some m ->
         ScoredPoint.payload m
         = Some (payload_of "metadata" (Entry.content entry) (Entry.metadata entry)) ->
         entries !! i = Some entry.
Proof.
  intros R Lk Se.
  destruct (search_maps_matches self _ collection_name name limit f w1 w2 entries c R Lk Se)
    as (matches & Q & F2).
  exists matches. split; [exact Q |]. split; [symmetry; exact (Forall2_length _ _ _ F2) |].
  intros i m Li Pm.
  destruct (Forall2_lookup_l _ _ _ _ _ F2 Li) as (e & Le & G).
  rewrite Pm in G.
  rewrite entry_of_stored_payload in G by discriminate.
  rewrite decide_True in G by reflexivity. injection G as <-.
  rewrite Le. now destruct entry.
Qed.

(** On a service that answers, with a provider that embeds the document,
    [store] returns and leaves a point with the payload of the entry; in a
    collection it had to create, that point is the only one. *)
Lemma store_reliable (mp : string) (self : QdrantConnector) (entry : Entry.t)
    (collection_name : option string) (name : string) (w : World) :
  reliable w ->
  py_or collection_name (_default_collection_name self) = Some name ->
  embed_documents (_embedding_provider self) [Entry.content entry] <> [] ->
  exists w1 point_id embedding,
    store mp self entry collection_name w = (Ok tt, w1)
    /\ fault w1 = fault w
    /\ (collections w !! name = None ->
        collections w1 !! name
        = Some {| vectors_config := default_config self;
                  payload_schema := indexes_of self;
                  points :=
                    [PointStruct.make (IdStr point_id)
                       {[ get_vector_name (_embedding_provider self) := embedding ]}
                       (Some (payload_of mp (Entry.content entry)
                                (Entry.metadata entry)))] |}).
Proof.
  intros Rel R Emb. unfold store. rewrite R. unfold bind at 1.
  assert (En : exists wa ca,
             _ensure_collection_exists self name w = (Ok tt, wa)
             /\ fault wa = fault w
             /\ collections wa !! name = Some ca
             /\ (collections w !! name = None ->
                 ca = {| vectors_config := default_config self;
                         payload_schema := indexes_of self; points := [] |})).
  { destruct (collections w !! name) as [c|] eqn:Lk.
    - exists (log (answered (CollectionExists (Some name))) w), c.
      split; [exact (ensure_keeps self name w c (Rel _) Lk) |].
      repeat split; trivial. discriminate.
    - destruct (ensure_creates self name w Rel Lk) as (wa & E & Fa & _ & Ca).
      exists wa. eexists. repeat split; eauto. }
  destruct En as (wa & ca & E & Fa & Ca & Fresh). rewrite E.
  assert (Rela : reliable wa) by (intros n; rewrite Fa; apply Rel).
  unfold bind at 1, provider_embed_documents. answer_with Rela. cbn [fst snd exn_of].
  unfold bind at 1, uuid4 at 1. unfold bind at 1, lift at 1.
  destruct (embed_documents _ _) as [|embedding embeddings]; [now destruct Emb |].
  cbn [first_of]. unfold client_upsert. answer_with Rela.
  cbn [collections draw log set_collections]. rewrite Ca. cbn [fst snd exn_of].
  eexists _, _, embedding. split; [reflexivity |]. split; [exact Fa |].
  intros Abs. cbn [collections log set_collections]. rewrite lookup_insert_eq.
  now rewrite (Fresh Abs).
Qed.

(** A search in a collection that holds one stored point, which passes the
    filter, returns its entry when the limit allows one result. *)
Lemma search_single_point (self : QdrantConnector) (query content : string)
    (metadata : option Metadata) (collection_name : option string) (name : string)
    (limit : Z) (f : option Filter) (w1 : World) (point_id : PointId)
    (embedding : Vector) (schema : list (string * PayloadSchemaType)) :
  reliable w1 ->
  py_or collection_name (_default_collection_name self) = Some name ->
  collections w1 !! name
  = Some {| vectors_config := default_config self;
            payload_schema := schema;
            points :=
              [PointStruct.make point_id
                 {[ get_vector_name (_embedding_provider self) := embedding ]}
                 (Some (payload_of "metadata" content metadata))] |} ->
  0 < limit ->
  (forall cond, f = Some cond -> cond (Some (payload_of "metadata" content metadata)) = true) ->
  exists w2,
    search self query collection_name limit f w1 = (Ok [Entry.make content metadata], w2).
Proof.
  intros Rel R Lk Lim Pass. unfold search. rewrite R. cbn zeta.
  unfold bind at 1, client_collection_exists. answer_with Rel. rewrite Lk.
  cbn [fst snd exn_of negb].
  unfold bind at 1, provider_embed_query. answer_with Rel. cbn [fst snd exn_of].
  unfold bind at 1, client_query_points. answer_with Rel. cbn [fst snd].
  match goal with |- context [query_answer ?wb ?n ?q ?s ?l ?g ?t] =>
    change (query_answer wb n q s l g t) with (query_answer w1 n q s l g t)
  end.
  unfold query_answer. rewrite Lk. cbn [vectors_config points].
  unfold default_config at 1. rewrite lookup_singleton_eq.
  cbn [omap list_omap]. unfold scored at 1.
  replace (passes f _) with true.
  2:{ unfold passes. destruct f as [cond|]; [| reflexivity].
      symmetry. now apply Pass. }
  cbn [PointStruct.vector]. rewrite lookup_singleton_eq. cbn [omap list_omap].
  assert (Take : forall sp : ScoredPoint.t,
             take (Z.to_nat limit) (merge_sort better [sp]) = [sp]).
  { intros sp. destruct (Z.to_nat limit) as [|n] eqn:N; [lia |].
    cbn. now rewrite take_nil. }
  rewrite Take. cbn [for_list ScoredPoint.payload PointStruct.payload].
  rewrite entry_of_stored_payload by discriminate.
  rewrite decide_True by reflexivity. unfold bind, lift, ret.
  eexists. reflexivity.
Qed.

(** C1. With ["metadata"] for [METADATA_PATH], the key [search] reads, on a
    service that answers and with a provider that embeds the document:
    [store] returns and the collection then holds a point with the payload of
    the entry, whose metadata key is the one [search] reads; a search for the
    content of the entry that returns gives one entry for each match of the
    service, in order, and every match that carries this payload gives the
    entry back, content and metadata; in a collection the store had to
    create, a search with room for one result returns exactly the entry. *)
Theorem store_then_search_gives_entry_back (mp : string) (self : QdrantConnector)
    (entry : Entry.t) (collection_name : option string) (name : string) (w : World) :
  mp = "metadata" ->
  py_or collection_name (_default_collection_name self) = Some name ->
  reliable w ->
  embed_documents (_embedding_provider self) [Entry.content entry] <> [] ->
  let stored := payload_of mp (Entry.content entry) (Entry.metadata entry) in
  exists w1,
    store mp self entry collection_name w = (Ok tt, w1)
    /\ stored !! "metadata" = Some (json_of_metadata (Entry.metadata entry))
    /\ (exists c p,
          collections w1 !! name = Some c /\ p ∈ points c
          /\ PointStruct.payload p = Some stored)
    /\ (forall limit f entries w2,
          search self (Entry.content entry) collection_name limit f w1 = (Ok entries, w2) ->
          exists matches,
            query_answer w1 (Some name)
              (embed_query (_embedding_provider self) (Entry.content entry))
              (get_vector_name (_embedding_provider self)) limit f None
            = Ok matches
            /\ length entries = length matches
            /\ forall i m,
                 matches !! i = Some m ->
                 ScoredPoint.payload m = Some stored ->
                 entries !! i = Some entry)
    /\ (forall limit f,
          collections w !! name = None ->
          0 < limit ->
          (forall cond, f = Some cond -> cond (Some stored) = true) ->
          exists w2,
            search self (Entry.content entry) collection_name limit f w1
            = (Ok [entry], w2)).
Proof.
  intros -> R Rel Emb stored.
  destruct (store_reliable "metadata" self entry collection_name name w Rel R Emb)
    as (w1 & point_id & embedding & St & F1 & Fresh).
  exists w1. split; [exact St |]. split; [apply lookup_insert_eq |].
  destruct (store_writes_point _ self entry collection_name name w w1 R St)
    as (c & p & Lk & Ip & Pp).
  split; [now exists c, p |]. split.
  - intros limit f entries w2 Se.
    exact (search_gives_stored_entry_back self entry collection_name name limit f
             w1 w2 entries c R Lk Se).
  - intros limit f Abs Lim Pass.
    assert (Rel1 : reliable w1) by (intros n; rewrite F1; apply Rel).
    destruct (search_single_point self (Entry.content entry) (Entry.content entry)
                (Entry.metadata entry) collection_name name limit f w1
                (IdStr point_id) embedding (indexes_of self) Rel1 R (Fresh Abs) Lim Pass)
      as (w2 & Se).
    exists w2. rewrite Se. now destruct entry.
Qed.

(** * Runs on concrete inputs *)

Lemma empty_world_reliable : reliable empty_world.
Proof. intros n. reflexivity. Qed.

Lemma world_with_reliable (name : string) (pts : list PointStruct.t) :
  reliable (world_with name pts).
Proof. intros n. reflexivity. Qed.

Lemma store_then_search_gives_entry_back_witness :
  exists w1 w2,
    store "metadata" notes_connector hello (Some "notes") empty_world = (Ok tt, w1)
    /\ search notes_connector "hello" (Some "notes") 10 None w1 = (Ok [hello], w2).
Proof.
  destruct (store_then_search_gives_entry_back "metadata" notes_connector hello
              (Some "notes") "notes" empty_world eq_refl eq_refl empty_world_reliable)
    as (w1 & St & _ & _ & _ & Fresh).
  - discriminate.
  - destruct (Fresh 10 None) as (w2 & Se).
    + reflexivity.
    + reflexivity.
    + discriminate.
    + now exists w1, w2.
Defined.

Lemma reads_of_absent_collection_are_empty_witness :
  fst (search notes_connector "hello" (Some "notes") 10 None empty_world) = Ok []
  /\ fst (hybrid_search "metadata" notes_connector "hello" (Some "notes") 10 None None None
            empty_world) = Ok []
  /\ fst (scroll_collection "metadata" notes_connector (Some "notes") 10 None None
            true false empty_world) = Ok ([], None).
Proof.
  destruct (reads_of_absent_collection_are_empty "metadata" notes_connector "hello"
              (Some "notes") "notes" 10 None None None None true false empty_world
              eq_refl eq_refl eq_refl) as (S1 & S2 & S3).
  rewrite S1, S2, S3. repeat split.
Defined.

Lemma ensure_twice_creates_once_witness :
  List.filter is_create_collection
    (map call
       (since empty_world
          (snd (_ensure_collection_exists notes_connector "notes"
                  (snd (_ensure_collection_exists notes_connector "notes" empty_world))))))
  = [CreateCollection "notes" (default_config notes_connector)].
Proof.
  exact (proj2 (proj2 (proj2
           (ensure_twice_creates_once notes_connector "notes" empty_world
              empty_world_reliable eq_refl)))).
Defined.

Lemma write_sets_up_absent_collection_only_witness :
  exists rest,
    map call (since empty_world
                (snd (store "metadata" notes_connector hello (Some "notes") empty_world)))
    = CollectionExists (Some "notes")
      :: [CreateCollection "notes" (default_config notes_connector);
          CreatePayloadIndex "notes" "topic" KEYWORD] ++ rest
    /\ Forall (fun c => is_setup c = false) rest.
Proof.
  exact (proj1 (proj2
           (write_sets_up_absent_collection_only "metadata" notes_connector hello
              batch_of_two (Some "notes") "notes" empty_world
              empty_world_reliable eq_refl))).
Defined.

Lemma create_collection_with_config_distance_witness :
  fst (create_collection_with_config notes_connector "atlas" 3 "bogus" None empty_world)
  = Ok true
  /\ collections
       (snd (create_collection_with_config notes_connector "atlas" 3 "bogus" None
               empty_world)) !! "atlas"
     = Some {| vectors_config :=
                 {[ "fast-all-minilm-l6-v2" := VectorParams.make 3 COSINE ]};
               payload_schema := [("topic", KEYWORD)];
               points := [] |}.
Proof.
  destruct (create_collection_with_config_distance notes_connector "atlas" 3 "bogus" None
              empty_world empty_world_reliable eq_refl) as (S1 & _ & S3 & _).
  split; [exact S1 | exact S3].
Defined.

Lemma batch_store_all_or_nothing_witness :
  fst (batch_store "metadata" notes_connector batch_of_two (Some "notes") empty_world)
  = Ok 2%nat
  /\ fst (batch_store "metadata" notes_connector batch_of_two (Some "notes")
            (failing_world 4 "timeout"))
     = Ok O.
Proof.
  split.
  - set (evs := since empty_world
                  (snd (batch_store "metadata" notes_connector batch_of_two (Some "notes")
                          empty_world))).
    apply (proj1 (batch_store_all_or_nothing "metadata" notes_connector batch_of_two
                    (Some "notes") "notes" empty_world eq_refl eq_refl)
             (nth 3 evs (answered (EmbedQuery "")))
             (nth 4 evs (answered (EmbedQuery "")))).
    + vm_compute. do 3 apply list_elem_of_further. apply list_elem_of_here.
    + reflexivity.
    + reflexivity.
    + vm_compute. do 4 apply list_elem_of_further. apply list_elem_of_here.
    + reflexivity.
    + reflexivity.
  - set (evs := since (failing_world 4 "timeout")
                  (snd (batch_store "metadata" notes_connector batch_of_two (Some "notes")
                          (failing_world 4 "timeout")))).
    apply (proj1 (proj2 (batch_store_all_or_nothing "metadata" notes_connector batch_of_two
                           (Some "notes") "notes" (failing_world 4 "timeout")
                           eq_refl eq_refl))
             (nth 4 evs (answered (EmbedQuery "")))).
    + vm_compute. do 4 apply list_elem_of_further. apply list_elem_of_here.
    + reflexivity.
    + discriminate.
Defined.

Lemma batch_store_empty_id_is_no_id_witness :
  let run := batch_store "metadata" notes_connector batch_of_two (Some "notes")
               empty_world in
  batch_store "metadata" notes_connector (map without_empty_id batch_of_two)
    (Some "notes") empty_world
  = run
  /\ exists before pts,
       since empty_world (snd run)
       = before ++ [answered (EmbedDocuments ["first"; "second"]);
                    answered (Upsert "notes" pts)]
       /\ fst run = Ok (length pts)
       /\ pts !! O
          = Some (PointStruct.make (IdStr "00000000000040008000000000000000")
                    {[ "fast-all-minilm-l6-v2" := [inject_Z 5] ]}
                    (Some (payload_of "metadata" "first" None))).
Proof.
  destruct (batch_store_empty_id_is_no_id "metadata" notes_connector batch_of_two
              (Some "notes") empty_world) as (Same & _ & _ & Ids & Sent & _).
  split; [exact Same |].
  destruct (Sent "notes" empty_world_reliable eq_refl) as (before & pts & Evs & Count).
  exists before, pts. split; [exact Evs |]. split; [exact Count |].
  apply (Ids (answered (Upsert "notes" pts)) "notes" pts O
           (BatchEntry.make "first" None (Some "")) [inject_Z 5]).
  - rewrite Evs. apply elem_of_app. right. apply list_elem_of_further, list_elem_of_here.
  - reflexivity.
  - reflexivity.
  - reflexivity.
  - now left.
Defined.

Lemma store_raises_what_its_calls_raise_witness :
  fst (store "metadata" notes_connector hello (Some "notes")
         (failing_world 3 "embedder down"))
  = Raise (ServiceError "embedder down").
Proof.
  set (w := failing_world 3 "embedder down").
  set (evs := since w (snd (store "metadata" notes_connector hello (Some "notes") w))).
  apply (proj1 (store_raises_what_its_calls_raise "metadata" notes_connector hello
                  (Some "notes") w)
           (nth 3 evs (answered (EmbedQuery "")))).
  - vm_compute. do 3 apply list_elem_of_further. apply list_elem_of_here.
  - reflexivity.
Defined.

(** C9, as the claim has it, fails: the service answers a scroll with two
    points, the first without a payload, the second with a text where the
    metadata should be a mapping; making the entry of the second raises, the
    [except] branch answers with no entry at all, and the first point is
    dropped with it. *)
Lemma scroll_drops_page_with_untyped_payload :
  let w := world_with "atlas" [bare_point; untyped_point] in
  scroll_answer w "atlas" 10 None None true false
  = Ok ([Record_.make (IdInt 1) None None;
         Record_.make (IdInt 2)
           (Some (<[ "metadata" := JStr "plain text" ]> {[ "document" := JStr "kept" ]}))
           None], None)
  /\ scroll_collection_try "metadata" "atlas" 10 None None true false
       (log (answered (CollectionExists (Some "atlas"))) w)
     = (Raise (ValidationError "metadata"),
        log (answered (Scroll "atlas" 10 None None true false))
          (log (answered (CollectionExists (Some "atlas"))) w))
  /\ fst (scroll_collection "metadata" notes_connector (Some "atlas") 10 None None
            true false w)
     = Ok ([], None).
Proof. repeat split. Qed.

Lemma scroll_keeps_points_of_typed_page_witness :
  exists entries,
    fst (scroll_collection "metadata" notes_connector (Some "atlas") 10 None None
           true false (world_with "atlas" [bare_point; typed_point]))
    = Ok (entries, None)
    /\ length entries = 2%nat
    /\ entries !! O
       = Some (Entry.make "Point ID: 1" (Some {[ "point_id" := JInt 1 ]})).
Proof.
  destruct (scroll_keeps_points_of_typed_page "metadata" notes_connector (Some "atlas")
              "atlas" 10 None None true false (world_with "atlas" [bare_point; typed_point])
              [record_of true false bare_point; record_of true false typed_point] None
              (world_with_reliable _ _) eq_refl eq_refl)
    as (entries & E & L & Syn).
  - repeat constructor.
  - exists entries. split; [exact E |]. split; [exact L |].
    exact (Syn O (record_of true false bare_point) eq_refl eq_refl).
Defined.

(** * Further properties of the connector *)

(** ** What is caught and what is not *)

Lemma propagates_for_list {A B} (f : A -> M B) (l : list A) :
  (forall a, propagates (f a)) -> propagates (for_list f l).
Proof.
  intros Hf. induction l as [|a l IH]; cbn [for_list].
  - now apply propagates_silent.
  - apply propagates_bind; [apply Hf | intros b].
    apply propagates_bind; [apply IH | intros bs]. now apply propagates_silent.
Qed.

Lemma search_propagates (self : QdrantConnector) (query : string)
    (collection_name : option string) (limit : Z) (f : option Filter) :
  propagates (search self query collection_name limit f).
Proof.
  unfold search, client_collection_exists, provider_embed_query, client_query_points.
  cbn zeta. propagates_steps. apply propagates_for_list. intros result.
  now apply propagates_silent.
Qed.

Lemma raises_last_silent {A} (own : Exn -> Prop) (m : M A) :
  (forall w, trace (snd (m w)) = trace w) ->
  (forall w x, fst (m w) = Raise x -> own x) ->
  raises_last own m.
Proof.
  intros H O w. exists []. rewrite app_nil_r. split; [apply H |].
  left. split; [constructor | apply O].
Qed.

Lemma raises_last_await {A} (own : Exn -> Prop) (c : Call)
    (answer : World -> Result A * gmap string Collection) :
  raises_last own (await c answer).
Proof.
  intros w. destruct (await_event c answer w) as (x & T & X & _).
  eexists. split; [exact T |].
  destruct (fst (await c answer w)) as [a|e]; cbn [exn_of] in X; subst x.
  - left. split; [now repeat constructor | discriminate].
  - right. exists [], {| call := c; raised := Some e |}, e. repeat split. constructor.
Qed.

Lemma raises_last_bind {A B} (own : Exn -> Prop) (m : M A) (k : A -> M B) :
  raises_last own m -> (forall a, raises_last own (k a)) -> raises_last own (bind m k).
Proof.
  intros Hm Hk w. unfold bind.
  destruct (Hm w) as (evs1 & T1 & P1). destruct (m w) as [[a|e] w1]; cbn [fst snd] in *.
  - destruct P1 as [(F1 & _) | (? & ? & ? & _ & _ & _ & Abs)]; [| discriminate].
    destruct (Hk a w1) as (evs2 & T2 & P2). exists (evs1 ++ evs2).
    rewrite T2, T1, app_assoc. split; trivial.
    destruct P2 as [(F2 & O2) | (before & ev & x & -> & Re & Fb & R)].
    + left. split; [now apply Forall_app | exact O2].
    + right. exists (evs1 ++ before), ev, x. rewrite app_assoc. repeat split; trivial.
      now apply Forall_app.
  - exists evs1. split; [exact T1 |].
    destruct P1 as [(F1 & O1) | (before & ev & x & -> & Re & Fb & [= ->])].
    + left. split; [exact F1 |]. intros x [= <-]. now apply O1.
    + right. now exists before, ev, x.
Qed.

Lemma raises_last_for_list {A B} (own : Exn -> Prop) (f : A -> M B) (l : list A) :
  (forall a, raises_last own (f a)) -> raises_last own (for_list f l).
Proof.
  intros Hf. induction l as [|a l IH]; cbn [for_list].
  - now apply raises_last_silent.
  - apply raises_last_bind; [apply Hf | intros b].
    apply raises_last_bind; [apply IH | intros bs]. now apply raises_last_silent.
Qed.

(** [search] has no handler: a call that raises ends it, and of its own it
    raises only what making the entry of a match raises. *)
Lemma search_raises_last (self : QdrantConnector) (query : string)
    (collection_name : option string) (limit : Z) (f : option Filter) :
  raises_last (fun x => exists payload, entry_of_payload "metadata" payload = Raise x)
    (search self query collection_name limit f).
Proof.
  unfold search, client_collection_exists, provider_embed_query, client_query_points.
  cbn zeta. apply raises_last_bind; [apply raises_last_await | intros b].
  destruct (negb b); [now apply raises_last_silent |].
  apply raises_last_bind; [apply raises_last_await | intros query_vector].
  apply raises_last_bind; [apply raises_last_await | intros search_results].
  apply raises_last_for_list. intros result.
  apply raises_last_silent; [reflexivity |].
  intros w x E. now exists (ScoredPoint.payload result).
Qed.

(** X1. [search] catches nothing: a call of the provider or of the client
    that raises during a search is the last call of the search, and what it
    raises is what the search raises; a search that returns had every call
    answered; and a search that raises with every call answered raises what
    making the entry of a payload raises. *)
Theorem search_raises_what_its_calls_raise (self : QdrantConnector) (query : string)
    (collection_name : option string) (limit : Z) (f : option Filter) (w : World) :
  let run := search self query collection_name limit f w in
  let evs := since w (snd run) in
  (forall ev x,
     ev ∈ evs -> raised ev = Some x ->
     fst run = Raise x
     /\ exists before,
          evs = before ++ [ev] /\ Forall (fun ev => raised ev = None) before)
  /\ (forall entries, fst run = Ok entries -> Forall (fun ev => raised ev = None) evs)
  /\ (forall x,
        fst run = Raise x ->
        Forall (fun ev => raised ev = None) evs ->
        exists payload, entry_of_payload "metadata" payload = Raise x).
Proof.
  intros run evs. subst run evs.
  destruct (search_raises_last self query collection_name limit f w) as (evs & T & Cases).
  rewrite (since_app _ _ _ T). split; [| split].
  - intros ev x I Re.
    destruct Cases as [(F & _) | (before & ev' & x' & -> & Re' & Fb & R)].
    + rewrite Forall_forall in F. specialize (F ev I). congruence.
    + apply elem_of_app in I as [I|I].
      * rewrite Forall_forall in Fb. specialize (Fb ev I). congruence.
      * members. split; [congruence |]. now exists before.
  - intros entries E. destruct Cases as [(F & _) | (? & ? & ? & _ & _ & _ & R)];
      [exact F | congruence].
  - intros x E F. destruct Cases as [(_ & O) | (before & ev & x' & -> & Re & _ & _)];
      [now apply O |].
    apply Forall_app in F as [_ F]. inversion F as [|? ? Ra]. congruence.
Qed.

Lemma bind_ok_inv {A B} (m : M A) (k : A -> M B) (w w1 : World) (b : B) :
  bind m k w = (Ok b, w1) ->
  exists a w', m w = (Ok a, w') /\ k a w' = (Ok b, w1).
Proof.
  unfold bind. destruct (m w) as [[a|x] w']; [| discriminate]. intros E. now exists a, w'.
Qed.

Lemma raises_by_call_ret {A} (a : A) : raises_by_call (ret a).
Proof. intros w. exists []. cbn. rewrite app_nil_r. split; [reflexivity | constructor]. Qed.

Lemma raises_by_call_await {A} (c : Call)
    (answer : World -> Result A * gmap string Collection) :
  raises_by_call (await c answer).
Proof.
  intros w. destruct (await_event c answer w) as (x & T & X & _).
  eexists. split; [exact T |].
  destruct (fst (await c answer w)) as [a|e]; cbn [exn_of] in X; subst x.
  - now repeat constructor.
  - exists [], {| call := c; raised := Some e |}. repeat split. constructor.
Qed.

Lemma raises_by_call_bind {A B} (m : M A) (k : A -> M B) :
  raises_by_call m -> (forall a, raises_by_call (k a)) -> raises_by_call (bind m k).
Proof.
  intros Hm Hk w. unfold bind.
  destruct (Hm w) as (evs1 & T1 & P1). destruct (m w) as [[a|e] w1]; cbn [fst snd] in *.
  - destruct (Hk a w1) as (evs2 & T2 & P2). exists (evs1 ++ evs2).
    rewrite T2, T1, app_assoc. split; trivial.
    destruct (fst (k a w1)) as [b|x].
    + now apply Forall_app.
    + destruct P2 as (before & ev & -> & Re & Fb).
      exists (evs1 ++ before), ev. rewrite app_assoc. repeat split; trivial.
      now apply Forall_app.
  - now exists evs1.
Qed.

Lemma raises_by_call_for_each {A} (f : A -> M unit) (l : list A) :
  (forall a, raises_by_call (f a)) -> raises_by_call (for_each f l).
Proof.
  intros Hf. induction l as [|a l IH]; cbn [for_each].
  - apply raises_by_call_ret.
  - apply raises_by_call_bind; [apply Hf | intros _; apply IH].
Qed.

Lemma create_payload_indexes_raises_by_call (self : QdrantConnector) (name : string) :
  raises_by_call (create_payload_indexes self name).
Proof.
  unfold create_payload_indexes.
  destruct (_field_indexes self) as [[|item items]|]; try apply raises_by_call_ret.
  apply raises_by_call_for_each. intros [field_name field_type].
  apply raises_by_call_await.
Qed.

(** X2. [create_collection_with_config] never raises: it returns true when
    every call it made was answered, and false when its last call raised,
    which ends the run. *)
Theorem create_collection_with_config_never_raises (self : QdrantConnector)
    (name : string) (vector_size : Z) (distance : string)
    (provider : option EmbeddingProvider) (w : World) :
  let run := create_collection_with_config self name vector_size distance provider w in
  (fst run = Ok true /\ Forall (fun ev => raised ev = None) (since w (snd run)))
  \/ (fst run = Ok false
      /\ exists before ev x,
           since w (snd run) = before ++ [ev] /\ raised ev = Some x
           /\ Forall (fun ev => raised ev = None) before).
Proof.
  intros run. subst run. unfold create_collection_with_config, try_except.
  match goal with |- context [bind ?m ?k] =>
    assert (H : raises_by_call (bind m k))
  end.
  { apply raises_by_call_bind; [apply raises_by_call_await | intros _].
    apply raises_by_call_bind; [apply create_payload_indexes_raises_by_call | intros _].
    apply raises_by_call_ret. }
  destruct (H w) as (evs & T & P). clear H.
  match goal with |- context [bind ?m ?k w] => destruct (bind m k w) as [[b|x] w1] eqn:E end;
    cbn [fst snd] in *.
  - left. rewrite (since_app _ _ _ T). split; trivial.
    apply bind_ok_inv in E as (? & ? & _ & E).
    apply bind_ok_inv in E as (? & ? & _ & E).
    now injection E as <- _.
  - right. cbn [ret fst snd]. rewrite (since_app _ _ _ T). split; [reflexivity |].
    destruct P as (before & ev & -> & Re & Fb). now exists before, ev, x.
Qed.

(** The existence check raises what the world makes it raise, or answers. *)
Lemma collection_exists_cases (name : option string) (w : World) :
  (exists msg,
     client_collection_exists name w
     = (Raise (ServiceError msg),
        log {| call := CollectionExists name; raised := Some (ServiceError msg) |} w))
  \/ (exists b,
        client_collection_exists name w
        = (Ok b, log (answered (CollectionExists name)) w)).
Proof.
  unfold client_collection_exists.
  destruct (fault w (length (trace w))) as [msg|] eqn:F.
  - left. exists msg. apply (await_failed _ _ _ msg F).
  - right. rewrite (await_answered _ _ _ F).
    destruct name as [name|]; [destruct (collections w !! name) |]; eexists; reflexivity.
Qed.

Lemma hybrid_search_try_propagates (mp : string) (self : QdrantConnector) (query : string)
    (collection_name : option string) (limit : Z) (f : option Filter)
    (min_score : option Q) (search_params : option (gmap string Json)) :
  propagates (hybrid_search_try mp self query collection_name limit f min_score
                search_params).
Proof.
  unfold hybrid_search_try, provider_embed_query, client_query_points.
  cbn zeta. propagates_steps. apply propagates_for_list. intros result.
  propagates_steps.
Qed.

Lemma scroll_collection_try_propagates (mp name : string) (limit : Z)
    (offset : option PointId) (f : option Filter) (with_payload with_vectors : bool) :
  propagates (scroll_collection_try mp name limit offset f with_payload with_vectors).
Proof.
  unfold scroll_collection_try, client_scroll. propagates_steps.
  apply propagates_for_list. intros point. unfold scroll_entry. propagates_steps.
Qed.

(** A [try] block that catches everything returns: the value of the block
    with all its calls answered, or the value of the handler. *)
Lemma try_except_returns {A} (m : M A) (dflt : A) (w : World) :
  propagates m ->
  exists evs a,
    trace (snd (try_except m (fun _ => ret dflt) w)) = trace w ++ evs
    /\ fst (try_except m (fun _ => ret dflt) w) = Ok a
    /\ (Forall (fun ev => raised ev = None) evs \/ a = dflt).
Proof.
  intros P. unfold try_except. destruct (P w) as (evs & T & R).
  destruct (m w) as [[a|x] w1]; cbn [fst snd ret] in *.
  - exists evs, a. repeat split; trivial. left. apply Forall_forall. intros ev I.
    destruct (raised ev) as [e|] eqn:Re; trivial. now specialize (R ev e I Re).
  - exists evs, dflt. repeat split; trivial. now right.
Qed.

(** X3. [hybrid_search] raises only what the existence check raises.  Once
    the check is answered it returns: the results of a run whose calls were
    all answered, or the empty list. *)
Theorem hybrid_search_raises_only_on_check (mp : string) (self : QdrantConnector)
    (query : string) (collection_name : option string) (limit : Z) (f : option Filter)
    (min_score : option Q) (search_params : option (gmap string Json)) (w : World) :
  let run := hybrid_search mp self query collection_name limit f min_score
               search_params w in
  exists check rest,
    since w (snd run)
    = {| call := CollectionExists (py_or collection_name (_default_collection_name self));
         raised := check |} :: rest
    /\ match check with
       | Some x => fst run = Raise x /\ rest = []
       | None =>
           exists results,
             fst run = Ok results
             /\ (Forall (fun ev => raised ev = None) rest \/ results = [])
       end.
Proof.
  intros run. subst run. unfold hybrid_search. cbn zeta. unfold bind.
  destruct (collection_exists_cases
              (py_or collection_name (_default_collection_name self)) w)
    as [(msg & E) | ([] & E)]; rewrite E; cbn [negb].
  - eexists _, []. split; [apply since_log |]. now split.
  - match goal with |- context [try_except ?m _ ?w1] =>
      destruct (try_except_returns m [] w1
                  (hybrid_search_try_propagates mp self query _ limit f min_score
                     search_params))
        as (evs & results & T & R & Cases)
    end.
    exists None, evs. split.
    + apply since_app. rewrite T. cbn [trace log]. now rewrite <- app_assoc.
    + now exists results.
  - exists None, []. split; [apply since_log |]. exists []. split; [reflexivity |].
    left. constructor.
Qed.

(** X4. Without a name [scroll_collection] raises an [AssertionError] and
    calls nothing.  With a name it starts with the existence check and raises
    only what that check raises, after that call alone; once the check is
    answered it returns: the page of a run whose calls were all answered, or
    the empty page without a cursor. *)
Theorem scroll_collection_raises_only_on_check (mp : string) (self : QdrantConnector)
    (collection_name : option string) (limit : Z)
    (offset : option PointId) (f : option Filter) (with_payload with_vectors : bool)
    (w : World) :
  let run := scroll_collection mp self collection_name limit offset f
               with_payload with_vectors w in
  match py_or collection_name (_default_collection_name self) with
  | None => run = (Raise AssertionError, w)
  | Some name =>
      exists check rest,
        since w (snd run)
        = {| call := CollectionExists (Some name); raised := check |} :: rest
        /\ match check with
           | Some x => fst run = Raise x /\ rest = []
           | None =>
               exists page,
                 fst run = Ok page
                 /\ (Forall (fun ev => raised ev = None) rest \/ page = ([], None))
           end
  end.
Proof.
  intros run. subst run. unfold scroll_collection.
  destruct (py_or collection_name (_default_collection_name self)) as [name|];
    [| reflexivity].
  unfold bind.
  destruct (collection_exists_cases (Some name) w) as [(msg & E) | ([] & E)];
    rewrite E; cbn [negb].
  - eexists _, []. split; [apply since_log |]. now split.
  - match goal with |- context [try_except ?m _ ?w1] =>
      destruct (try_except_returns m ([], None) w1
                  (scroll_collection_try_propagates mp name limit offset f
                     with_payload with_vectors))
        as (evs & page & T & Rp & Cases)
    end.
    exists None, evs. split.
    + apply since_app. rewrite T. cbn [trace log]. now rewrite <- app_assoc.
    + now exists page.
  - exists None, []. split; [apply since_log |]. exists ([], None).
    split; [reflexivity |]. left. constructor.
Qed.

(** ** Runs on a service that answers *)

Lemma for_list_collect {A B} (g : A -> Result B) (l : list A) (w : World) :
  for_list (fun a => lift (g a)) l w = (collect g l, w).
Proof.
  induction l as [|a l IH]; cbn [for_list collect]; [reflexivity |].
  unfold bind at 1, lift at 1. destruct (g a) as [b|x]; [| reflexivity].
  unfold bind at 1. rewrite IH. now destruct (collect g l).
Qed.

Lemma for_list_scored_entry (key : string) (l : list ScoredPoint.t) (w : World) :
  for_list (fun result =>
              entry <- lift (entry_of_payload key (ScoredPoint.payload result)) ;;
              ret (entry, ScoredPoint.score result)) l w
  = (collect (scored_entry key) l, w).
Proof.
  induction l as [|m l IH]; cbn [for_list collect]; [reflexivity |].
  unfold bind at 1. unfold bind at 1, lift at 1, scored_entry at 1.
  destruct (entry_of_payload key (ScoredPoint.payload m)) as [entry|x]; [| reflexivity].
  cbn [ret]. unfold bind at 1. rewrite IH. now destruct (collect (scored_entry key) l).
Qed.

(** A search in a collection that exists, on a service that answers: the
    matches of the service, each turned into an entry, or the first exception
    on the way. *)
Lemma search_reliable (self : QdrantConnector) (query : string)
    (collection_name : option string) (name : string) (limit : Z) (f : option Filter)
    (w : World) (c : Collection) :
  reliable w ->
  py_or collection_name (_default_collection_name self) = Some name ->
  collections w !! name = Some c ->
  fst (search self query collection_name limit f w)
  = match query_answer w (Some name) (embed_query (_embedding_provider self) query)
            (get_vector_name (_embedding_provider self)) limit f None with
    | Ok matches =>
        collect (fun m => entry_of_payload "metadata" (ScoredPoint.payload m)) matches
    | Raise x => Raise x
    end.
Proof.
  intros Rel R Lk. unfold search. rewrite R. cbn zeta.
  unfold bind at 1, client_collection_exists. answer_with Rel. rewrite Lk.
  cbn [fst snd exn_of negb].
  unfold bind at 1, provider_embed_query. answer_with Rel. cbn [fst snd exn_of].
  unfold bind at 1, client_query_points. answer_with Rel. cbn [fst snd].
  match goal with |- context [query_answer ?wb ?n ?q ?s ?l ?g ?t] =>
    change (query_answer wb n q s l g t) with (query_answer w n q s l g t)
  end.
  destruct (query_answer w _ _ _ _ _ _) as [matches|x]; [| reflexivity].
  now rewrite for_list_collect.
Qed.

(** The same for [hybrid_search] without extra parameters, where every
    exception gives the empty list. *)
Lemma hybrid_search_reliable (mp : string) (self : QdrantConnector) (query : string)
    (collection_name : option string) (name : string) (limit : Z) (f : option Filter)
    (min_score : option Q) (w : World) (c : Collection) :
  reliable w ->
  py_or collection_name (_default_collection_name self) = Some name ->
  collections w !! name = Some c ->
  fst (hybrid_search mp self query collection_name limit f min_score None w)
  = match query_answer w (Some name) (embed_query (_embedding_provider self) query)
            (get_vector_name (_embedding_provider self)) limit f min_score with
    | Ok matches =>
        match collect (scored_entry mp) matches with
        | Ok results => Ok results
        | Raise _ => Ok []
        end
    | Raise _ => Ok []
    end.
Proof.
  intros Rel R Lk. unfold hybrid_search. rewrite R. cbn zeta.
  unfold bind at 1, client_collection_exists. answer_with Rel. rewrite Lk.
  cbn [fst snd exn_of negb].
  unfold try_except, hybrid_search_try. cbn zeta.
  unfold bind at 1, provider_embed_query. answer_with Rel. cbn [fst snd exn_of].
  cbn [truthy_dict].
  replace (existsb _ query_keywords) with false by reflexivity.
  unfold bind at 1. cbn [ret]. unfold bind at 1, client_query_points.
  answer_with Rel. cbn [fst snd].
  match goal with |- context [query_answer ?wb ?n ?q ?s ?l ?g ?t] =>
    change (query_answer wb n q s l g t) with (query_answer w n q s l g t)
  end.
  destruct (query_answer w _ _ _ _ _ _) as [matches|x]; [| reflexivity].
  rewrite for_list_scored_entry. now destruct (collect (scored_entry mp) matches).
Qed.

Lemma for_list_entry_of_point (mp : string) (with_payload : bool) (page : list Record_.t)
    (w : World) :
  for_list (scroll_entry mp with_payload) page w
  = (collect (entry_of_point mp with_payload) page, w).
Proof.
  induction page as [|point page IH]; cbn [for_list collect]; [reflexivity |].
  unfold bind at 1, scroll_entry at 1, entry_of_point at 1.
  destruct (with_payload && truthy_dict (Record_.payload point)).
  - unfold lift. destruct (Entry.init _ _) as [entry|x]; [| reflexivity].
    unfold bind at 1. rewrite IH. now destruct (collect _ page).
  - cbn [ret]. unfold bind at 1. rewrite IH. now destruct (collect _ page).
Qed.

(** A scroll of a collection that exists, on a service that answers: the
    page of the service, each point turned into an entry, with the cursor of
    the service; the empty page without a cursor on any exception. *)
Lemma scroll_collection_reliable (mp : string) (self : QdrantConnector)
    (collection_name : option string) (name : string) (limit : Z)
    (offset : option PointId) (f : option Filter) (with_payload with_vectors : bool)
    (w : World) (c : Collection) :
  reliable w ->
  py_or collection_name (_default_collection_name self) = Some name ->
  collections w !! name = Some c ->
  fst (scroll_collection mp self collection_name limit offset f with_payload with_vectors w)
  = match scroll_answer w name limit offset f with_payload with_vectors with
    | Ok (page, next) =>
        match collect (entry_of_point mp with_payload) page with
        | Ok entries => Ok (entries, next)
        | Raise _ => Ok ([], None)
        end
    | Raise _ => Ok ([], None)
    end.
Proof.
  intros Rel R Lk. unfold scroll_collection. rewrite R.
  unfold bind at 1, client_collection_exists. answer_with Rel. rewrite Lk.
  cbn [fst snd exn_of negb].
  unfold try_except, scroll_collection_try, bind at 1, client_scroll.
  answer_with Rel. cbn [fst snd].
  match goal with |- context [scroll_answer ?w1 _ _ _ _ _ _] =>
    change (scroll_answer w1 name limit offset f with_payload with_vectors)
      with (scroll_answer w name limit offset f with_payload with_vectors)
  end.
  destruct (scroll_answer w _ _ _ _ _ _) as [[page next]|x]; [| reflexivity].
  cbn [fst snd]. unfold bind at 1. rewrite for_list_entry_of_point.
  now destruct (collect _ page).
Qed.

(** ** Edge cases of the reads *)

(** X5. A key of [search_params] that repeats a keyword [hybrid_search]
    passes itself makes the query call impossible: on a service that
    answers, the query is embedded, no query is sent, and the result is the
    empty list. *)
Theorem hybrid_search_repeated_keyword_is_empty (mp : string) (self : QdrantConnector)
    (query : string) (collection_name : option string) (name : string) (limit : Z)
    (f : option Filter) (min_score : option Q) (params : gmap string Json)
    (key : string) (w : World) (c : Collection) :
  reliable w ->
  py_or collection_name (_default_collection_name self) = Some name ->
  collections w !! name = Some c ->
  key ∈ query_keywords ->
  is_Some (params !! key) ->
  let run := hybrid_search mp self query collection_name limit f min_score
               (Some params) w in
  fst run = Ok []
  /\ map call (since w (snd run)) = [CollectionExists (Some name); EmbedQuery query].
Proof.
  intros Rel R Lk Ik Pk run.
  assert (E : run = (Ok [],
                     log (answered (EmbedQuery query))
                       (log (answered (CollectionExists (Some name))) w))).
  { subst run. unfold hybrid_search. rewrite R. cbn zeta.
    unfold bind at 1, client_collection_exists. answer_with Rel. rewrite Lk.
    cbn [fst snd exn_of negb].
    unfold try_except, hybrid_search_try. cbn zeta.
    unfold bind at 1, provider_embed_query. answer_with Rel. cbn [fst snd exn_of].
    assert (Tr : truthy_dict (Some params) = true).
    { cbn [truthy_dict]. rewrite bool_decide_eq_false_2; [reflexivity |].
      intros ->. rewrite lookup_empty in Pk. now destruct Pk. }
    rewrite Tr. cbn [default from_option id].
    replace (existsb _ query_keywords) with true.
    2:{ symmetry. apply existsb_exists. exists key.
        split; [now apply list_elem_of_In | now apply bool_decide_eq_true_2]. }
    reflexivity. }
  rewrite E. split; [reflexivity |].
  rewrite (since_app _ _ [answered (CollectionExists (Some name)); answered (EmbedQuery query)]);
    [reflexivity |]. cbn [snd trace log]. now rewrite <- app_assoc.
Qed.

(** X6. A match whose payload has no document: [search] raises the
    [KeyError], [hybrid_search] returns the empty list. *)
Theorem match_without_document (mp : string) (self : QdrantConnector) (query : string)
    (collection_name : option string) (name : string) (limit : Z) (f : option Filter)
    (w : World) (c : Collection) (m : ScoredPoint.t) (matches : list ScoredPoint.t)
    (d : Payload) :
  reliable w ->
  py_or collection_name (_default_collection_name self) = Some name ->
  collections w !! name = Some c ->
  query_answer w (Some name) (embed_query (_embedding_provider self) query)
    (get_vector_name (_embedding_provider self)) limit f None
  = Ok (m :: matches) ->
  ScoredPoint.payload m = Some d ->
  d !! "document" = None ->
  fst (search self query collection_name limit f w) = Raise (KeyError "document")
  /\ fst (hybrid_search mp self query collection_name limit f None None w) = Ok [].
Proof.
  intros Rel R Lk Q Pm Nd.
  rewrite (search_reliable self query collection_name name limit f w c Rel R Lk).
  rewrite (hybrid_search_reliable mp self query collection_name name limit f None w c
             Rel R Lk).
  rewrite Q. cbn [collect]. unfold scored_entry, entry_of_payload.
  now rewrite Pm, Nd.
Qed.

(** X7. A scroll that reads no payload loses no point: on a service that
    answers, [scroll_collection] with [with_payload=False] returns, for the
    page of the service, the entries that name the ids, in order, and the
    cursor of the service. *)
Theorem scroll_without_payload_names_ids (mp : string) (self : QdrantConnector)
    (collection_name : option string) (name : string) (limit : Z)
    (offset : option PointId) (f : option Filter) (with_vectors : bool)
    (w : World) (page : list Record_.t) (next : option PointId) :
  reliable w ->
  py_or collection_name (_default_collection_name self) = Some name ->
  scroll_answer w name limit offset f false with_vectors = Ok (page, next) ->
  fst (scroll_collection mp self collection_name limit offset f false with_vectors w)
  = Ok (map synthetic_entry page, next).
Proof.
  intros Rel R Ans.
  assert (Lk : exists c, collections w !! name = Some c).
  { unfold scroll_answer in Ans. destruct (collections w !! name) as [c|]; [eauto | discriminate]. }
  destruct Lk as (c & Lk).
  rewrite (scroll_collection_reliable mp self collection_name name limit offset f
             false with_vectors w c Rel R Lk), Ans.
  replace (collect (entry_of_point mp false) page) with (Ok (map synthetic_entry page));
    [reflexivity |].
  clear Ans. induction page as [|point page IH]; cbn [collect map]; [reflexivity |].
  now rewrite <- IH.
Qed.

(** ** Round trips under [METADATA_PATH] *)


Lemma scroll_answer_single_point (w : World) (name : string) (c : Collection)
    (p : PointStruct.t) (limit : Z) (f : option Filter) (with_payload with_vectors : bool) :
  collections w !! name = Some c ->
  points c = [p] ->
  passes f p = true ->
  0 < limit ->
  scroll_answer w name limit None f with_payload with_vectors
  = Ok ([record_of with_payload with_vectors p], None).
Proof.
  intros Lk Pc Pass Lim. unfold scroll_answer. rewrite Lk, Pc. cbn [List.filter].
  rewrite Pass. destruct (Z.to_nat limit) as [|n] eqn:N; [lia |].
  cbn. now rewrite take_nil.
Qed.

Lemma payload_of_truthy (mp content : string) (metadata : option Metadata) :
  truthy_dict (Some (payload_of mp content metadata)) = true.
Proof.
  cbn [truthy_dict]. rewrite bool_decide_eq_false_2; [reflexivity |].
  unfold payload_of. apply insert_non_empty.
Qed.

Lemma entry_of_stored_point (mp content : string) (metadata : option Metadata)
    (point_id : PointId) (vectors : option (gmap string Vector)) :
  mp <> "document" ->
  entry_of_point mp true
    (Record_.make point_id (Some (payload_of mp content metadata)) vectors)
  = Ok (Entry.make content metadata).
Proof.
  intros N. unfold entry_of_point. cbn [Record_.payload andb].
  rewrite payload_of_truthy. cbn [default from_option id].
  unfold dict_get_default, dict_get, payload_of.
  rewrite lookup_insert_ne by exact N. rewrite lookup_insert_eq, lookup_insert_eq.
  now destruct metadata.
Qed.

(** X8. Whatever key [METADATA_PATH] is, other than the document key: on a
    service that answers, an entry stored into a collection that did not
    exist is the one entry a scroll of that collection returns, content and
    metadata, with no cursor. *)
Theorem store_then_scroll_gives_entry_back (mp : string) (self : QdrantConnector)
    (entry : Entry.t) (collection_name : option string) (name : string) (limit : Z)
    (f : option Filter) (with_vectors : bool) (w : World) :
  mp <> "document" ->
  reliable w ->
  py_or collection_name (_default_collection_name self) = Some name ->
  collections w !! name = None ->
  embed_documents (_embedding_provider self) [Entry.content entry] <> [] ->
  0 < limit ->
  (forall cond, f = Some cond ->
     cond (Some (payload_of mp (Entry.content entry) (Entry.metadata entry))) = true) ->
  exists w1,
    store mp self entry collection_name w = (Ok tt, w1)
    /\ fst (scroll_collection mp self collection_name limit None f true with_vectors w1)
       = Ok ([entry], None).
Proof.
  intros N Rel R Abs Emb Lim Pass.
  destruct (store_reliable mp self entry collection_name name w Rel R Emb)
    as (w1 & point_id & embedding & St & F1 & Fresh).
  exists w1. split; [exact St |].
  assert (Rel1 : reliable w1) by (intros n; rewrite F1; apply Rel).
  rewrite (scroll_collection_reliable mp self collection_name name limit None f true
             with_vectors w1 _ Rel1 R (Fresh Abs)).
  erewrite scroll_answer_single_point; [| exact (Fresh Abs) | reflexivity | | exact Lim].
  - cbn [collect]. unfold record_of. cbn [PointStruct.payload PointStruct.id].
    rewrite entry_of_stored_point by exact N. now destruct entry.
  - unfold passes. destruct f as [cond|]; [| reflexivity]. now apply Pass.
Qed.


(** ** Edge cases of the writes *)

(** X10. The count of [batch_store] is the number of points it sent: an
    upsert that is answered is the last call of the run, it goes to the
    resolved collection, and the result is the number of its points, one for
    each pair of an entry and a vector, so the smaller of the number of
    entries and the number of vectors the provider gave. *)
Theorem batch_store_counts_points_sent (mp : string) (self : QdrantConnector)
    (entries : list BatchEntry.t) (collection_name : option string) (name : string)
    (w : World) (u : Event) (sent_to : string) (pts : list PointStruct.t) :
  py_or collection_name (_default_collection_name self) = Some name ->
  let run := batch_store mp self entries collection_name w in
  u ∈ since w (snd run) ->
  call u = Upsert sent_to pts ->
  raised u = None ->
  fst run = Ok (length pts)
  /\ sent_to = name
  /\ length pts
     = Nat.min (length entries)
         (length (embed_documents (_embedding_provider self)
                    (map BatchEntry.content entries)))
  /\ exists before, since w (snd run) = before ++ [u].
Proof.
  intros R run I C Ru.
  destruct (batch_store_cases mp self entries collection_name name w R)
    as (r & w' & before & rest & E & T & F & Cases).
  subst run. rewrite E in *. cbn [fst snd] in *. rewrite (since_app _ _ _ T) in *.
  rewrite Forall_forall in F.
  assert (NB : forall ev, ev ∈ before -> is_upsert (call ev) = true -> False).
  { intros ev' I' H. specialize (F ev' I'). unfold is_write in F. rewrite H in F.
    now rewrite orb_true_r in F. }
  assert (U : is_upsert (call u) = true) by now rewrite C.
  destruct Cases as [(x & -> & ->) | [(x & -> & ->) | [(pts' & x & -> & -> & N)
                    | (pts' & -> & -> & L & N)]]];
    members; try (now destruct (NB u I)); try discriminate.
  cbn [call answered] in C. injection C as -> ->.
  repeat split; [now rewrite L, length_zip |].
  exists (before ++ [answered (EmbedDocuments (map BatchEntry.content entries))]).
  now rewrite <- app_assoc.
Qed.

(** X11. When the provider gives no vector for the document, [store] raises
    an [IndexError] after the embedding call: no point is sent, and a
    collection that did not exist has been created and stays, empty. *)
Theorem store_without_vector_leaves_empty_collection (mp : string)
    (self : QdrantConnector) (entry : Entry.t) (collection_name : option string)
    (name : string) (w : World) :
  reliable w ->
  py_or collection_name (_default_collection_name self) = Some name ->
  embed_documents (_embedding_provider self) [Entry.content entry] = [] ->
  let run := store mp self entry collection_name w in
  fst run = Raise IndexError
  /\ map call (since w (snd run))
     = CollectionExists (Some name) :: setup_calls self name w
       ++ [EmbedDocuments [Entry.content entry]]
  /\ (collections w !! name = None ->
      collections (snd run) !! name
      = Some {| vectors_config := default_config self;
                payload_schema := indexes_of self; points := [] |}).
Proof.
  intros Rel R Emb run.
  destruct (ensure_reliable self name w Rel) as (wa & ca & E & Fa & Ta & Ca & Fresh & _).
  assert (Rela : reliable wa) by (intros n; rewrite Fa; apply Rel).
  assert (Run : run = (Raise IndexError,
                       draw (log (answered (EmbedDocuments [Entry.content entry])) wa))).
  { subst run. unfold store. rewrite R. unfold bind at 1. rewrite E.
    unfold bind at 1, provider_embed_documents. answer_with Rela. cbn [fst snd exn_of].
    rewrite Emb. reflexivity. }
  rewrite Run. cbn [fst snd]. split; [reflexivity |]. split.
  - unfold since in *. cbn [trace draw log].
    assert (P : exists evs, trace wa = trace w ++ evs).
    { destruct (ensure_emits_no_write self name w) as (evs & T & _).
      rewrite E in T. now exists evs. }
    destruct P as (evs & T). rewrite T in *. rewrite <- app_assoc.
    rewrite drop_app_length in *. rewrite map_app, Ta. reflexivity.
  - intros Abs. cbn [collections draw log]. now rewrite Ca, (Fresh Abs).
Qed.

(** ** The administrative reads and the deletion *)

Lemma try_except_ret_never_raises {A} (m : M A) (dflt : A) (w : World) :
  exists a, fst (try_except m (fun _ => ret dflt) w) = Ok a.
Proof.
  unfold try_except. destruct (m w) as [[a|x] w1]; [now exists a | now exists dflt].
Qed.

(** X12. [get_detailed_collection_info] and [delete_collection] never raise,
    whatever the client does; [delete_collection] returns true whenever the
    call of the client returns, whatever its answer, and false when it
    raises; for a collection that does not exist, once the existence check
    is answered, [get_detailed_collection_info] returns [None] without
    asking for the collection. *)
Theorem administrative_operations_never_raise
    (validate_int : PyVal -> option Z) (validate_str : PyVal -> option string)
    (py_str : PyVal -> string) (client_get_collection : string -> M PyVal)
    (client_delete_collection : string -> M bool) (name : string) (w : World) :
  let info := get_detailed_collection_info validate_int validate_str py_str
                client_get_collection name w in
  let deleted := delete_collection client_delete_collection name w in
  (exists r, fst info = Ok r)
  /\ (collections w !! name = None ->
      fault w (length (trace w)) = None ->
      info = (Ok None, log (answered (CollectionExists (Some name))) w))
  /\ deleted
     = (match fst (client_delete_collection name w) with
        | Ok _ => Ok true
        | Raise _ => Ok false
        end, snd (client_delete_collection name w)).
Proof.
  intros info deleted. subst info deleted. split; [| split].
  - apply try_except_ret_never_raises.
  - intros Abs F. unfold get_detailed_collection_info, try_except, bind,
      client_collection_exists.
    rewrite (await_answered _ _ _ F). now rewrite Abs.
  - unfold delete_collection, try_except, bind.
    now destruct (client_delete_collection name w) as [[b|x] w1].
Qed.

(** What [get_detailed_collection_info] returns for a collection that exists,
    on a client that answers with [info]. *)
Lemma get_detailed_collection_info_answered
    (validate_int : PyVal -> option Z) (validate_str : PyVal -> option string)
    (py_str : PyVal -> string) (client_get_collection : string -> M PyVal)
    (name : string) (w w' : World) (c : Collection) (info : PyVal) :
  fault w (length (trace w)) = None ->
  collections w !! name = Some c ->
  client_get_collection name (log (answered (CollectionExists (Some name))) w)
  = (Ok info, w') ->
  fst (get_detailed_collection_info validate_int validate_str py_str
         client_get_collection name w)
  = match collection_info_of validate_int validate_str py_str name info with
    | Ok collection_info => Ok (Some collection_info)
    | Raise _ => Ok None
    end.
Proof.
  intros F Lk G. unfold get_detailed_collection_info, try_except, bind,
    client_collection_exists.
  rewrite (await_answered _ _ _ F). rewrite Lk. cbn [fst snd exn_of negb].
  match goal with |- context [client_get_collection name ?w1] =>
    change (client_get_collection name w1)
      with (client_get_collection name (log (answered (CollectionExists (Some name))) w))
  end.
  rewrite G. unfold lift. now destruct (collection_info_of _ _ _ _ _).
Qed.

Lemma collection_info_of_configuration
    (validate_int : PyVal -> option Z) (validate_str : PyVal -> option string)
    (py_str : PyVal -> string) (name : string) (info : PyVal)
    (collection_info : CollectionInfo.t) :
  collection_info_of validate_int validate_str py_str name info = Ok collection_info ->
  validate_optional validate_int "vector_size" (fst (vector_configuration py_str info))
  = Ok (CollectionInfo.vector_size collection_info)
  /\ validate_optional validate_str "distance_metric"
       (snd (vector_configuration py_str info))
     = Ok (CollectionInfo.distance_metric collection_info).
Proof.
  unfold collection_info_of.
  destruct (vector_configuration py_str info) as [size metric]. cbn [fst snd].
  repeat match goal with
         | |- context [match ?r with Ok _ => _ | Raise _ => _ end] =>
             destruct r; try discriminate
         end.
  now intros [= <-].
Qed.

(** X13. When the vectors of the configuration the client answers with are
    a mapping of named slots, as they are for every collection the
    connector creates, [get_detailed_collection_info] finds no size and no
    distance: an info it returns has [None] for both. *)
Theorem named_vectors_have_no_size
    (validate_int : PyVal -> option Z) (validate_str : PyVal -> option string)
    (py_str : PyVal -> string) (client_get_collection : string -> M PyVal)
    (name : string) (w w' : World) (c : Collection) (info config params : PyVal)
    (slots : gmap string PyVal) :
  fault w (length (trace w)) = None ->
  collections w !! name = Some c ->
  client_get_collection name (log (answered (CollectionExists (Some name))) w)
  = (Ok info, w') ->
  py_attr info "config" = Some config ->
  py_attr config "params" = Some params ->
  py_attr params "vectors" = Some (PyDict slots) ->
  let result := fst (get_detailed_collection_info validate_int validate_str py_str
                       client_get_collection name w) in
  result = Ok None
  \/ exists collection_info,
       result = Ok (Some collection_info)
       /\ CollectionInfo.name collection_info = name
       /\ CollectionInfo.vector_size collection_info = None
       /\ CollectionInfo.distance_metric collection_info = None.
Proof.
  intros F Lk G Ac Ap Av result. subst result.
  rewrite (get_detailed_collection_info_answered validate_int validate_str py_str
             client_get_collection name w w' c info F Lk G).
  destruct (collection_info_of validate_int validate_str py_str name info)
    as [collection_info|x] eqn:E; [| now left].
  right. exists collection_info. split; [reflexivity |].
  destruct (collection_info_of_configuration _ _ _ _ _ _ E) as [S D].
  assert (V : vector_configuration py_str info = (PyNone, PyNone)).
  { unfold vector_configuration. rewrite Ac.
    destruct (py_truthy config); [| reflexivity]. now rewrite Ap, Av. }
  rewrite V in S, D. cbn in S, D. injection S as <-. injection D as <-.
  split; [| split; reflexivity].
  revert E. unfold collection_info_of.
  destruct (vector_configuration py_str info) as [size metric].
  repeat match goal with
         | |- context [match ?r with Ok _ => _ | Raise _ => _ end] =>
             destruct r; try discriminate
         end.
  now intros [= <-].
Qed.

(** X14. When the vectors of the configuration are a single configuration
    with an integer size and a distance of an enumeration, an info that
    [get_detailed_collection_info] returns has that size and the name of the
    distance, for validators that keep an integer and a string as they are. *)
Theorem single_vector_configuration_is_reported
    (validate_int : PyVal -> option Z) (validate_str : PyVal -> option string)
    (py_str : PyVal -> string) (client_get_collection : string -> M PyVal)
    (name : string) (w w' : World) (c : Collection)
    (info config params vectors : PyVal) (size : Z) (metric value : string) :
  (forall z, validate_int (PyInt z) = Some z) ->
  (forall s, validate_str (PyStr s) = Some s) ->
  fault w (length (trace w)) = None ->
  collections w !! name = Some c ->
  client_get_collection name (log (answered (CollectionExists (Some name))) w)
  = (Ok info, w') ->
  py_attr info "config" = Some config ->
  py_truthy config = true ->
  py_attr config "params" = Some params ->
  py_attr params "vectors" = Some vectors ->
  py_attr vectors "size" = Some (PyInt size) ->
  py_attr vectors "distance" = Some (PyEnum metric value) ->
  let result := fst (get_detailed_collection_info validate_int validate_str py_str
                       client_get_collection name w) in
  result = Ok None
  \/ exists collection_info,
       result = Ok (Some collection_info)
       /\ CollectionInfo.vector_size collection_info = Some size
       /\ CollectionInfo.distance_metric collection_info = Some metric.
Proof.
  intros Vi Vs F Lk G Ac Tc Ap Av As Ad result. subst result.
  rewrite (get_detailed_collection_info_answered validate_int validate_str py_str
             client_get_collection name w w' c info F Lk G).
  destruct (collection_info_of validate_int validate_str py_str name info)
    as [collection_info|x] eqn:E; [| now left].
  right. exists collection_info. split; [reflexivity |].
  destruct (collection_info_of_configuration _ _ _ _ _ _ E) as [S D].
  assert (V : vector_configuration py_str info = (PyInt size, PyStr metric)).
  { unfold vector_configuration, getattr. now rewrite Ac, Tc, Ap, Av, As, Ad. }
  rewrite V in S, D. cbn in S, D. rewrite Vi in S. rewrite Vs in D.
  injection S as <-. injection D as <-. now split.
Qed.

(** X15. An answer of the client on which the counts and the statuses are
    missing, [None], zero or empty, and which has no configuration, gives
    the info of the defaults: zero for every count, ["unknown"] for both
    statuses, no size and no distance. *)
Theorem missing_attributes_get_defaults
    (validate_int : PyVal -> option Z) (validate_str : PyVal -> option string)
    (py_str : PyVal -> string) (name : string) (info : PyVal) :
  validate_int (PyInt 0) = Some 0 ->
  validate_str (PyStr "unknown") = Some "unknown" ->
  (forall a v,
     a ∈ ["vectors_count"; "indexed_vectors_count"; "points_count"; "segments_count";
          "status"; "optimizer_status"] ->
     py_attr info a = Some v -> py_truthy v = false) ->
  py_attr info "config" = None ->
  collection_info_of validate_int validate_str py_str name info
  = Ok (CollectionInfo.make name 0 0 0 0 "unknown" "unknown" None None).
Proof.
  intros Vi Vs Falsy Nc.
  assert (Count : forall a,
             a ∈ ["vectors_count"; "indexed_vectors_count"; "points_count";
                  "segments_count"; "status"; "optimizer_status"] ->
             py_val_or (getattr info a (PyInt 0)) (PyInt 0) = PyInt 0
             /\ py_val_or (getattr info a (PyStr "unknown")) (PyStr "unknown")
                = PyStr "unknown").
  { intros a Ia. unfold py_val_or, getattr.
    destruct (py_attr info a) as [v|] eqn:Ea; cbn [default from_option id].
    - now rewrite (Falsy a v Ia Ea).
    - split; reflexivity. }
  unfold collection_info_of, vector_configuration. rewrite Nc.
  assert (In_list : forall a,
             In a ["vectors_count"; "indexed_vectors_count"; "points_count";
                   "segments_count"; "status"; "optimizer_status"] ->
             a ∈ ["vectors_count"; "indexed_vectors_count"; "points_count";
                  "segments_count"; "status"; "optimizer_status"])
    by (intros a; apply list_elem_of_In).
  rewrite (proj1 (Count "vectors_count" (In_list "vectors_count" ltac:(simpl; tauto)))).
  rewrite (proj1 (Count "indexed_vectors_count" (In_list "indexed_vectors_count" ltac:(simpl; tauto)))).
  rewrite (proj1 (Count "points_count" (In_list "points_count" ltac:(simpl; tauto)))).
  rewrite (proj1 (Count "segments_count" (In_list "segments_count" ltac:(simpl; tauto)))).
  rewrite (proj2 (Count "status" (In_list "status" ltac:(simpl; tauto)))).
  rewrite (proj2 (Count "optimizer_status" (In_list "optimizer_status" ltac:(simpl; tauto)))).
  unfold validate_field, validate_optional. now rewrite Vi, Vs.
Qed.

(** * Properties of the server *)

(** ** The key and the location *)

Lemma truthy_str_some (s : string) : s <> "" -> truthy_str (Some s) = true.
Proof. now destruct s. Qed.

(** X16. The key [_create_secure_qdrant_connector] passes on is the
    configured key or none.  For a location that starts with [http://] it
    is decided by the first characters after that: the key is kept exactly
    when they are [localhost] or [127.0.0.1], whatever follows them. *)
Theorem api_key_follows_location_prefix (qdrant_settings : QdrantSettings)
    (embedding_provider : EmbeddingProvider)
    (field_indexes : option (list (string * PayloadSchemaType)))
    (key host : string) :
  let passed := qdrant_api_key (_create_secure_qdrant_connector qdrant_settings
                                  embedding_provider field_indexes) in
  (passed = api_key qdrant_settings \/ passed = None)
  /\ (api_key qdrant_settings = Some key ->
      key <> "" ->
      location qdrant_settings = Some ("http://" +:+ host) ->
      passed = if String.prefix "localhost" host || String.prefix "127.0.0.1" host
               then Some key else None).
Proof.
  intros passed. subst passed. unfold _create_secure_qdrant_connector.
  cbn [qdrant_api_key]. split.
  - destruct (truthy_str _ && truthy_str _); [| now left].
    destruct (negb _); [now right | now left].
  - intros K Nk L. rewrite K, L, (truthy_str_some key Nk).
    unfold secure_location, String.append. cbn. fold String.append.
    now destruct (String.prefix "localhost" host), (String.prefix "127.0.0.1" host).
Qed.

(** ** The tools *)

(** X17. The tool [delete_collection] asks the client for nothing without a
    confirmation.  With one it never raises and never reports an error: it
    answers that the collection was deleted whenever the call of the client
    returns, whatever the client answers, and that the deletion failed when
    that call raises. *)
Theorem delete_tool_asks_for_confirmation (debug : string -> M unit)
    (str_exn : Exn -> string) (client_delete_collection : string -> M bool)
    (name : string) (w : World) :
  Tools.delete_collection debug str_exn client_delete_collection name false w
  = (Ok ("Please set confirm=True to delete collection '" +:+ name
         +:+ "'. This action cannot be undone."), w)
  /\ Tools.delete_collection debug str_exn client_delete_collection name true w
     = (match fst (client_delete_collection name w) with
        | Ok _ => Ok ("Successfully deleted collection '" +:+ name +:+ "'")
        | Raise _ => Ok ("Failed to delete collection '" +:+ name +:+ "'")
        end, snd (client_delete_collection name w)).
Proof.
  split; [reflexivity |].
  unfold Tools.delete_collection, delete_collection, try_except, bind. cbn [negb].
  now destruct (client_delete_collection name w) as [[b|x] w1].
Qed.

Lemma convert_entries_app (json_loads : string -> option Json)
    (good rest : list (gmap string Json)) :
  forall (i : nat) (accepted : list BatchEntry.t),
    Tools.convert_entries json_loads i good = Ok (inr accepted) ->
    Tools.convert_entries json_loads i (good ++ rest)
    = match Tools.convert_entries json_loads (i + length good) rest with
      | Ok (inr more) => Ok (inr (accepted ++ more))
      | other => other
      end.
Proof.
  induction good as [|entry_dict good IH]; intros i accepted.
  - cbn [Tools.convert_entries app length]. intros [= <-].
    rewrite Nat.add_0_r. now destruct (Tools.convert_entries json_loads i rest) as [[?|?]|?].
  - cbn [Tools.convert_entries app length].
    destruct (entry_dict !! "content") as [content|]; [| discriminate].
    match goal with |- context [match ?parsed with inl _ => _ | inr _ => _ end] =>
      destruct parsed as [answer|parsed_metadata]
    end; [discriminate |].
    destruct (batch_entry_init _ _ _) as [batch_entry|x]; [| discriminate].
    destruct (Tools.convert_entries json_loads (S i) good) as [[answer|accepted']|x] eqn:E;
      try discriminate.
    intros [= <-]. rewrite (IH (S i) accepted' E).
    replace (S i + length good)%nat with (i + S (length good))%nat by lia.
    now destruct (Tools.convert_entries json_loads _ rest) as [[?|?]|?].
Qed.

(** X18. When the entries before it are accepted, an entry without the key
    [content] makes [qdrant_store_batch] answer with its index, and nothing
    is embedded or stored, the accepted entries included. *)
Theorem batch_tool_stores_nothing_without_content (mp : string)
    (debug : string -> M unit) (str_exn : Exn -> string)
    (json_loads : string -> option Json) (qdrant_connector : QdrantConnector)
    (good rest : list (gmap string Json)) (entry_dict : gmap string Json)
    (accepted : list BatchEntry.t) (name : string) (w : World) :
  Tools.convert_entries json_loads 0 good = Ok (inr accepted) ->
  entry_dict !! "content" = None ->
  Tools.qdrant_store_batch mp debug str_exn json_loads qdrant_connector
    (good ++ entry_dict :: rest) name w
  = (Ok ("Entry " +:+ pretty (length good) +:+ " missing required 'content' field"), w).
Proof.
  intros G N. unfold Tools.qdrant_store_batch, try_except, bind, lift.
  rewrite (convert_entries_app json_loads good (entry_dict :: rest) 0 accepted G).
  cbn [Tools.convert_entries Nat.add]. now rewrite N.
Qed.

(** On a service that answers, a batch of one entry into a collection that
    did not exist is counted as one and leaves its point as the only one. *)
Lemma batch_store_single_reliable (mp : string) (self : QdrantConnector)
    (entry : BatchEntry.t) (collection_name : option string) (name : string) (w : World) :
  reliable w ->
  py_or collection_name (_default_collection_name self) = Some name ->
  collections w !! name = None ->
  embed_documents (_embedding_provider self) [BatchEntry.content entry] <> [] ->
  exists w1 point_id embedding,
    batch_store mp self [entry] collection_name w = (Ok 1%nat, w1)
    /\ fault w1 = fault w
    /\ collections w1 !! name
       = Some {| vectors_config := default_config self;
                 payload_schema := indexes_of self;
                 points :=
                   [PointStruct.make (IdStr point_id)
                      {[ get_vector_name (_embedding_provider self) := embedding ]}
                      (Some (payload_of mp (BatchEntry.content entry)
                               (BatchEntry.metadata entry)))] |}.
Proof.
  intros Rel R Abs Emb. unfold batch_store. rewrite R. unfold bind at 1.
  destruct (ensure_reliable self name w Rel) as (wa & ca & E & Fa & _ & Ca & Fresh & _).
  rewrite E. rewrite (Fresh Abs) in Ca.
  assert (Rela : reliable wa) by (intros n; rewrite Fa; apply Rel).
  unfold try_except, batch_store_try. cbn [map].
  unfold bind at 1, provider_embed_documents. answer_with Rela. cbn [fst snd exn_of].
  destruct (embed_documents _ _) as [|embedding embeddings]; [now destruct Emb |].
  cbn [zip_with for_list]. unfold bind.
  match goal with |- context [batch_point mp ?slot (entry, embedding) ?wb] =>
    destruct (batch_point_run mp slot entry embedding wb) as (p & wc & Ep & Tp & Fp & Cp & Np);
    assert (Shape : exists point_id,
               p = PointStruct.make (IdStr point_id) {[ slot := embedding ]}
                     (Some (payload_of mp (BatchEntry.content entry)
                              (BatchEntry.metadata entry))))
  end.
  { revert Ep. unfold batch_point, bind.
    destruct (truthy_str (BatchEntry.id entry)); cbn [ret uuid4];
      intros [= <- _]; eexists; reflexivity. }
  destruct Shape as (point_id & ->). rewrite Ep. cbn [ret]. unfold client_upsert.
  assert (Relc : reliable wc) by (intros n; rewrite Fp; apply Rela).
  answer_with Relc. rewrite Cp. cbn [collections log set_collections].
  rewrite Ca. cbn [fst snd exn_of ret length].
  eexists _, point_id, embedding.
  split; [reflexivity |]. split; [cbn [fault log set_collections] in Fp |- *; congruence |].
  cbn [collections log set_collections]. now rewrite lookup_insert_eq.
Qed.

(** X19. What the tool [qdrant_store] stores, the tool [find] finds: with
    ["metadata"] for [METADATA_PATH], a host whose debug log does not fail, a
    service that answers and a provider that embeds the document, storing a
    content with metadata that parses to a mapping into a collection that
    did not exist succeeds, and [find] for that content then answers with
    the heading and this one entry, content and metadata. *)
Theorem store_tool_then_find_tool (debug : string -> M unit) (str_exn : Exn -> string)
    (json_loads : string -> option Json) (json_dumps : Metadata -> string)
    (make_filter : gmap string Json -> Result Filter)
    (qdrant_connector : QdrantConnector) (qdrant_settings : QdrantSettings)
    (model_name content collection text name : string) (entry_id : option string)
    (d : Metadata) (w : World) :
  (forall msg w', debug msg w' = (Ok tt, w')) ->
  reliable w ->
  py_or (Some collection) (_default_collection_name qdrant_connector) = Some name ->
  collections w !! name = None ->
  embed_documents (_embedding_provider qdrant_connector) [content] <> [] ->
  0 < search_limit qdrant_settings ->
  text <> "" ->
  json_loads text = Some (JDict d) ->
  exists w1,
    Tools.qdrant_store "metadata" debug str_exn json_loads qdrant_connector model_name
      content collection (Some text) entry_id w
    = (Ok ("Successfully stored entry in collection '" +:+ collection +:+ "'"), w1)
    /\ fst (Tools.find debug str_exn json_dumps make_filter qdrant_connector
              qdrant_settings content collection None w1)
       = Ok ["Results for the query '" +:+ content +:+ "'";
             Tools.format_entry json_dumps (Entry.make content (Some d))].
Proof.
  intros Dbg Rel R Abs Emb Lim Nt Js.
  destruct (batch_store_single_reliable "metadata" qdrant_connector
              (BatchEntry.make content (Some d) entry_id) (Some collection) name w
              Rel R Abs Emb) as (w1 & point_id & embedding & Bs & F1 & Lk1).
  cbn [BatchEntry.content BatchEntry.metadata] in Lk1.
  exists w1. split.
  - unfold Tools.qdrant_store, try_except. unfold bind at 1. rewrite Dbg.
    unfold Tools.parse_metadata. rewrite (truthy_str_some text Nt).
    cbn [default from_option id]. rewrite Js.
    unfold bind at 1, lift.
    replace (batch_entry_init (JStr content) (JDict d) (Tools.json_of_id_option entry_id))
      with (Ok (BatchEntry.make content (Some d) entry_id)) by now destruct entry_id.
    unfold bind at 1. rewrite Bs. cbn [Nat.ltb Nat.leb].
    unfold bind at 1. now rewrite Dbg.
  - assert (Rel1 : reliable w1) by (intros n; rewrite F1; apply Rel).
    destruct (search_single_point qdrant_connector content content (Some d)
                (Some collection) name (search_limit qdrant_settings) None w1
                (IdStr point_id) embedding (indexes_of qdrant_connector)
                Rel1 R Lk1 Lim) as (w2 & Se); [discriminate |].
    unfold Tools.find, try_except. cbn [truthy_dict]. unfold bind at 1. cbn [ret].
    unfold bind at 1. now rewrite Se.
Qed.

(** X20. With a host whose debug log does not fail, the tool [qdrant_store]
    embeds and stores nothing when its metadata is no mapping: a text that
    does not parse is answered as invalid JSON, a text that parses to
    something else than a mapping or [null] is answered as an error. *)
Theorem store_tool_stores_nothing_without_mapping (mp : string)
    (debug : string -> M unit) (str_exn : Exn -> string)
    (json_loads : string -> option Json) (qdrant_connector : QdrantConnector)
    (model_name content collection text : string) (entry_id : option string) (w : World) :
  (forall msg w', debug msg w' = (Ok tt, w')) ->
  text <> "" ->
  let run := Tools.qdrant_store mp debug str_exn json_loads qdrant_connector model_name
               content collection (Some text) entry_id w in
  (json_loads text = None -> run = (Ok ("Invalid metadata JSON: " +:+ text), w))
  /\ (forall parsed,
        json_loads text = Some parsed ->
        parsed <> JNull ->
        (forall d, parsed <> JDict d) ->
        run = (Ok ("Error storing content: " +:+ str_exn (ValidationError "metadata")), w)).
Proof.
  intros Dbg Nt run. subst run.
  unfold Tools.qdrant_store, try_except. unfold bind at 1. rewrite Dbg.
  unfold Tools.parse_metadata. rewrite (truthy_str_some text Nt).
  cbn [default from_option id]. split.
  - now intros ->.
  - intros parsed -> Nn Nd. unfold bind at 1, lift.
    destruct parsed; try (now destruct Nn); try (now destruct (Nd d));
      cbn [batch_entry_init]; unfold bind; rewrite Dbg; now rewrite Dbg.
Qed.

Lemma search_of_absent_collection (self : QdrantConnector) (query : string)
    (collection_name : option string) (name : string) (limit : Z) (f : option Filter)
    (w : World) :
  py_or collection_name (_default_collection_name self) = Some name ->
  collections w !! name = None ->
  fault w (length (trace w)) = None ->
  search self query collection_name limit f w
  = (Ok [], log (answered (CollectionExists (Some name))) w).
Proof.
  intros R Abs F. unfold search, client_collection_exists, bind.
  rewrite R, (await_answered _ _ _ F). simpl. now rewrite Abs.
Qed.

(** X21. With a host whose debug log does not fail, the tool [find] never
    raises; for a collection that does not exist, once the existence check
    is answered, it answers that no information was found, after that check
    alone. *)
Theorem find_tool_never_raises (debug : string -> M unit) (str_exn : Exn -> string)
    (json_dumps : Metadata -> string) (make_filter : gmap string Json -> Result Filter)
    (qdrant_connector : QdrantConnector) (qdrant_settings : QdrantSettings)
    (query collection name : string) (query_filter : option (gmap string Json))
    (w : World) :
  (forall msg w', debug msg w' = (Ok tt, w')) ->
  let run := Tools.find debug str_exn json_dumps make_filter qdrant_connector
               qdrant_settings query collection in
  (exists lines, fst (run query_filter w) = Ok lines)
  /\ (py_or (Some collection) (_default_collection_name qdrant_connector) = Some name ->
      collections w !! name = None ->
      fault w (length (trace w)) = None ->
      run None w
      = (Ok ["No information found for the query '" +:+ query +:+ "'"],
         log (answered (CollectionExists (Some name))) w)).
Proof.
  intros Dbg run. subst run. split.
  - unfold Tools.find, try_except.
    match goal with |- context [match ?m w with _ => _ end] =>
      destruct (m w) as [[lines|x] w1]
    end.
    + now exists lines.
    + unfold bind. rewrite Dbg. eexists. reflexivity.
  - intros R Abs F.
    pose proof (search_of_absent_collection qdrant_connector query
                  (Some collection) name (search_limit qdrant_settings) None w R Abs F)
      as Se.
    unfold Tools.find, try_except. cbn [truthy_dict]. unfold bind at 1. cbn [ret].
    unfold bind at 1. now rewrite Se.
Qed.

(** ** A second administrative creation *)

(** X22. On a service that answers, creating with
    [create_collection_with_config] a collection that exists returns false:
    the creation call is refused, no index is created, and the collection
    is left as it was. *)
Theorem create_collection_with_config_keeps_existing (self : QdrantConnector)
    (name : string) (vector_size : Z) (distance : string)
    (provider : option EmbeddingProvider) (w : World) (c : Collection) :
  reliable w ->
  collections w !! name = Some c ->
  let run := create_collection_with_config self name vector_size distance provider w in
  fst run = Ok false
  /\ (exists config x, since w (snd run)
                       = [{| call := CreateCollection name config; raised := Some x |}])
  /\ collections (snd run) = collections w.
Proof.
  intros Rel Lk run.
  assert (E : exists config x,
             run = (Ok false,
                    log {| call := CreateCollection name config; raised := Some x |} w)).
  { subst run. unfold create_collection_with_config, try_except, bind at 1.
    unfold client_create_collection. answer_with Rel. rewrite Lk. cbn [fst snd exn_of].
    eexists _, _. reflexivity. }
  destruct E as (config & x & ->). cbn [fst snd]. split; [reflexivity |].
  split; [| reflexivity]. exists config, x. apply since_log.
Qed.

(** * Further runs on concrete inputs *)

Lemma search_raises_what_its_calls_raise_witness :
  let run := search notes_connector "hello" (Some "notes") 10 None
               (failing_world 0 "down") in
  fst run = Raise (ServiceError "down")
  /\ exists before,
       since (failing_world 0 "down") (snd run)
       = before ++ [{| call := CollectionExists (Some "notes");
                       raised := Some (ServiceError "down") |}]
       /\ Forall (fun ev => raised ev = None) before.
Proof.
  apply (proj1 (search_raises_what_its_calls_raise notes_connector "hello"
                  (Some "notes") 10 None (failing_world 0 "down"))
           {| call := CollectionExists (Some "notes");
              raised := Some (ServiceError "down") |}).
  - vm_compute. apply list_elem_of_here.
  - reflexivity.
Defined.

Lemma scroll_collection_raises_only_on_check_witness :
  scroll_collection "metadata" notes_connector None 10 None None true false empty_world
  = (Raise AssertionError, empty_world)
  /\ fst (scroll_collection "metadata" notes_connector (Some "notes") 10 None None
            true false (failing_world 0 "down"))
     = Raise (ServiceError "down")
  /\ fst (scroll_collection "metadata" notes_connector (Some "atlas") 10 None None
            true false (world_with "atlas" [bare_point; untyped_point]))
     = Ok ([], None).
Proof.
  split; [| split].
  - exact (scroll_collection_raises_only_on_check "metadata" notes_connector None 10
             None None true false empty_world).
  - destruct (scroll_collection_raises_only_on_check "metadata" notes_connector
                (Some "notes") 10 None None true false (failing_world 0 "down"))
      as (check & rest & Evs & Outcome).
    vm_compute in Evs. injection Evs as <- <-. exact (proj1 Outcome).
  - destruct (scroll_collection_raises_only_on_check "metadata" notes_connector
                (Some "atlas") 10 None None true false
                (world_with "atlas" [bare_point; untyped_point]))
      as (check & rest & Evs & Outcome).
    vm_compute in Evs. injection Evs as <- <-.
    destruct Outcome as (page & Returned & _). rewrite Returned. f_equal.
    vm_compute in Returned. now injection Returned as <-.
Defined.

Lemma hybrid_search_repeated_keyword_is_empty_witness :
  fst (hybrid_search "metadata" notes_connector "hello" (Some "atlas") 10 None None
         (Some {[ "limit" := JInt 3 ]}) (world_with "atlas" []))
  = Ok [].
Proof.
  refine (proj1 (hybrid_search_repeated_keyword_is_empty "metadata" notes_connector
                   "hello" (Some "atlas") "atlas" 10 None None {[ "limit" := JInt 3 ]}
                   "limit" (world_with "atlas" []) _
                   (world_with_reliable _ _) eq_refl eq_refl _ _)).
  - do 3 apply list_elem_of_further. apply list_elem_of_here.
  - exists (JInt 3). reflexivity.
Defined.

Lemma match_without_document_witness :
  fst (search notes_connector "hello" (Some "atlas") 10 None
         (world_with "atlas" [untitled_point]))
  = Raise (KeyError "document")
  /\ fst (hybrid_search "metadata" notes_connector "hello" (Some "atlas") 10 None None
            None (world_with "atlas" [untitled_point]))
     = Ok [].
Proof.
  exact (match_without_document "metadata" notes_connector "hello" (Some "atlas")
           "atlas" 10 None (world_with "atlas" [untitled_point]) _
           (ScoredPoint.make (IdInt 3) 1%Q (Some {[ "title" := JStr "atlas" ]})) []
           {[ "title" := JStr "atlas" ]}
           (world_with_reliable _ _) eq_refl eq_refl eq_refl eq_refl eq_refl).
Defined.

Lemma scroll_without_payload_names_ids_witness :
  fst (scroll_collection "metadata" notes_connector (Some "atlas") 10 None None
         false false (world_with "atlas" [bare_point; untyped_point]))
  = Ok ([Entry.make "Point ID: 1" (Some {[ "point_id" := JInt 1 ]});
         Entry.make "Point ID: 2" (Some {[ "point_id" := JInt 2 ]})], None).
Proof.
  exact (scroll_without_payload_names_ids "metadata" notes_connector (Some "atlas")
           "atlas" 10 None None false (world_with "atlas" [bare_point; untyped_point])
           [Record_.make (IdInt 1) None None; Record_.make (IdInt 2) None None] None
           (world_with_reliable _ _) eq_refl eq_refl).
Defined.

Lemma store_then_scroll_gives_entry_back_witness :
  exists w1,
    store "meta" notes_connector hello (Some "notes") empty_world = (Ok tt, w1)
    /\ fst (scroll_collection "meta" notes_connector (Some "notes") 10 None None
              true false w1)
       = Ok ([hello], None).
Proof.
  apply (store_then_scroll_gives_entry_back "meta" notes_connector hello (Some "notes")
           "notes" 10 None false empty_world).
  - discriminate.
  - exact empty_world_reliable.
  - reflexivity.
  - reflexivity.
  - discriminate.
  - reflexivity.
  - discriminate.
Defined.


Lemma batch_store_counts_points_sent_witness :
  let run := batch_store "metadata" (connector_of short_provider) batch_of_two
               (Some "notes") empty_world in
  fst run = Ok 1%nat
  /\ exists before pts,
       since empty_world (snd run) = before ++ [answered (Upsert "notes" pts)]
       /\ length pts = 1%nat.
Proof.
  intros run.
  set (u := nth 4 (since empty_world (snd run)) (answered (EmbedQuery ""))).
  set (pts := match call u with Upsert _ sent => sent | _ => [] end).
  destruct (batch_store_counts_points_sent "metadata" (connector_of short_provider)
              batch_of_two (Some "notes") "notes" empty_world u "notes" pts eq_refl)
    as (R & _ & L & before & Evs).
  - vm_compute. do 4 apply list_elem_of_further. apply list_elem_of_here.
  - reflexivity.
  - reflexivity.
  - fold run in R, Evs. split; [rewrite R, L; reflexivity |].
    exists before, pts. split; [exact Evs | rewrite L; reflexivity].
Defined.

Lemma store_without_vector_leaves_empty_collection_witness :
  let run := store "metadata" (connector_of silent_provider) hello (Some "notes")
               empty_world in
  fst run = Raise IndexError
  /\ collections (snd run) !! "notes"
     = Some {| vectors_config := default_config (connector_of silent_provider);
               payload_schema := [("topic", KEYWORD)]; points := [] |}.
Proof.
  destruct (store_without_vector_leaves_empty_collection "metadata"
              (connector_of silent_provider) hello (Some "notes") "notes" empty_world
              empty_world_reliable eq_refl eq_refl) as (R & _ & C).
  split; [exact R | exact (C eq_refl)].
Defined.

Lemma create_collection_with_config_keeps_existing_witness :
  fst (create_collection_with_config notes_connector "atlas" 3 "dot" None
         (world_with "atlas" [bare_point]))
  = Ok false.
Proof.
  exact (proj1 (create_collection_with_config_keeps_existing notes_connector "atlas" 3
                  "dot" None (world_with "atlas" [bare_point]) _
                  (world_with_reliable _ _) eq_refl)).
Defined.

Lemma administrative_operations_never_raise_witness :
  get_detailed_collection_info int_only str_only no_str (collection_answer named_info)
    "atlas" empty_world
  = (Ok None, log (answered (CollectionExists (Some "atlas"))) empty_world)
  /\ delete_collection deletion_answer "atlas" empty_world = (Ok true, empty_world).
Proof.
  destruct (administrative_operations_never_raise int_only str_only no_str
              (collection_answer named_info) deletion_answer "atlas" empty_world)
    as (_ & I & D).
  split; [exact (I eq_refl eq_refl) | exact D].
Defined.

Lemma named_vectors_have_no_size_witness :
  exists collection_info,
    fst (get_detailed_collection_info int_only str_only no_str
           (collection_answer named_info) "atlas" (world_with "atlas" [bare_point]))
    = Ok (Some collection_info)
    /\ CollectionInfo.points_count collection_info = 2
    /\ CollectionInfo.vector_size collection_info = None
    /\ CollectionInfo.distance_metric collection_info = None.
Proof.
  destruct (named_vectors_have_no_size int_only str_only no_str
              (collection_answer named_info) "atlas" (world_with "atlas" [bare_point])
              _ _ named_info _ _ {[ "fast-all-minilm-l6-v2" := vector_params ]}
              eq_refl eq_refl eq_refl eq_refl eq_refl eq_refl)
    as [N | (collection_info & R & _ & S & D)].
  - vm_compute in N. discriminate N.
  - exists collection_info. split; [exact R |]. split; [| now split].
    vm_compute in R. now injection R as <-.
Defined.

Lemma single_vector_configuration_is_reported_witness :
  exists collection_info,
    fst (get_detailed_collection_info int_only str_only no_str
           (collection_answer single_info) "atlas" (world_with "atlas" [bare_point]))
    = Ok (Some collection_info)
    /\ CollectionInfo.vector_size collection_info = Some 384
    /\ CollectionInfo.distance_metric collection_info = Some "COSINE".
Proof.
  destruct (single_vector_configuration_is_reported int_only str_only no_str
              (collection_answer single_info) "atlas" (world_with "atlas" [bare_point])
              _ _ single_info _ _ vector_params 384 "COSINE" "Cosine"
              (fun z => eq_refl) (fun s => eq_refl)
              eq_refl eq_refl eq_refl eq_refl eq_refl eq_refl eq_refl eq_refl eq_refl)
    as [N | (collection_info & R & S & D)].
  - vm_compute in N. discriminate N.
  - now exists collection_info.
Defined.

Lemma missing_attributes_get_defaults_witness :
  collection_info_of int_only str_only no_str "atlas"
    (PyObject (<[ "status" := PyNone ]> {[ "points_count" := PyInt 0 ]}))
  = Ok (CollectionInfo.make "atlas" 0 0 0 0 "unknown" "unknown" None None).
Proof.
  apply missing_attributes_get_defaults; try reflexivity.
  intros a v Ia.
  repeat (apply elem_of_cons in Ia as [-> | Ia]);
    try (vm_compute; intros [= <-]; reflexivity); try discriminate.
  now apply elem_of_nil in Ia.
Defined.

Lemma api_key_follows_location_prefix_witness :
  qdrant_api_key (_create_secure_qdrant_connector
                    (plain_settings "http://example.org:6333") length_provider None)
  = None
  /\ qdrant_api_key (_create_secure_qdrant_connector
                       (plain_settings "http://localhost.example.org") length_provider None)
     = Some "secret".
Proof.
  split.
  - apply (proj2 (api_key_follows_location_prefix
                    (plain_settings "http://example.org:6333") length_provider None
                    "secret" "example.org:6333")); [reflexivity | discriminate | reflexivity].
  - apply (proj2 (api_key_follows_location_prefix
                    (plain_settings "http://localhost.example.org") length_provider None
                    "secret" "localhost.example.org"));
      [reflexivity | discriminate | reflexivity].
Defined.

Lemma batch_tool_stores_nothing_without_content_witness :
  Tools.qdrant_store_batch "metadata" no_debug (fun _ => "error") two_texts
    notes_connector
    [ {[ "content" := JStr "hello" ]}; {[ "metadata" := JStr "{}" ]};
      {[ "content" := JStr "atlas" ]} ]
    "notes" empty_world
  = (Ok "Entry 1 missing required 'content' field", empty_world).
Proof.
  exact (batch_tool_stores_nothing_without_content "metadata" no_debug (fun _ => "error")
           two_texts notes_connector [ {[ "content" := JStr "hello" ]} ]
           [ {[ "content" := JStr "atlas" ]} ] {[ "metadata" := JStr "{}" ]}
           _ "notes" empty_world eq_refl eq_refl).
Defined.

Lemma store_tool_then_find_tool_witness :
  exists w1,
    Tools.qdrant_store "metadata" no_debug (fun _ => "error") two_texts notes_connector
      "model" "hello" "notes" (Some "{}") None empty_world
    = (Ok "Successfully stored entry in collection 'notes'", w1)
    /\ fst (Tools.find no_debug (fun _ => "error") no_dumps no_filter notes_connector
              (plain_settings "http://localhost:6333") "hello" "notes" None w1)
       = Ok ["Results for the query 'hello'";
             Tools.format_entry no_dumps (Entry.make "hello" (Some ∅))].
Proof.
  apply (store_tool_then_find_tool no_debug (fun _ => "error") two_texts no_dumps
           no_filter notes_connector (plain_settings "http://localhost:6333")
           "model" "hello" "notes" "{}" "notes" None ∅ empty_world).
  - reflexivity.
  - exact empty_world_reliable.
  - reflexivity.
  - reflexivity.
  - discriminate.
  - reflexivity.
  - discriminate.
  - reflexivity.
Defined.

Lemma store_tool_stores_nothing_without_mapping_witness :
  Tools.qdrant_store "metadata" no_debug (fun _ => "error") two_texts notes_connector
    "model" "hello" "notes" (Some "{") None empty_world
  = (Ok "Invalid metadata JSON: {", empty_world)
  /\ Tools.qdrant_store "metadata" no_debug (fun _ => "error") two_texts notes_connector
       "model" "hello" "notes" (Some "[]") None empty_world
     = (Ok "Error storing content: error", empty_world).
Proof.
  split.
  - apply (proj1 (store_tool_stores_nothing_without_mapping "metadata" no_debug
                    (fun _ => "error") two_texts notes_connector "model" "hello" "notes"
                    "{" None empty_world (fun _ _ => eq_refl) ltac:(discriminate))).
    reflexivity.
  - apply (proj2 (store_tool_stores_nothing_without_mapping "metadata" no_debug
                    (fun _ => "error") two_texts notes_connector "model" "hello" "notes"
                    "[]" None empty_world (fun _ _ => eq_refl) ltac:(discriminate))
             (JList [])); [reflexivity | discriminate | discriminate].
Defined.

Lemma find_tool_never_raises_witness :
  Tools.find no_debug (fun _ => "error") no_dumps no_filter notes_connector
    (plain_settings "http://localhost:6333") "hello" "notes" None empty_world
  = (Ok ["No information found for the query 'hello'"],
     log (answered (CollectionExists (Some "notes"))) empty_world).
Proof.
  apply (proj2 (find_tool_never_raises no_debug (fun _ => "error") no_dumps no_filter
                  notes_connector (plain_settings "http://localhost:6333")
                  "hello" "notes" "notes" None empty_world (fun _ _ => eq_refl)));
    reflexivity.
Defined.
